(** * Tabby configuration synchronisation: a shallow embedding

    The development embeds the reconciliation code of the repository
    ([tabby_config_sync.py], [src/launcher.py], [tabby-sync.py]) as Rocq
    functions over explicit states and proves or refutes the properties
    that the design document states about it.

    Conventions.
    - A Python [str] is represented by the bytes of its UTF-8 encoding
      (a Rocq [string]); text-mode reads and writes are the identity on
      them (POSIX newline handling), so [s.encode()] is the identity.
    - Every interaction with the outside (network, clock, failing disk
      writes) is decided by an explicit environment record that is an
      argument of the embedded function.
    - A Python function that may leave by an uncaught exception returns
      an [outcome]: [Returned v] or [Raised]. *)

From Stdlib Require Import ZArith List String Ascii Bool Lia Permutation.
From stdpp Require Import base option list gmap strings pretty.
Import ListNotations.

Local Open Scope string_scope.
Local Open Scope list_scope.
Local Open Scope Z_scope.

(** ** hashlib.md5

    [hashlib.md5(b).hexdigest()] is library code; it is embedded in full
    (RFC 1321) so that every fingerprint in an example is the digest the
    program would store. *)
Module Hashlib.

Definition add32 (x y : Z) : Z := (x + y) mod 4294967296.

Definition not32 (x : Z) : Z := Z.lxor x 4294967295.

Definition rotl32 (x c : Z) : Z :=
  Z.lor (Z.shiftl x c mod 4294967296) (Z.shiftr x (32 - c)).

Definition md5_K : list Z :=
  [3614090360; 3905402710; 606105819; 3250441966; 4118548399; 1200080426;
   2821735955; 4249261313; 1770035416; 2336552879; 4294925233; 2304563134;
   1804603682; 4254626195; 2792965006; 1236535329; 4129170786; 3225465664;
   643717713; 3921069994; 3593408605; 38016083; 3634488961; 3889429448;
   568446438; 3275163606; 4107603335; 1163531501; 2850285829; 4243563512;
   1735328473; 2368359562; 4294588738; 2272392833; 1839030562; 4259657740;
   2763975236; 1272893353; 4139469664; 3200236656; 681279174; 3936430074;
   3572445317; 76029189; 3654602809; 3873151461; 530742520; 3299628645;
   4096336452; 1126891415; 2878612391; 4237533241; 1700485571; 2399980690;
   4293915773; 2240044497; 1873313359; 4264355552; 2734768916; 1309151649;
   4149444226; 3174756917; 718787259; 3951481745].

Definition md5_S : list Z :=
  [7; 12; 17; 22; 7; 12; 17; 22; 7; 12; 17; 22; 7; 12; 17; 22;
   5; 9; 14; 20; 5; 9; 14; 20; 5; 9; 14; 20; 5; 9; 14; 20;
   4; 11; 16; 23; 4; 11; 16; 23; 4; 11; 16; 23; 4; 11; 16; 23;
   6; 10; 15; 21; 6; 10; 15; 21; 6; 10; 15; 21; 6; 10; 15; 21].

Definition bytes_of_string (s : string) : list Z :=
  List.map (fun a => Z.of_N (N_of_ascii a)) (list_ascii_of_string s).

(** Little-endian bytes of the low [n] bytes of [x]. *)
Fixpoint le_bytes (n : nat) (x : Z) : list Z :=
  match n with
  | O => []
  | S n' => (x mod 256) :: le_bytes n' (x / 256)
  end.

Fixpoint le_word (bs : list Z) : Z :=
  match bs with
  | [] => 0
  | b :: bs' => b + 256 * le_word bs'
  end.

(** Message padding: a 1 bit, zeros up to 56 mod 64, the bit length. *)
Definition md5_pad (msg : list Z) : list Z :=
  let len := Z.of_nat (List.length msg) in
  let zeros := Z.to_nat ((55 - len) mod 64) in
  msg ++ [128] ++ List.repeat 0 zeros
      ++ le_bytes 8 ((8 * len) mod 18446744073709551616).

Fixpoint chunks (fuel : nat) (n : nat) (bs : list Z) : list (list Z) :=
  match fuel with
  | O => []
  | S fuel' =>
      match bs with
      | [] => []
      | _ => List.firstn n bs :: chunks fuel' n (List.skipn n bs)
      end
  end.

Definition block_words (block : list Z) : list Z :=
  List.map le_word (chunks 16 4 block).

Definition md5_round (M : list Z) (st : Z * Z * Z * Z) (i : nat)
  : Z * Z * Z * Z :=
  let '(a, b, c, d) := st in
  let zi := Z.of_nat i in
  let '(f, g) :=
    if zi <? 16 then (Z.lor (Z.land b c) (Z.land (not32 b) d), zi)
    else if zi <? 32 then
      (Z.lor (Z.land d b) (Z.land (not32 d) c), (5 * zi + 1) mod 16)
    else if zi <? 48 then (Z.lxor b (Z.lxor c d), (3 * zi + 5) mod 16)
    else (Z.lxor c (Z.lor b (not32 d)), (7 * zi) mod 16) in
  let f' := add32 (add32 (add32 f a) (List.nth i md5_K 0))
                  (List.nth (Z.to_nat g) M 0) in
  (d, add32 b (rotl32 f' (List.nth i md5_S 0)), b, c).

Definition md5_block (st : Z * Z * Z * Z) (block : list Z)
  : Z * Z * Z * Z :=
  let M := block_words block in
  let '(a, b, c, d) := List.fold_left (md5_round M) (List.seq 0 64) st in
  let '(a0, b0, c0, d0) := st in
  (add32 a0 a, add32 b0 b, add32 c0 c, add32 d0 d).

Definition hex_digit (n : Z) : ascii :=
  ascii_of_N (Z.to_N (if n <? 10 then 48 + n else 87 + n)).

Fixpoint hex_of_bytes (bs : list Z) : string :=
  match bs with
  | [] => EmptyString
  | b :: bs' =>
      String (hex_digit (b / 16))
             (String (hex_digit (b mod 16)) (hex_of_bytes bs'))
  end.

(** [hashlib.md5(s).hexdigest()] *)
Definition md5 (s : string) : string :=
  let padded := md5_pad (bytes_of_string s) in
  let blocks := chunks (List.length padded) 64 padded in
  let '(a, b, c, d) :=
    List.fold_left md5_block blocks
      (1732584193, 4023233417, 2562383102, 271733878) in
  hex_of_bytes (le_bytes 4 a ++ le_bytes 4 b ++ le_bytes 4 c ++ le_bytes 4 d).

End Hashlib.

Abbreviation md5 := Hashlib.md5.
Arguments Hashlib.md5 : simpl never.

(** ** Results of Python calls *)

(** A call either returns a value or leaves by an uncaught exception. *)
Inductive outcome (A : Type) : Type :=
| Returned (a : A)
| Raised.
Arguments Returned {A} a.
Arguments Raised {A}.

(** ** Parsed YAML documents

  The values [yaml.safe_load] produces for a configuration document:
  scalars, sequences and mappings.  Mapping keys are strings, as in
  every Tabby configuration; floating-point scalars are left out.  A
  mapping is a Python [dict]: an association list in insertion order. *)
Module Yaml.

#[warnings="-register-all"] Inductive yaml : Type :=
| YNull
| YBool (b : bool)
| YInt (z : Z)
| YStr (s : string)
| YList (l : list yaml)
| YDict (d : list (string * yaml)).

(** Python truth value: [None], [False], [0], [''], [[]], [{}] are false. *)
Definition truthy (v : yaml) : bool :=
  match v with
  | YNull => false
  | YBool b => b
  | YInt z => negb (z =? 0)
  | YStr s => negb (String.eqb s "")
  | YList l => match l with [] => false | _ => true end
  | YDict d => match d with [] => false | _ => true end
  end.

(** [x or {}] *)
Definition or_empty_dict (v : yaml) : yaml :=
  if truthy v then v else YDict [].

(** [key in d] and [d.get(key)] for a dict. *)
Fixpoint dict_get (d : list (string * yaml)) (key : string) : option yaml :=
  match d with
  | [] => None
  | (k, v) :: d' => if String.eqb k key then Some v else dict_get d' key
  end.

Definition dict_has (d : list (string * yaml)) (key : string) : bool :=
  match dict_get d key with Some _ => true | None => false end.

(** [d[key] = v]: the value is replaced in place when the key exists,
    otherwise the pair is added at the end. *)
Fixpoint dict_set (d : list (string * yaml)) (key : string) (v : yaml)
  : list (string * yaml) :=
  match d with
  | [] => [(key, v)]
  | (k, v0) :: d' =>
      if String.eqb k key then (k, v) :: d' else (k, v0) :: dict_set d' key v
  end.

(** Keys of a Python [dict] or members of a [set]: hashable scalars up
    to Python equality ([True == 1], [False == 0]). *)
Inductive pkey : Type :=
| KNone
| KNum (z : Z)
| KStr (s : string).

#[global] Instance pkey_eq_dec : EqDecision pkey.
Proof. solve_decision. Defined.

(** The key a value hashes to; lists and dicts are unhashable. *)
Definition to_key (v : yaml) : option pkey :=
  match v with
  | YNull => Some KNone
  | YBool b => Some (KNum (if b then 1 else 0))
  | YInt z => Some (KNum z)
  | YStr s => Some (KStr s)
  | YList _ | YDict _ => None
  end.

End Yaml.
Export Yaml.

(** ** tabby_config_sync.py: [TabbyConfigSync] *)
Module ConfigSync.

(** *** Python dicts as association lists in insertion order *)
Section Dict.
Context {K V : Type} `{EqDecision K}.

Fixpoint assoc_get (d : list (K * V)) (key : K) : option V :=
  match d with
  | [] => None
  | (k, v) :: d' => if decide (k = key) then Some v else assoc_get d' key
  end.

(** [d[key] = v]: replaced in place when the key exists, else appended. *)
Fixpoint assoc_set (d : list (K * V)) (key : K) (v : V) : list (K * V) :=
  match d with
  | [] => [(key, v)]
  | (k, v0) :: d' =>
      if decide (k = key) then (k, v) :: d' else (k, v0) :: assoc_set d' key v
  end.

Definition assoc_has (d : list (K * V)) (key : K) : bool :=
  match assoc_get d key with Some _ => true | None => false end.

End Dict.

(** *** [merge_configs] *)

(** [local_config.copy()]: dicts and lists have it, scalars do not. *)
Definition py_copy (v : yaml) : option yaml :=
  match v with
  | YDict _ | YList _ => Some v
  | _ => None
  end.

(** [key in v]: key test on a dict, membership on a list, substring test
    on a string, [TypeError] on the other scalars. *)
Definition py_contains (key : string) (v : yaml) : option bool :=
  match v with
  | YDict d => Some (dict_has d key)
  | YList l =>
      Some (existsb (fun x => match x with
                              | YStr s => String.eqb s key
                              | _ => false
                              end) l)
  | YStr s => Some (match String.index 0 key s with
                    | Some _ => true
                    | None => false
                    end)
  | _ => None
  end.

(** The body of the comprehension
    [{p.get('name', f'profile_{i}'): p for i, p in enumerate(ps)}]:
    each entry must have [.get] (be a dict) and a hashable name. *)
Fixpoint index_profiles (i : nat) (ps : list yaml) (acc : list (pkey * yaml))
  : option (list (pkey * yaml)) :=
  match ps with
  | [] => Some acc
  | YDict d :: ps' =>
      match to_key (default (YStr ("profile_" +:+ pretty i))
                            (dict_get d "name")) with
      | Some k => index_profiles (S i) ps' (assoc_set acc k (YDict d))
      | None => None
      end
  | _ :: _ => None
  end.

(** The comprehension over the value stored under ['profiles']. *)
Definition profiles_by_name (v : yaml) : option (list (pkey * yaml)) :=
  match v with
  | YList ps => index_profiles 0 ps []
  | YDict [] => Some []
  | YStr s => if String.eqb s "" then Some [] else None
  | _ => None
  end.

(** The loop [for name in all_profile_names], [order] being the order in
    which the set is iterated. *)
Fixpoint merge_profiles (local_profiles remote_profiles : list (pkey * yaml))
  (order : list pkey) : option (list yaml) :=
  match order with
  | [] => Some []
  | name :: order' =>
      let chosen :=
        if assoc_has local_profiles name && assoc_has remote_profiles name
        then assoc_get local_profiles name
        else if assoc_has local_profiles name
             then assoc_get local_profiles name
             else assoc_get remote_profiles name in
      match chosen, merge_profiles local_profiles remote_profiles order' with
      | Some p, Some rest => Some (p :: rest)
      | _, _ => None
      end
  end.

(** The list that [all_profile_names] is the set of. *)
Definition profile_names (local_profiles remote_profiles : list (pkey * yaml))
  : list pkey :=
  List.map fst local_profiles ++ List.map fst remote_profiles.

(** [order] is an iteration order of [set(names)]: every member once. *)
Definition is_set_iteration (names order : list pkey) : bool :=
  bool_decide (NoDup order)
  && forallb (fun k => bool_decide (k ∈ names)) order
  && forallb (fun k => bool_decide (k ∈ order)) names.

(** [merge_configs(local_config, remote_config)].  Python does not fix
    the iteration order of a [set]; [order] is the order of this call. *)
Definition merge_configs (order : list pkey) (local_config remote_config : yaml)
  : outcome yaml :=
  if negb (truthy local_config) then Returned remote_config
  else if negb (truthy remote_config) then Returned local_config
  else
    match py_copy local_config with
    | None => Raised
    | Some merged_config =>
        match py_contains "profiles" remote_config with
        | None => Raised
        | Some false => Returned merged_config
        | Some true =>
            match py_contains "profiles" local_config with
            | None => Raised
            | Some false => Returned merged_config
            | Some true =>
                match local_config, remote_config with
                | YDict dl, YDict dr =>
                    match profiles_by_name
                            (default (YList []) (dict_get dl "profiles")) with
                    | None => Raised
                    | Some local_profiles =>
                        match profiles_by_name
                                (default (YList []) (dict_get dr "profiles")) with
                        | None => Raised
                        | Some remote_profiles =>
                            match merge_profiles local_profiles
                                    remote_profiles order with
                            | None => Raised
                            | Some merged_profiles =>
                                Returned (YDict (dict_set dl "profiles"
                                                   (YList merged_profiles)))
                            end
                        end
                    end
                | _, _ => Raised
                end
            end
        end
    end.

(** The name a profile is keyed by, when it is a dict with a string
    under ['name']. *)
Definition profile_name (p : yaml) : option string :=
  match p with
  | YDict d =>
      match dict_get d "name" with
      | Some (YStr n) => Some n
      | _ => None
      end
  | _ => None
  end.

(** [ps] is a profiles list keyed by name: its entries carry the names
    [names], in this order. *)
Definition named (ps : list yaml) (names : list string) : Prop :=
  Forall2 (fun p n => profile_name p = Some n) ps names.

(** *** State *)

(** An entry of [metadata['sync_history']]. *)
Record history_entry : Type := HistoryEntry {
  h_time : string;
  h_action : string;
  h_device_id : string }.

(** [self.metadata], the dict built by [_create_default_metadata]. *)
Record metadata : Type := Metadata {
  last_sync_time : option string;
  last_local_hash : option string;
  last_remote_hash : option string;
  device_id : string;
  sync_history : list history_entry }.

(** The file [.sync_metadata.json]. *)
Inductive metadata_file : Type :=
| MetaMissing
| MetaUnreadable
| MetaStored (m : metadata).

(** A record of the hosted store: the content of its [config.yaml] file,
    if it has one, and the server's [updated_at]. *)
Record gist : Type := Gist {
  g_config : option string;
  g_updated_at : string }.

(** External writes, in the order they are attempted. *)
Inductive event : Type :=
| EvCreateGist (id content : string)
| EvPatch (content : string) (ok : bool)
| EvBackup (stamp : Z) (ok : bool)
| EvWriteConfig (content : string) (ok : bool)
| EvSaveMetadata (ok : bool).

#[global] Instance event_eq_dec : EqDecision event.
Proof. solve_decision. Defined.

Record world : Type := World {
  w_gist_id : string;                 (* self.gist_id *)
  w_metadata : metadata;              (* self.metadata *)
  w_config_file : option string;      (* config.yaml, when it exists *)
  w_backups : gmap Z string;          (* config.yaml.bak.<stamp> *)
  w_metadata_file : metadata_file;    (* .sync_metadata.json *)
  w_gists : gmap string gist;         (* the hosted store, by record id *)
  w_trace : list event }.

Definition set_gist_id (v : string) (w : world) : world :=
  World v (w_metadata w) (w_config_file w) (w_backups w)
        (w_metadata_file w) (w_gists w) (w_trace w).
Definition set_metadata (v : metadata) (w : world) : world :=
  World (w_gist_id w) v (w_config_file w) (w_backups w)
        (w_metadata_file w) (w_gists w) (w_trace w).
Definition set_config_file (v : option string) (w : world) : world :=
  World (w_gist_id w) (w_metadata w) v (w_backups w)
        (w_metadata_file w) (w_gists w) (w_trace w).
Definition set_backups (v : gmap Z string) (w : world) : world :=
  World (w_gist_id w) (w_metadata w) (w_config_file w) v
        (w_metadata_file w) (w_gists w) (w_trace w).
Definition set_metadata_file (v : metadata_file) (w : world) : world :=
  World (w_gist_id w) (w_metadata w) (w_config_file w) (w_backups w)
        v (w_gists w) (w_trace w).
Definition set_gists (v : gmap string gist) (w : world) : world :=
  World (w_gist_id w) (w_metadata w) (w_config_file w) (w_backups w)
        (w_metadata_file w) v (w_trace w).
Definition log_event (ev : event) (w : world) : world :=
  World (w_gist_id w) (w_metadata w) (w_config_file w) (w_backups w)
        (w_metadata_file w) (w_gists w) (w_trace w ++ [ev]).

(** What one cycle meets outside the program.  A request that goes
    through is answered from the store (200, 201 or 404); one that does
    not raises [requests.RequestException] or carries an error status. *)
Record env : Type := Env {
  e_probe_ok : bool;        (* GET of [create_gist_if_not_exists] *)
  e_create_ok : bool;       (* POST of [create_gist_if_not_exists] *)
  e_new_gist_id : string;   (* id the store gives a new record *)
  e_fetch_ok : bool;        (* GET of [get_remote_config] *)
  e_patch_ok : bool;        (* PATCH of [update_remote_config] *)
  e_backup_ok : bool;       (* the backup copy can be written *)
  e_write_ok : bool;        (* config.yaml can be opened for writing *)
  e_save_ok : bool;         (* .sync_metadata.json can be written *)
  e_time : Z;               (* int(time.time()) *)
  e_now_sync : string;      (* datetime.now().isoformat(), first call *)
  e_now_entry : string;     (* datetime.now().isoformat(), second call *)
  e_server_time : string;   (* updated_at the store sets on a write *)
  e_set_order : list pkey   (* iteration order of all_profile_names *) }.


(** *** Methods *)

(** [_generate_device_id], from [platform.node()], [platform.machine()]
    and [platform.processor()]. *)
Definition _generate_device_id (hostname machine processor : string) : string :=
  md5 (hostname +:+ (machine +:+ processor)).

Definition _create_default_metadata (dev : string) : metadata :=
  {| last_sync_time := None;
     last_local_hash := None;
     last_remote_hash := None;
     device_id := dev;
     sync_history := [] |}.

(** [save_metadata]: a failure is logged and swallowed. *)
Definition save_metadata (e : env) (w : world) : world :=
  if e_save_ok e
  then log_event (EvSaveMetadata true)
         (set_metadata_file (MetaStored (w_metadata w)) w)
  else log_event (EvSaveMetadata false) w.

(** [load_metadata], called by [__init__]. *)
Definition load_metadata (dev : string) (e : env) (w : world) : world :=
  match w_metadata_file w with
  | MetaStored m => set_metadata m w
  | MetaUnreadable => set_metadata (_create_default_metadata dev) w
  | MetaMissing =>
      save_metadata e (set_metadata (_create_default_metadata dev) w)
  end.

(** [calculate_file_hash(self.config_file)] *)
Definition calculate_file_hash (w : world) : option string :=
  match w_config_file w with
  | None => None
  | Some content => Some (md5 content)
  end.

(** [get_remote_config]: [None] stands for the triple of [None]s. *)
Definition get_remote_config (e : env) (w : world)
  : option (string * string * string) :=
  if e_fetch_ok e then
    match w_gists w !! w_gist_id w with
    | None => None
    | Some g =>
        match g_config g with
        | None => None
        | Some content => Some (content, md5 content, g_updated_at g)
        end
    end
  else None.

(** [update_remote_config(content)] *)
Definition update_remote_config (content : string) (e : env) (w : world)
  : bool * world :=
  if e_patch_ok e then
    match w_gists w !! w_gist_id w with
    | None => (false, log_event (EvPatch content false) w)
    | Some g =>
        (true,
         log_event (EvPatch content true)
           (set_gists (<[w_gist_id w := Gist (Some content) (e_server_time e)]>
                         (w_gists w)) w))
    end
  else (false, log_event (EvPatch content false) w).

(** [create_gist_if_not_exists] *)
Definition create_gist_if_not_exists (e : env) (w : world) : bool * world :=
  if e_probe_ok e then
    match w_gists w !! w_gist_id w with
    | Some _ => (true, w)
    | None =>
        let content := default "" (w_config_file w) in
        if e_create_ok e then
          let w1 :=
            log_event (EvCreateGist (e_new_gist_id e) content)
              (set_gists (<[e_new_gist_id e :=
                              Gist (Some content) (e_server_time e)]>
                            (w_gists w)) w) in
          (true,
           if String.eqb (w_gist_id w) "" then set_gist_id (e_new_gist_id e) w1
           else w1)
        else (false, w)
    end
  else (false, w).

(** *** [sync] *)
Section Sync.

(** [yaml.safe_load]; [None] when it raises. *)
Variable yaml_safe_load : string -> option yaml.
(** [yaml.dump(_, default_flow_style=False, sort_keys=False)];
    [None] when it raises. *)
Variable yaml_dump : yaml -> option string.

(** The metadata update that ends every successful write:
    both hashes, the time, one history entry, then [save_metadata]. *)
Definition record_sync (action : string) (local_hash remote_hash : option string)
  (e : env) (w : world) : world :=
  let m := w_metadata w in
  save_metadata e
    (set_metadata
       {| last_sync_time := Some (e_now_sync e);
          last_local_hash := local_hash;
          last_remote_hash := remote_hash;
          device_id := device_id m;
          sync_history :=
            sync_history m
              ++ [HistoryEntry (e_now_entry e) action (device_id m)] |} w).

(** The backup block: copy config.yaml to config.yaml.bak.<time>;
    a failure is logged as a warning and the caller goes on. *)
Definition backup_local (e : env) (w : world) : world :=
  match w_config_file w with
  | None => w
  | Some content =>
      if e_backup_ok e
      then log_event (EvBackup (e_time e) true)
             (set_backups (<[e_time e := content]> (w_backups w)) w)
      else log_event (EvBackup (e_time e) false) w
  end.

(** [with open(self.config_file, 'w') as f: f.write(content)] *)
Definition write_config (content : string) (e : env) (w : world)
  : bool * world :=
  if e_write_ok e
  then (true, log_event (EvWriteConfig content true)
                (set_config_file (Some content) w))
  else (false, log_event (EvWriteConfig content false) w).

(** The upload block shared by the forced and the detected upload, from
    [update_remote_config(local_content)] on. *)
Definition upload_local (local_content : string) (local_hash : option string)
  (e : env) (w : world) : outcome bool * world :=
  let '(ok, w1) := update_remote_config local_content e w in
  if ok then (Returned true, record_sync "upload" local_hash local_hash e w1)
  else (Returned false, w1).

(** The download block; the forced and the detected download run the
    same statements. *)
Definition download_remote (remote_content : string)
  (remote_hash : option string) (e : env) (w : world) : outcome bool * world :=
  if String.eqb remote_content "" then (Returned false, w)
  else
    let w1 := backup_local e w in
    let '(written, w2) := write_config remote_content e w1 in
    if written
    then (Returned true, record_sync "download" remote_hash remote_hash e w2)
    else (Returned false, w2).

(** Case 4: both sides changed. *)
Definition merge_both (remote_content : string) (e : env) (w : world)
  : outcome bool * world :=
  match w_config_file w with
  | None => (Returned false, w)
  | Some local_content =>
      match yaml_safe_load local_content with
      | None => (Returned false, w)
      | Some local_doc =>
          let local_config := or_empty_dict local_doc in
          match yaml_safe_load remote_content with
          | None => (Returned false, w)
          | Some remote_doc =>
              let remote_config := or_empty_dict remote_doc in
              let w1 := backup_local e w in
              match merge_configs (e_set_order e) local_config remote_config with
              | Raised => (Raised, w1)
              | Returned merged_config =>
                  match yaml_dump merged_config with
                  | None => (Returned false, w1)
                  | Some merged_content =>
                      let '(written, w2) := write_config merged_content e w1 in
                      if written then
                        let '(ok, w3) :=
                          update_remote_config merged_content e w2 in
                        if ok then
                          let merged_hash := Some (md5 merged_content) in
                          (Returned true,
                           record_sync "merge" merged_hash merged_hash e w3)
                        else (Returned false, w3)
                      else (Returned false, w2)
                  end
              end
          end
      end
  end.

(** [sync(force_upload, force_download)] *)
Definition sync (force_upload force_download : bool) (e : env) (w : world)
  : outcome bool * world :=
  let '(present, w1) := create_gist_if_not_exists e w in
  if present then
    let local_hash := calculate_file_hash w1 in
    match get_remote_config e w1 with
    | None => (Returned false, w1)
    | Some (remote_content, remote_digest, remote_updated_at) =>
        let remote_hash := Some remote_digest in
        let last_local := last_local_hash (w_metadata w1) in
        let last_remote := last_remote_hash (w_metadata w1) in
        let local_same := bool_decide (local_hash = last_local) in
        let remote_same := bool_decide (remote_hash = last_remote) in
        if force_upload then
          match w_config_file w1 with
          | None => (Returned false, w1)
          | Some local_content => upload_local local_content local_hash e w1
          end
        else if force_download then
          download_remote remote_content remote_hash e w1
        else if local_same && remote_same then (Returned true, w1)
        else if negb local_same && remote_same then
          match w_config_file w1 with
          | None => (Raised, w1)
          | Some local_content => upload_local local_content local_hash e w1
          end
        else if local_same && negb remote_same then
          download_remote remote_content remote_hash e w1
        else if negb local_same && negb remote_same then
          merge_both remote_content e w1
        else (Returned false, w1)
    end
  else (Returned false, w1).

End Sync.

End ConfigSync.

(** ** Observations on a cycle of [sync] *)
Module Observe.
Import ConfigSync.

(** The content of [config.yaml] in the record the engine points to. *)
Definition remote_content (w : world) : option string :=
  match w_gists w !! w_gist_id w with
  | Some g => g_config g
  | None => None
  end.

(** Fingerprints of what is on disk and of what is in the store. *)
Definition local_fingerprint (w : world) : option string :=
  calculate_file_hash w.





(** [ev1] is logged before [ev2]. *)
Definition occurs_before (ev1 ev2 : event) (tr : list event) : Prop :=
  exists pre mid post, tr = pre ++ ev1 :: mid ++ ev2 :: post.






(** A conflict strategy has chosen a survivor among the two contents:
    afterwards the file on disk and the store both hold it. *)
Definition survivor_chosen (w w' : world) : Prop :=
  exists survivor,
    (w_config_file w = Some survivor \/ remote_content w = Some survivor)
    /\ w_config_file w' = Some survivor
    /\ remote_content w' = Some survivor.


End Observe.

(** ** Example data

    [yaml.safe_load] and [yaml.dump] restricted to the documents of the
    examples below; a text outside the table counts as unparsable and a
    value outside it as not serialisable. *)
Module Demo.
Import ConfigSync.

Definition nl : string := String (ascii_of_nat 10) EmptyString.

Definition text_work : string := "profiles:" +:+ nl +:+ "- name: work" +:+ nl.
Definition text_home : string := "profiles:" +:+ nl +:+ "- name: home" +:+ nl.
Definition text_both : string :=
  "profiles:" +:+ nl +:+ "- name: work" +:+ nl +:+ "- name: home" +:+ nl.
Definition text_broken : string := "profiles: [".

Definition profile (name : string) : yaml := YDict [("name", YStr name)].
Definition doc_work : yaml := YDict [("profiles", YList [profile "work"])].
Definition doc_home : yaml := YDict [("profiles", YList [profile "home"])].
Definition doc_both : yaml :=
  YDict [("profiles", YList [profile "work"; profile "home"])].

Definition safe_load (s : string) : option yaml :=
  if String.eqb s text_work then Some doc_work
  else if String.eqb s text_home then Some doc_home
  else if String.eqb s text_both then Some doc_both
  else None.

Definition dump (v : yaml) : option string :=
  match v with
  | YDict [("profiles", YList [YDict [("name", YStr a)]])] =>
      Some ("profiles:" +:+ nl +:+ "- name: " +:+ a +:+ nl)
  | YDict [("profiles",
            YList [YDict [("name", YStr a)]; YDict [("name", YStr b)]])] =>
      Some ("profiles:" +:+ nl +:+ "- name: " +:+ a +:+ nl
              +:+ "- name: " +:+ b +:+ nl)
  | _ => None
  end.

Definition device : string := _generate_device_id "host" "x86_64" "".

Definition env_ok : env :=
  {| e_probe_ok := true; e_create_ok := true; e_new_gist_id := "g2";
     e_fetch_ok := true; e_patch_ok := true; e_backup_ok := true;
     e_write_ok := true; e_save_ok := true; e_time := 1700000000;
     e_now_sync := "2023-11-14T22:13:20.000001";
     e_now_entry := "2023-11-14T22:13:20.000002";
     e_server_time := "2023-11-14T22:13:21Z";
     e_set_order := [KStr "work"; KStr "home"] |}.



(** A machine whose config.yaml is [local], pointing at record ["g1"]
    that holds [remote], with [m] as metadata. *)
Definition machine (local : option string) (remote : string) (m : metadata)
  : world :=
  {| w_gist_id := "g1";
     w_metadata := m;
     w_config_file := local;
     w_backups := ∅;
     w_metadata_file := MetaStored m;
     w_gists := {[ "g1" := Gist (Some remote) "2023-11-14T20:00:00Z" ]};
     w_trace := [] |}.


Definition synced (content : string) : metadata :=
  {| last_sync_time := Some "2023-11-14T20:00:00.000000";
     last_local_hash := Some (md5 content);
     last_remote_hash := Some (md5 content);
     device_id := device;
     sync_history := [HistoryEntry "2023-11-14T20:00:00.000000" "upload" device] |}.

(** Scenarios. *)
Definition in_sync : world := machine (Some text_work) text_work (synced text_work).
Definition remote_broken : world :=
  machine (Some text_work) text_broken (synced "old").

End Demo.

(** ** fnmatch and sorting

    [fnmatch.fnmatch(name, pattern)] on POSIX (case-sensitive) for
    patterns built from literal characters, [*] and [?]; no pattern of
    the repository has a character class. *)
Module Glob.

Fixpoint glob_match (pat : list ascii) (name : list ascii) : bool :=
  match pat with
  | [] => match name with [] => true | _ :: _ => false end
  | c :: pat' =>
      if Ascii.eqb c "*" then
        (fix star (rest : list ascii) : bool :=
           glob_match pat' rest
           || match rest with
              | [] => false
              | _ :: rest' => star rest'
              end) name
      else
        match name with
        | [] => false
        | d :: name' =>
            (Ascii.eqb c "?" || Ascii.eqb c d) && glob_match pat' name'
        end
  end.

Definition fnmatch (name pattern : string) : bool :=
  glob_match (list_ascii_of_string pattern) (list_ascii_of_string name).

(** [sorted(xs, key=...)]: a stable sort, as insertion sort, for the
    order [leb] of the keys. *)
Section Sorted.
Context {A : Type} (leb : A -> A -> bool).

Fixpoint insert_sorted (x : A) (xs : list A) : list A :=
  match xs with
  | [] => [x]
  | y :: ys => if leb x y then x :: y :: ys else y :: insert_sorted x ys
  end.

Definition sorted (xs : list A) : list A :=
  List.fold_right insert_sorted [] xs.

End Sorted.

End Glob.

(** ** src/launcher.py: [TabbyAutoSyncLauncher] *)
Module Launcher.
Import Glob.

Inductive SyncResult : Type :=
| SUCCESS | NO_CHANGES | CONFLICT_RESOLVED | ERROR | CANCELLED.

Inductive ConflictStrategy : Type :=
| NEWEST | OLDEST | LOCAL | CLOUD | MERGE | MANUAL.

#[global] Instance SyncResult_eq_dec : EqDecision SyncResult.
Proof. solve_decision. Defined.

(** [str.upper()] on ASCII letters. *)
Definition upper_ascii (c : ascii) : ascii :=
  let n := nat_of_ascii c in
  if (Nat.leb 97 n && Nat.leb n 122)%bool then ascii_of_nat (n - 32) else c.

Fixpoint upper (s : string) : string :=
  match s with
  | EmptyString => EmptyString
  | String c s' => String (upper_ascii c) (upper s')
  end.

(** [getattr(ConflictStrategy, strategy_name.upper(), ConflictStrategy.NEWEST)]
    for [strategy_name], the configured value or its fallback ['newest']. *)
Definition conflict_strategy_of (strategy_name : string) : ConflictStrategy :=
  let name := upper strategy_name in
  if String.eqb name "NEWEST" then NEWEST
  else if String.eqb name "OLDEST" then OLDEST
  else if String.eqb name "LOCAL" then LOCAL
  else if String.eqb name "CLOUD" then CLOUD
  else if String.eqb name "MERGE" then MERGE
  else if String.eqb name "MANUAL" then MANUAL
  else NEWEST.

(** A file of the backups directory, or the Tabby configuration file. *)
Record file : Type := File {
  f_name : string;
  f_content : string;
  f_mtime : Z }.

(** The delivery mechanisms of [upload_to_gist]. *)
Inductive mechanism : Type :=
| SystemHttp      (* _upload_with_system_http: PowerShell Invoke-WebRequest *)
| Requests        (* _upload_with_requests *)
| Urllib.         (* _upload_with_urllib_original *)

#[global] Instance mechanism_eq_dec : EqDecision mechanism.
Proof. solve_decision. Defined.

(** The answer a mechanism gets: the HTTP status and, when the body can
    be read as JSON with an ['id'], that id. *)
Record reply : Type := Reply {
  r_status : Z;
  r_id : option string }.

Record launcher : Type := LauncherState {
  github_token : string;
  gist_id : string;
  conflict_strategy : ConflictStrategy;
  max_backups : option Z;          (* int(config 'max_backups'); None: not a number *)
  tabby_config_path : bool;        (* false: self.tabby_config_path is None *)
  tabby_config : option file;      (* the file at tabby_config_path, if any *)
  backups : list file;             (* backups/, in directory order *)
  last_config_mtime : option Z;
  config_changed_since_start : bool;
  attempts : list mechanism        (* mechanisms tried so far, in order *) }.

Definition with_gist_id (v : string) (l : launcher) : launcher :=
  LauncherState (github_token l) v (conflict_strategy l) (max_backups l)
    (tabby_config_path l) (tabby_config l) (backups l)
    (last_config_mtime l) (config_changed_since_start l) (attempts l).
Definition with_conflict_strategy (v : ConflictStrategy) (l : launcher)
  : launcher :=
  LauncherState (github_token l) (gist_id l) v (max_backups l)
    (tabby_config_path l) (tabby_config l) (backups l)
    (last_config_mtime l) (config_changed_since_start l) (attempts l).
Definition with_tabby_config (v : option file) (l : launcher) : launcher :=
  LauncherState (github_token l) (gist_id l) (conflict_strategy l)
    (max_backups l) (tabby_config_path l) v (backups l)
    (last_config_mtime l) (config_changed_since_start l) (attempts l).
Definition with_backups (v : list file) (l : launcher) : launcher :=
  LauncherState (github_token l) (gist_id l) (conflict_strategy l)
    (max_backups l) (tabby_config_path l) (tabby_config l) v
    (last_config_mtime l) (config_changed_since_start l) (attempts l).
Definition with_tracking (mtime : option Z) (changed : bool) (l : launcher)
  : launcher :=
  LauncherState (github_token l) (gist_id l) (conflict_strategy l)
    (max_backups l) (tabby_config_path l) (tabby_config l) (backups l)
    mtime changed (attempts l).
Definition tried (m : mechanism) (l : launcher) : launcher :=
  LauncherState (github_token l) (gist_id l) (conflict_strategy l)
    (max_backups l) (tabby_config_path l) (tabby_config l) (backups l)
    (last_config_mtime l) (config_changed_since_start l) (attempts l ++ [m]).

(** What one call meets outside the program. *)
Record lenv : Type := LauncherEnv {
  REQUESTS_AVAILABLE : bool;
  reply_system_http : option reply;  (* None: PowerShell fails or raises *)
  reply_requests : option reply;     (* None: requests raises *)
  reply_urllib : option reply;       (* None: urlopen raises *)
  stamp : string;                    (* datetime.now().strftime("%Y%m%d_%H%M%S") *)
  clock_write : Z;                   (* the time a file written now gets *)
  clock_check : Z;                   (* time.time() of a later check *)
  backup_write_ok : bool;            (* a file can be written in backups/ *)
  config_write_ok : bool;            (* the Tabby config can be written *)
  cloud_content : option string;     (* what _download_with_system_http returns *)
  error_text : string;               (* str(e) of a caught exception *)
  user_confirms : bool;              (* input() == 'y' before a restore *)
  user_rolls_back : bool             (* input() == 'y' for a rollback *) }.

(** Writing [name] in backups/: an existing file is replaced in place. *)
Fixpoint write_file (fs : list file) (name content : string) (mtime : Z)
  : list file :=
  match fs with
  | [] => [File name content mtime]
  | f :: fs' =>
      if String.eqb (f_name f) name then File name content mtime :: fs'
      else f :: write_file fs' name content mtime
  end.

Definition find_file (fs : list file) (name : string) : option file :=
  List.find (fun f => String.eqb (f_name f) name) fs.

Definition remove_files (fs doomed : list file) : list file :=
  List.filter (fun f => negb (existsb (fun d => String.eqb (f_name d) (f_name f))
                                      doomed)) fs.

(** [backup_dir.glob(pattern)] *)
Definition glob (fs : list file) (pattern : string) : list file :=
  List.filter (fun f => fnmatch (f_name f) pattern) fs.

(** [sorted(files)]: by path. *)
Definition sorted_by_name (fs : list file) : list file :=
  sorted (fun a b => String.leb (f_name a) (f_name b)) fs.

(** [sorted(files, key=lambda x: x.stat().st_mtime, reverse=True)] *)
Definition newest_first (fs : list file) : list file :=
  sorted (fun a b => f_mtime b <=? f_mtime a) fs.

(** [xs[n:]] for an integer [n] of either sign. *)
Definition slice_from {A : Type} (n : Z) (xs : list A) : list A :=
  if n <? 0 then List.skipn (Z.to_nat (Z.of_nat (List.length xs) + n)) xs
  else List.skipn (Z.to_nat n) xs.

(** [cleanup_old_backups]: keep the [max_backups] newest config backups. *)
Definition cleanup_old_backups (l : launcher) : launcher :=
  match max_backups l with
  | None => l
  | Some n =>
      let backup_files := newest_first (glob (backups l) "config_backup_*.yaml") in
      with_backups (remove_files (backups l) (slice_from n backup_files)) l
  end.

(** [_cleanup_old_backups_in_dir]: while more than [max_backups] files
    match, remove the first in path order; popping from the emptied list
    ends the loop by an exception that is caught. *)
Definition _cleanup_old_backups_in_dir (l : launcher) : launcher :=
  match max_backups l with
  | None => l
  | Some n =>
      let backup_files := sorted_by_name (glob (backups l) "*_backup_*.yaml") in
      let excess := Z.to_nat (Z.of_nat (List.length backup_files) - n) in
      with_backups (remove_files (backups l) (List.firstn excess backup_files)) l
  end.

(** [create_backup(self.tabby_config_path)]: the name of the backup, or
    [None].  [shutil.copy2] keeps the modification time of the source. *)
Definition create_backup (e : lenv) (l : launcher) : option string * launcher :=
  match tabby_config l with
  | None => (None, l)
  | Some src =>
      let backup_filename := "config_backup_" +:+ stamp e +:+ ".yaml" in
      if backup_write_ok e then
        (Some backup_filename,
         cleanup_old_backups
           (with_backups (write_file (backups l) backup_filename
                            (f_content src) (f_mtime src)) l))
      else (None, l)
  end.

(** [_create_local_backup(config_content, backup_type)] *)
Definition _create_local_backup (config_content backup_type : string)
  (e : lenv) (l : launcher) : bool * launcher :=
  let backup_file :=
    (if String.eqb backup_type "fallback" then "fallback_backup_"
     else "config_backup_") +:+ stamp e +:+ ".yaml" in
  if backup_write_ok e then
    (true,
     _cleanup_old_backups_in_dir
       (with_backups (write_file (backups l) backup_file config_content
                        (clock_write e)) l))
  else (false, l).

(** *** Upload *)

Definition accepted (status : Z) : bool := (status =? 200) || (status =? 201).

(** Saving the id of a newly created record ([self.gist_id = ...],
    written to config.ini as well). *)
Definition save_gist_id (id : string) (l : launcher) : launcher :=
  with_gist_id id l.

(** [_upload_with_system_http]: a missing or unreadable id in the answer
    is ignored. *)
Definition _upload_with_system_http (e : lenv) (l : launcher)
  : bool * launcher :=
  match reply_system_http e with
  | None => (false, l)
  | Some r =>
      if accepted (r_status r) then
        (true,
         if (r_status r =? 201) && String.eqb (gist_id l) "" then
           match r_id r with
           | Some id => save_gist_id id l
           | None => l
           end
         else l)
      else (false, l)
  end.

(** [_upload_with_requests]: PATCH when there is a record id, else POST;
    after a POST answered 201 the id is read from the body, and a body
    without one raises inside the [try]. *)
Definition _upload_with_requests (e : lenv) (l : launcher) : bool * launcher :=
  match reply_requests e with
  | None => (false, l)
  | Some r =>
      if String.eqb (gist_id l) "" then
        if r_status r =? 201 then
          match r_id r with
          | Some id => (true, save_gist_id id l)
          | None => (false, l)
          end
        else (accepted (r_status r), l)
      else (accepted (r_status r), l)
  end.

(** [_upload_with_urllib_original] *)
Definition _upload_with_urllib_original (e : lenv) (l : launcher)
  : bool * launcher :=
  match reply_urllib e with
  | None => (false, l)
  | Some r =>
      if (r_status r =? 201) && String.eqb (gist_id l) "" then
        match r_id r with
        | Some id => (true, save_gist_id id l)
        | None => (false, l)
        end
      else (accepted (r_status r), l)
  end.

(** [upload_to_gist(config_content)] *)
Definition upload_to_gist (config_content : string) (e : lenv) (l : launcher)
  : bool * launcher :=
  if String.eqb (github_token l) "" then (false, l)
  else
    let '(ok1, l1) := _upload_with_system_http e (tried SystemHttp l) in
    if ok1 then (true, l1)
    else
      let '(ok2, l2) :=
        if REQUESTS_AVAILABLE e
        then _upload_with_requests e (tried Requests l1)
        else (false, l1) in
      if ok2 then (true, l2)
      else
        let '(ok3, l3) := _upload_with_urllib_original e (tried Urllib l2) in
        if ok3 then (true, l3)
        else
          let '(_, l4) := _create_local_backup config_content "fallback" e l3 in
          (false, l4).

(** [_reset_change_tracking] *)
Definition _reset_change_tracking (l : launcher) : launcher :=
  match tabby_config_path l, tabby_config l with
  | true, Some f => with_tracking (Some (f_mtime f)) false l
  | _, _ => with_tracking (last_config_mtime l) false l
  end.

Definition msg_uploaded : string := "成功上传配置到云端".
Definition msg_offline_saved : string := "网络不可用，已保存到本地备份".
Definition msg_upload_failed : string := "上传失败".
Definition msg_no_local_config : string := "本地配置文件不存在".

(** [sync_to_cloud]: after a failed upload, a fallback file less than
    ten seconds old makes the result the offline-saved one. *)
Definition sync_to_cloud (e : lenv) (l : launcher)
  : (SyncResult * string) * launcher :=
  match tabby_config_path l, tabby_config l with
  | true, Some f =>
      let '(upload_result, l1) := upload_to_gist (f_content f) e l in
      if upload_result then
        ((SUCCESS, msg_uploaded), _reset_change_tracking l1)
      else
        match newest_first (glob (backups l1) "fallback_backup_*.yaml") with
        | newest :: _ =>
            if clock_check e - f_mtime newest <? 10
            then ((SUCCESS, msg_offline_saved), l1)
            else ((ERROR, msg_upload_failed), l1)
        | [] => ((ERROR, msg_upload_failed), l1)
        end
  | _, _ => ((NO_CHANGES, msg_no_local_config), l)
  end.

(** *** Download and restore *)
Section Download.

(** [yaml.safe_load]; [None] when it raises. *)
Variable yaml_safe_load : string -> option yaml.

(** [validate_config] *)
Definition validate_config (l : launcher) : bool :=
  match tabby_config_path l, tabby_config l with
  | true, Some f =>
      match yaml_safe_load (f_content f) with
      | Some _ => true
      | None => false
      end
  | _, _ => false
  end.

(** [download_from_gist] *)
Definition download_from_gist (e : lenv) (l : launcher) : option string :=
  if String.eqb (github_token l) "" || String.eqb (gist_id l) "" then None
  else cloud_content e.

Definition msg_no_config_path : string := "Tabby 配置路径未找到".
Definition msg_no_cloud_config : string := "云端配置不存在".
Definition msg_rolled_back : string := "已回滚到备份配置".
Definition msg_downloaded : string := "成功从云端同步配置".
Definition msg_sync_failed (e : lenv) : string := "同步失败: " +:+ error_text e.

(** [sync_from_cloud] *)
Definition sync_from_cloud (e : lenv) (l : launcher)
  : (SyncResult * string) * launcher :=
  if tabby_config_path l then
    match download_from_gist e l with
    | None => ((NO_CHANGES, msg_no_cloud_config), l)
    | Some cloud =>
        if String.eqb cloud "" then ((NO_CHANGES, msg_no_cloud_config), l)
        else
          let '(backup_path, l1) :=
            match tabby_config l with
            | Some _ => create_backup e l
            | None => (None, l)
            end in
          if config_write_ok e then
            let l2 :=
              with_tabby_config
                (Some (File "config.yaml" cloud (clock_write e))) l1 in
            if validate_config l2 then ((SUCCESS, msg_downloaded), l2)
            else
              match backup_path with
              | Some name =>
                  if user_rolls_back e then
                    match find_file (backups l2) name with
                    | Some b =>
                        ((SUCCESS, msg_rolled_back),
                         with_tabby_config
                           (Some (File "config.yaml" (f_content b) (f_mtime b)))
                           l2)
                    | None => ((ERROR, msg_sync_failed e), l2)
                    end
                  else ((SUCCESS, msg_downloaded), l2)
              | None => ((SUCCESS, msg_downloaded), l2)
              end
          else ((ERROR, msg_sync_failed e), l1)
    end
  else ((ERROR, msg_no_config_path), l).

(** [restore_from_backup(backup_path)], [backup_path] naming a file of
    backups/. *)
Definition restore_from_backup (backup_name : string) (e : lenv) (l : launcher)
  : bool * launcher :=
  match find_file (backups l) backup_name with
  | None => (false, l)
  | Some _ =>
      if tabby_config_path l then
        if user_confirms e then
          let '(_, l1) := create_backup e l in
          match find_file (backups l1) backup_name with
          | None => (false, l1)
          | Some b =>
              if config_write_ok e then
                (true,
                 with_tabby_config
                   (Some (File "config.yaml" (f_content b) (f_mtime b))) l1)
              else (false, l1)
          end
        else (false, l)
      else (false, l)
  end.

End Download.

(** *** Observations on an upload *)






(** *** Change tracking, the monitor loop and the backup commands *)

(** [_init_config_monitoring] *)
Definition _init_config_monitoring (l : launcher) : launcher :=
  match tabby_config_path l, tabby_config l with
  | true, Some f =>
      with_tracking (Some (f_mtime f)) (config_changed_since_start l) l
  | _, _ => with_tracking None (config_changed_since_start l) l
  end.

(** [_check_config_changes]: the result and the tracking state it
    leaves. *)
Definition _check_config_changes (l : launcher) : bool * launcher :=
  match tabby_config_path l, tabby_config l with
  | true, Some f =>
      match last_config_mtime l with
      | None =>
          (false,
           with_tracking (Some (f_mtime f)) (config_changed_since_start l) l)
      | Some last =>
          if f_mtime f =? last then (false, l)
          else (true, with_tracking (Some (f_mtime f)) true l)
      end
  | _, _ => (false, l)
  end.

(** One pass of the loop of [monitor_tabby], up to its [time.sleep]:
    [is_running] is what [is_tabby_running] returns in this pass and
    [was_running] what it returned in the pass before. *)
Definition monitor_pass (yaml_safe_load : string -> option yaml)
  (is_running was_running : bool) (e : lenv) (l : launcher) : launcher :=
  if is_running && negb was_running then
    _reset_change_tracking (snd (sync_from_cloud yaml_safe_load e l))
  else if negb is_running && was_running then
    let '(has_changes, l1) := _check_config_changes l in
    if has_changes || config_changed_since_start l1
    then snd (sync_to_cloud e l1)
    else l1
  else l.

(** [list_backups] *)
Definition list_backups (l : launcher) : list file :=
  newest_first (glob (backups l) "config_backup_*.yaml").

(** The command [restore-latest] of [main]: [None] when there is no
    backup and only a message is printed. *)
Definition restore_latest (e : lenv) (l : launcher) : option bool * launcher :=
  match list_backups l with
  | latest :: _ =>
      let '(restored, l') := restore_from_backup (f_name latest) e l in
      (Some restored, l')
  | [] => (None, l)
  end.

End Launcher.

(** ** tabby-sync.py: hashing and archiving the configuration tree

    The configuration directory is a tree; the entries of a directory
    are listed in the order [os.scandir] yields them, which the
    operating system chooses.  A file that exists but cannot be read
    has no data. *)
Module ZipSync.
Import Glob.

#[warnings="-register-all"] Inductive node : Type :=
| NFile (data : option string)
| NDir (entries : list (string * node)).

(** A path below [CONFIG_DIR], as its components. *)
Definition path : Type := list string.

Definition SYNC_ITEMS : list string :=
  ["config.yaml"; "keymaps.yaml"; "window-config.yaml";
   "vault/"; "profiles/"; "plugins/"; "themes/"].

Definition EXCLUDE_PATTERNS : list string :=
  ["*.log"; "*.tmp"; "*.cache"; "node_modules/*"; "*.gitkeep"].

(** [any(fnmatch.fnmatch(name, pattern) for pattern in EXCLUDE_PATTERNS)] *)
Definition excluded (name : string) : bool :=
  existsb (fnmatch name) EXCLUDE_PATTERNS.

(** The components of [CONFIG_DIR / item]: pathlib drops empty and [.]
    components. *)
Fixpoint split_on (sep : ascii) (s : string) (current : string) : list string :=
  match s with
  | EmptyString => [current]
  | String c s' =>
      if Ascii.eqb c sep then current :: split_on sep s' EmptyString
      else split_on sep s' (current +:+ String c EmptyString)
  end.

Definition item_path (item : string) : path :=
  List.filter (fun c => negb (String.eqb c "") && negb (String.eqb c "."))
    (split_on "/" item EmptyString).

(** [Path.as_posix()] of a relative path. *)
Fixpoint as_posix (p : path) : string :=
  match p with
  | [] => "."
  | [name] => name
  | name :: p' => name +:+ "/" +:+ as_posix p'
  end.

(** The last component, [os.path.basename] of a path without a
    trailing separator. *)
Definition basename (p : path) : string := List.last p "".

Fixpoint entry (es : list (string * node)) (name : string) : option node :=
  match es with
  | [] => None
  | (n, child) :: es' => if String.eqb n name then Some child else entry es' name
  end.

(** The node at a path below the root, if it exists. *)
Fixpoint lookup (t : node) (p : path) : option node :=
  match p with
  | [] => Some t
  | name :: p' =>
      match t with
      | NFile _ => None
      | NDir es =>
          match entry es name with
          | Some child => lookup child p'
          | None => None
          end
      end
  end.

(** The files [os.walk(top)] visits with the loop
    [for root, _, files in os.walk(top): for file in files], as
    (path, data): the files of a directory in listing order, then its
    subdirectories in listing order. *)
Fixpoint walk (root : path) (t : node) : list (path * option string) :=
  match t with
  | NFile _ => []
  | NDir es =>
      List.flat_map (fun e : string * node =>
                       match snd e with
                       | NFile data => [(root ++ [fst e], data)]
                       | NDir _ => []
                       end) es
      ++ List.flat_map (fun e : string * node =>
                          match snd e with
                          | NFile _ => []
                          | NDir _ => walk (root ++ [fst e]) (snd e)
                          end) es
  end.

(** *** Hashes *)

(** [file_hash(path)] for the node found at the path. *)
Definition file_hash (found : option node) : string :=
  match found with
  | Some (NFile (Some content)) => md5 content
  | _ => ""
  end.

(** What the loop of [dir_hash] feeds the hasher: for each file that is
    not excluded and can be read, its relative path and its bytes. *)
Fixpoint hashed_stream (files : list (path * option string)) : string :=
  match files with
  | [] => ""
  | (p, data) :: rest =>
      if excluded (basename p) then hashed_stream rest
      else
        match data with
        | Some content => as_posix p +:+ content +:+ hashed_stream rest
        | None => hashed_stream rest
        end
  end.

(** [dir_hash(path)] for the node found at the path. *)
Definition dir_hash (found : option node) : string :=
  match found with
  | None => ""
  | Some t => md5 (hashed_stream (walk [] t))
  end.

(** [get_item_hash(item_path)] *)
Definition get_item_hash (found : option node) : string :=
  match found with
  | Some (NDir _) => dir_hash found
  | _ => file_hash found
  end.

(** The files that reach the hasher: not excluded, and readable. *)
Definition hashed_files (files : list (path * option string))
  : list (path * option string) :=
  List.filter (fun f => negb (excluded (basename (fst f)))
                        && match snd f with Some _ => true | None => false end)
    files.

(** *** Archives *)

(** The members of a ZIP archive: name, as path components, and bytes.
    (A member name is the path joined by [/]; file names contain none.) *)
Definition archive : Type := list (path * string).

(** [zipf.write(file_path, arcname)] for the files of a walk that are
    not excluded; [None] when a file cannot be read (the call raises). *)
Fixpoint add_members (files : list (path * option string)) : option archive :=
  match files with
  | [] => Some []
  | (p, data) :: rest =>
      if excluded (basename p) then add_members rest
      else
        match data, add_members rest with
        | Some content, Some members => Some ((p, content) :: members)
        | _, _ => None
        end
  end.

(** The loop [for item in items] of [create_zip_archive]. *)
Fixpoint zip_items (config : node) (items : list string) : option archive :=
  match items with
  | [] => Some []
  | item :: rest =>
      match lookup config (item_path item) with
      | None => zip_items config rest
      | Some (NDir es) =>
          match add_members (walk (item_path item) (NDir es)),
                zip_items config rest with
          | Some members, Some others => Some (members ++ others)
          | _, _ => None
          end
      | Some (NFile data) =>
          if excluded item then zip_items config rest
          else
            match data, zip_items config rest with
            | Some content, Some others =>
                Some (([basename (item_path item)], content) :: others)
            | _, _ => None
            end
      end
  end.

(** [create_zip_archive(items)]: the members of the archive it writes. *)
Definition create_zip_archive (config : node) (items : list string)
  : outcome archive :=
  match zip_items config (match items with [] => SYNC_ITEMS | _ => items end) with
  | Some members => Returned members
  | None => Raised
  end.

(** The items that [upload_config] packs: those whose hash differs from
    the stored one. *)
Definition changed_items (config : node) (stored : string -> string)
  : list string :=
  List.filter (fun item =>
                 negb (String.eqb (get_item_hash (lookup config (item_path item)))
                                  (stored item)))
    SYNC_ITEMS.

(** *** Extraction *)

Fixpoint set_entry (es : list (string * node)) (name : string) (child : node)
  : list (string * node) :=
  match es with
  | [] => [(name, child)]
  | (n, c) :: es' =>
      if String.eqb n name then (n, child) :: es'
      else (n, c) :: set_entry es' name child
  end.

(** The directories and the file that extracting to a new path creates. *)
Fixpoint fresh (p : path) (content : string) : node :=
  match p with
  | [] => NFile (Some content)
  | name :: p' => NDir [(name, fresh p' content)]
  end.

(** [zipf.extract(member, CONFIG_DIR)]: parent directories are created
    as needed and an existing file is overwritten; [None] when it
    raises because a parent is a regular file or the target is a
    directory. *)
Fixpoint write_at (p : path) (content : string) (t : node) : option node :=
  match p with
  | [] =>
      match t with
      | NFile _ => Some (NFile (Some content))
      | NDir _ => None
      end
  | name :: p' =>
      match t with
      | NFile _ => None
      | NDir es =>
          match entry es name with
          | Some child =>
              match write_at p' content child with
              | Some child' => Some (NDir (set_entry es name child'))
              | None => None
              end
          | None => Some (NDir (es ++ [(name, fresh p' content)]))
          end
      end
  end.

(** One task of the thread pool; its exception, if any, is never
    retrieved. *)
Definition extract_member (t : node) (member : path * string) : node :=
  match write_at (fst member) (snd member) t with
  | Some t' => t'
  | None => t
  end.

(** Every file of the subtree can be read ([copytree] raises otherwise). *)
Fixpoint readable (t : node) : bool :=
  match t with
  | NFile data => match data with Some _ => true | None => false end
  | NDir es => forallb (fun e : string * node => readable (snd e)) es
  end.

(** The backup loop over [SYNC_ITEMS]: [shutil.copytree] refuses an
    existing target; [shutil.copy2] overwrites a file and raises on a
    directory holding a directory of that name. *)
Fixpoint backup_items (config : node) (items : list string)
  (backup : list (string * node)) : option (list (string * node)) :=
  match items with
  | [] => Some backup
  | item :: rest =>
      let name := basename (item_path item) in
      match lookup config (item_path item) with
      | None => backup_items config rest backup
      | Some (NDir es) =>
          match entry backup name with
          | Some _ => None
          | None =>
              if readable (NDir es)
              then backup_items config rest (backup ++ [(name, NDir es)])
              else None
          end
      | Some (NFile data) =>
          match data, entry backup name with
          | None, _ => None
          | Some _, Some (NDir inner) =>
              match entry inner name with
              | Some (NDir _) => None
              | _ =>
                  backup_items config rest
                    (set_entry backup name
                       (NDir (set_entry inner name (NFile data))))
              end
          | Some _, _ =>
              backup_items config rest (set_entry backup name (NFile data))
          end
      end
  end.

(** [extract_zip_archive(zip_content)] for the members of the archive;
    [stamp] is the timestamp of the backup directory and [schedule] the
    order in which the pool's extractions take effect. *)
Definition extract_zip_archive (stamp : string) (schedule : archive)
  (config : node) : outcome node :=
  match config with
  | NFile _ => Raised
  | NDir es =>
      let backup_dir := "backup-" +:+ stamp in
      match entry es backup_dir with
      | Some (NFile _) => Raised
      | existing =>
          let backup := match existing with
                        | Some (NDir b) => b
                        | _ => []
                        end in
          match backup_items config SYNC_ITEMS backup with
          | None => Raised
          | Some backup' =>
              Returned (List.fold_left extract_member schedule
                          (NDir (set_entry es backup_dir (NDir backup'))))
          end
      end
  end.

(** *** Well-formed trees and conflict-free extraction *)

(** The names of every directory are distinct. *)
Fixpoint unique_names (t : node) : bool :=
  match t with
  | NFile _ => true
  | NDir es =>
      bool_decide (NoDup (List.map fst es))
      && forallb (fun e : string * node => unique_names (snd e)) es
  end.

(** [r] is a proper ancestor of [p]. *)
Definition above (r p : path) : Prop := exists k, k <> [] /\ p = r ++ k.

(** A member can be extracted to [p]: no ancestor of [p] is a regular
    file and [p] is not a directory. *)
Definition extractable (t : node) (p : path) : Prop :=
  p <> []
  /\ (forall r data, above r p -> lookup t r <> Some (NFile data))
  /\ (forall es, lookup t p <> Some (NDir es)).

(** An item of [SYNC_ITEMS]' kind: one path component, and neither the
    item nor that component matches an exclusion pattern. *)
Definition top_level_item (item : string) : bool :=
  match item_path item with
  | [name] => negb (excluded item) && negb (excluded name)
  | _ => false
  end.

(** *** The commands [push] and [pull]

    [node] is the configuration directory without gist.json, the
    temporary archives and the files written for debugging, which are
    kept apart; none of them lies below a sync item. *)

(** The dict of gist.json: the value under ['hashes'], when the key is
    there, and the other keys ([token], [gist_id], [last_pull]). *)
Record gist_config : Type := GistConfig {
  gc_hashes : option (list (string * string));
  gc_other : list (string * string) }.

(** The file gist.json. *)
Inductive gist_file : Type :=
| GistMissing
| GistMalformed
| GistStored (c : gist_config).

(** [load_gist_config()]; [json.load] raises on a malformed file. *)
Definition load_gist_config (f : gist_file) : outcome gist_config :=
  match f with
  | GistMissing =>
      Returned (GistConfig (Some []) [("gist_id", ""); ("token", "")])
  | GistMalformed => Raised
  | GistStored c => Returned c
  end.

(** [gist_config.get("hashes", {}).get(item, "")] *)
Definition stored_hash (c : gist_config) (item : string) : string :=
  match gc_hashes c with
  | Some hashes => default "" (ConfigSync.assoc_get hashes item)
  | None => ""
  end.

(** The loop [gist_config["hashes"][item] = get_item_hash(CONFIG_DIR / item)],
    after ['hashes'] has been added when it was missing. *)
Definition record_hashes (config : node) (items : list string)
  (c : gist_config) : gist_config :=
  GistConfig
    (Some (List.fold_left
             (fun hashes item =>
                ConfigSync.assoc_set hashes item
                  (get_item_hash (lookup config (item_path item))))
             items (default [] (gc_hashes c))))
    (gc_other c).

(** The bytes [download_config] obtains: whether they start with
    [PK\x03\x04], and the members [zipfile.ZipFile] reads from them
    ([None]: it raises [BadZipfile]). *)
Record zip_content : Type := ZipContent {
  zip_magic : bool;
  zip_members : option archive }.

Record sync_dir : Type := SyncDir {
  d_config : node;                 (* CONFIG_DIR *)
  d_gist_file : gist_file;         (* gist.json *)
  d_store : option archive;        (* the archive in the record, if it holds one *)
  d_left : list string             (* temporary archives left in CONFIG_DIR *) }.

(** What one command meets outside the program. *)
Record zenv : Type := ZEnv {
  z_stamp : string;                (* datetime.now().strftime("%Y%m%d%H%M%S") *)
  z_patch : option Z;              (* status of the PATCH; None: requests raises *)
  z_save_ok : bool;                (* gist.json can be written *)
  z_fetched : option zip_content;  (* None: no usable answer from the store *)
  z_schedule : archive             (* order in which the pool's extractions take effect *) }.

Inductive pushed : Type :=
| Skipped      (* no change: [upload_config] returns None *)
| Uploaded.    (* it returns the answer of the store *)

Definition leave_archive (e : zenv) (d : sync_dir) : sync_dir :=
  SyncDir (d_config d) (d_gist_file d) (d_store d)
    (d_left d ++ ["tabby-config-" +:+ z_stamp e +:+ ".zip"]).

(** [upload_config(token, gist_id)] *)
Definition upload_config (e : zenv) (d : sync_dir) : outcome pushed * sync_dir :=
  match load_gist_config (d_gist_file d) with
  | Raised => (Raised, d)
  | Returned gist_config =>
      match changed_items (d_config d) (stored_hash gist_config) with
      | [] => (Returned Skipped, d)
      | item :: more =>
          match create_zip_archive (d_config d) (item :: more) with
          | Raised => (Raised, leave_archive e d)
          | Returned members =>
              match z_patch e with
              | None => (Raised, leave_archive e d)
              | Some status =>
                  if status =? 200 then
                    let sent := SyncDir (d_config d) (d_gist_file d)
                                  (Some members) (d_left d) in
                    if z_save_ok e then
                      (Returned Uploaded,
                       SyncDir (d_config d)
                         (GistStored (record_hashes (d_config d) (item :: more)
                                        gist_config))
                         (Some members) (d_left d))
                    else (Raised, leave_archive e sent)
                  else (Raised, leave_archive e d)
              end
          end
      end
  end.

(** [download_config(token, gist_id)], for the directory it leaves when
    it returns. *)
Definition download_config (e : zenv) (d : sync_dir) : outcome sync_dir :=
  match z_fetched e with
  | None => Raised
  | Some content =>
      if zip_magic content then
        match zip_members content with
        | None => Raised
        | Some _ =>
            match extract_zip_archive (z_stamp e) (z_schedule e) (d_config d) with
            | Raised => Raised
            | Returned config' =>
                match load_gist_config (d_gist_file d) with
                | Raised => Raised
                | Returned gist_config =>
                    if z_save_ok e then
                      Returned
                        (SyncDir config'
                           (GistStored (record_hashes config' SYNC_ITEMS
                                          gist_config))
                           (d_store d) (d_left d))
                    else Raised
                end
            end
        end
      else Raised
  end.

End ZipSync.

(** ** Example trees *)
Module TreeDemo.
Import ZipSync.

(** One directory, listed in two orders. *)
Definition listed_ab : node :=
  NDir [("a", NFile (Some "x")); ("b", NFile (Some "y"))].
Definition listed_ba : node :=
  NDir [("b", NFile (Some "y")); ("a", NFile (Some "x"))].

(** A directory with two empty files, before and after renaming [xy] to
    [yx]; the file system lists the renamed file last. *)
Definition before_rename : node :=
  NDir [("xy", NFile (Some "")); ("x", NFile (Some ""))].
Definition after_rename : node :=
  NDir [("x", NFile (Some "")); ("yx", NFile (Some ""))].

(** A configuration directory with files to keep and files to skip. *)
Definition config_dir : node :=
  NDir [("config.yaml", NFile (Some Demo.text_work));
        ("tabby.log", NFile (Some "started"));
        ("plugins",
         NDir [("ssh", NDir [("index.js", NFile (Some "module.exports = {}"));
                             ("debug.log", NFile (Some "trace"))]);
               ("notes.tmp", NFile (Some "scratch"))]);
        ("themes", NDir [("dark.css", NFile (Some "body {}"))])].

End TreeDemo.

(** ** Example data for the launcher *)
Module LauncherDemo.
Import Launcher.

Definition tabby_file : file := File "config.yaml" Demo.text_work 1699999000.

Definition old_backup : file :=
  File "config_backup_20231114_200000.yaml" Demo.text_home 1699990000.

Definition desk : launcher :=
  {| github_token := "ghp_token";
     gist_id := "g1";
     conflict_strategy := conflict_strategy_of "newest";
     max_backups := Some 10;
     tabby_config_path := true;
     tabby_config := Some tabby_file;
     backups := [old_backup];
     last_config_mtime := Some 1699999000;
     config_changed_since_start := true;
     attempts := [] |}.

(** The first two mechanisms fail, the third delivers. *)
Definition third_delivers : lenv :=
  {| REQUESTS_AVAILABLE := true;
     reply_system_http := None;
     reply_requests := Some (Reply 502 None);
     reply_urllib := Some (Reply 200 None);
     stamp := "20231114_221320";
     clock_write := 1700000000;
     clock_check := 1700000001;
     backup_write_ok := true;
     config_write_ok := true;
     cloud_content := Some Demo.text_home;
     error_text := "";
     user_confirms := true;
     user_rolls_back := false |}.

(** No mechanism delivers. *)
Definition offline : lenv :=
  {| REQUESTS_AVAILABLE := true;
     reply_system_http := None;
     reply_requests := None;
     reply_urllib := None;
     stamp := "20231114_221320";
     clock_write := 1700000000;
     clock_check := 1700000001;
     backup_write_ok := true;
     config_write_ok := true;
     cloud_content := None;
     error_text := "";
     user_confirms := true;
     user_rolls_back := false |}.

(** The cloud is reachable for a download, backups/ is not writable. *)
Definition backups_read_only : lenv :=
  {| REQUESTS_AVAILABLE := true;
     reply_system_http := None;
     reply_requests := None;
     reply_urllib := None;
     stamp := "20231114_221320";
     clock_write := 1700000000;
     clock_check := 1700000001;
     backup_write_ok := false;
     config_write_ok := true;
     cloud_content := Some Demo.text_home;
     error_text := "";
     user_confirms := true;
     user_rolls_back := false |}.

End LauncherDemo.

(* ================================================================== *)
(** * Properties *)

Example md5_empty : md5 "" = "d41d8cd98f00b204e9800998ecf8427e".
Proof. vm_compute. reflexivity. Qed.

Example md5_abc : md5 "abc" = "900150983cd24fb0d6963f7d28e17f72".
Proof. vm_compute. reflexivity. Qed.

Example md5_two_blocks :
  md5 "aaaaaaaaaaaaaaaaaaaaaaaaaaaaaaaaaaaaaaaaaaaaaaaaaaaaaaaa"
  = "3b0c8ac703f828b04c6c197006d17218".
Proof. vm_compute. reflexivity. Qed.


(** ** Merging profiles *)
Section MergeProfiles.
Import ConfigSync.

Lemma assoc_get_app {V : Type} (d1 d2 : list (pkey * V)) (k : pkey) :
  assoc_get (d1 ++ d2) k
  = match assoc_get d1 k with
    | Some v => Some v
    | None => assoc_get d2 k
    end.
Proof.
  induction d1 as [| [k0 v0] d1 IH]; simpl; [reflexivity |].
  destruct (decide (k0 = k)); [reflexivity | exact IH].
Qed.

Lemma assoc_get_None {V : Type} (d : list (pkey * V)) (k : pkey) :
  assoc_get d k = None <-> k ∉ List.map fst d.
Proof.
  induction d as [| [k0 v0] d IH]; simpl.
  - split; [intros _; apply not_elem_of_nil | reflexivity].
  - rewrite not_elem_of_cons. destruct (decide (k0 = k)) as [-> | Hne].
    + split; [discriminate | intros [Hk _]; congruence].
    + rewrite IH. split; [intros Hk; split; [congruence | exact Hk] | tauto].
Qed.

(** Setting a key that is not there appends it. *)
Lemma assoc_set_fresh {V : Type} (d : list (pkey * V)) (k : pkey) (v : V) :
  assoc_get d k = None -> assoc_set d k v = d ++ [(k, v)].
Proof.
  induction d as [| [k0 v0] d IH]; simpl; [reflexivity |].
  destruct (decide (k0 = k)); [discriminate |].
  intros Hk. rewrite (IH Hk). reflexivity.
Qed.

Lemma named_key (p : yaml) (n : string) (i : nat) :
  profile_name p = Some n ->
  exists d, p = YDict d
            /\ to_key (default (YStr ("profile_" +:+ pretty i)) (dict_get d "name"))
               = Some (KStr n).
Proof.
  unfold profile_name. destruct p as [| | | | | d]; try discriminate.
  destruct (dict_get d "name") as [[| | | s | |]|] eqn:Hname; try discriminate.
  intros H. inversion H; subst. exists d. rewrite Hname. split; reflexivity.
Qed.

(** The comprehension over a list keyed by distinct names pairs each
    name with its profile, in order. *)
Lemma index_profiles_named (ps : list yaml) (names : list string) :
  named ps names ->
  forall (i : nat) (acc : list (pkey * yaml)),
    NoDup (List.map fst acc ++ List.map KStr names) ->
    index_profiles i ps acc
    = Some (acc ++ List.combine (List.map KStr names) ps).
Proof.
  induction 1 as [| p n ps names Hp _ IH]; intros i acc Hnodup; simpl.
  - rewrite app_nil_r. reflexivity.
  - destruct (named_key p n i Hp) as (d & -> & ->).
    assert (Hfresh : assoc_get acc (KStr n) = None).
    { apply assoc_get_None. apply NoDup_app in Hnodup as (_ & Hdisj & _).
      intros Hin. apply (Hdisj _ Hin). left. }
    rewrite (assoc_set_fresh _ _ _ Hfresh), IH.
    + rewrite <- app_assoc. reflexivity.
    + rewrite List.map_app. simpl. rewrite <- app_assoc. exact Hnodup.
Qed.

(** Lookups in the dict of a list keyed by distinct names. *)
Lemma assoc_get_named (ps : list yaml) (names : list string) :
  named ps names -> NoDup names ->
  forall (k : pkey) (p : yaml),
    assoc_get (List.combine (List.map KStr names) ps) k = Some p
    <-> exists n, k = KStr n /\ In n names /\ In p ps
                  /\ profile_name p = Some n.
Proof.
  induction 1 as [| p0 n0 ps names Hp0 Hnamed IH]; intros Hnodup k p; simpl.
  - split; [discriminate | intros (n & _ & [] & _)].
  - apply NoDup_cons in Hnodup as [Hfresh Hnodup].
    destruct (decide (KStr n0 = k)) as [<- | Hne].
    + split.
      * intros H. inversion H; subst. exists n0. auto.
      * intros (n & Hk & _ & [<- | Hin] & Hname); [reflexivity |].
        inversion Hk; subst n. exfalso. apply Hfresh.
        clear -Hnamed Hin Hname. induction Hnamed as [| q m ps names Hq _ IHn].
        -- destruct Hin.
        -- destruct Hin as [<- | Hin].
           ++ rewrite Hq in Hname. inversion Hname. left.
           ++ right. apply IHn. exact Hin.
    + rewrite (IH Hnodup). split.
      * intros (n & Hk & Hin & Hp & Hname). exists n. auto.
      * intros (n & Hk & [<- | Hin] & Hp & Hname); [congruence |].
        exists n. repeat split; auto.
        destruct Hp as [<- | Hp]; [| exact Hp].
        rewrite Hp0 in Hname. inversion Hname; subst. congruence.
Qed.

(** The name of each entry of a keyed list is among its names. *)
Lemma named_In (ps : list yaml) (names : list string) (p : yaml) :
  named ps names -> In p ps ->
  exists n, In n names /\ profile_name p = Some n.
Proof.
  induction 1 as [| q m ps names Hq _ IH]; [intros [] |].
  intros [<- | Hin]; [exists m; split; [left; reflexivity | exact Hq] |].
  destruct (IH Hin) as (n & Hn & Hname). exists n. split; [right |]; assumption.
Qed.

(** Each name of a keyed list is the name of one of its entries. *)
Lemma named_has (ps : list yaml) (names : list string) (n : string) :
  named ps names -> In n names ->
  exists p, In p ps /\ profile_name p = Some n.
Proof.
  induction 1 as [| q m ps names Hq _ IH]; [intros [] |].
  intros [-> | Hn]; [exists q; split; [left; reflexivity | exact Hq] |].
  destruct (IH Hn) as (p & Hp & Hname). exists p. split; [right |]; assumption.
Qed.

(** The choice of the merge loop for one name: the local profile when
    there is one, else the remote profile. *)
Definition chosen_profile (local_profiles remote_profiles : list (pkey * yaml))
  (name : pkey) : option yaml :=
  match assoc_get local_profiles name with
  | Some p => Some p
  | None => assoc_get remote_profiles name
  end.

Lemma merge_profiles_members (lp rp : list (pkey * yaml)) (order : list pkey) :
  (forall k, In k order -> is_Some (chosen_profile lp rp k)) ->
  exists merged,
    merge_profiles lp rp order = Some merged
    /\ length merged = length order
    /\ forall p, In p merged
                 <-> exists k, In k order /\ chosen_profile lp rp k = Some p.
Proof.
  induction order as [| k order IH]; intros Hall; simpl.
  - exists []. repeat split; [intros [] | intros (k & [] & _)].
  - destruct IH as (rest & -> & Hlen & Hmem).
    { intros k' Hk'. apply Hall. right. exact Hk'. }
    destruct (Hall k (or_introl eq_refl)) as [p Hp].
    assert (Hchoice :
              (if assoc_has lp k && assoc_has rp k then assoc_get lp k
               else if assoc_has lp k then assoc_get lp k
                    else assoc_get rp k) = Some p).
    { unfold chosen_profile, assoc_has in *.
      destruct (assoc_get lp k), (assoc_get rp k); simpl; congruence. }
    rewrite Hchoice. exists (p :: rest). split; [reflexivity |].
    split; [simpl; congruence |].
    intros q. simpl. rewrite Hmem. split.
    + intros [<- | (k' & Hk' & Hq)]; [exists k; auto | exists k'; auto].
    + intros (k' & [<- | Hk'] & Hq); [left; congruence | right; eauto].
Qed.

Lemma is_set_iteration_spec (names order : list pkey) :
  is_set_iteration names order = true ->
  NoDup order /\ forall k, In k order <-> In k names.
Proof.
  unfold is_set_iteration. rewrite !andb_true_iff.
  intros [[Hnodup Hsub] Hsup].
  apply bool_decide_eq_true in Hnodup.
  rewrite forallb_forall in Hsub, Hsup.
  split; [exact Hnodup |]. intros k. split; intros Hk.
  - apply list_elem_of_In. eapply bool_decide_eq_true, Hsub, Hk.
  - apply list_elem_of_In. eapply bool_decide_eq_true, Hsup, Hk.
Qed.

Lemma combine_keys (ps : list yaml) (names : list string) :
  named ps names ->
  List.map fst (List.combine (List.map KStr names) ps) = List.map KStr names.
Proof.
  induction 1 as [| p n ps names _ _ IH]; simpl; [reflexivity |].
  rewrite IH. reflexivity.
Qed.

(** C4.  For two parsed documents whose profiles lists are keyed by
    name (every entry a dict with a string name, names distinct within
    a side), [merge_configs] returns the local document with a profiles
    list that has one entry per name and contains exactly: every local
    profile, unchanged (so the local one for a name on both sides), and
    every remote profile whose name is not on the local side.  The
    order of the entries is the set's iteration order. *)
Theorem merge_configs_profiles_by_name (order : list pkey)
  (dl dr : list (string * yaml)) (lps rps : list yaml)
  (lnames rnames : list string) :
  dict_get dl "profiles" = Some (YList lps) ->
  dict_get dr "profiles" = Some (YList rps) ->
  named lps lnames -> NoDup lnames ->
  named rps rnames -> NoDup rnames ->
  is_set_iteration (List.map KStr lnames ++ List.map KStr rnames) order = true ->
  exists merged,
    merge_configs order (YDict dl) (YDict dr)
    = Returned (YDict (dict_set dl "profiles" (YList merged)))
    /\ length merged = length order
    /\ (forall p, In p lps -> In p merged)
    /\ (forall p n, In p rps -> profile_name p = Some n -> ~ In n lnames ->
                    In p merged)
    /\ (forall p, In p merged ->
                  In p lps
                  \/ (In p rps
                      /\ exists n, profile_name p = Some n /\ ~ In n lnames)).
Proof.
  intros Hdl Hdr Hln Hlnd Hrn Hrnd Horder.
  apply is_set_iteration_spec in Horder as [_ Horder].
  set (lp := List.combine (List.map KStr lnames) lps).
  set (rp := List.combine (List.map KStr rnames) rps).
  assert (Hinj : forall names : list string, NoDup names ->
                   NoDup (List.map fst (@nil (pkey * yaml))
                            ++ List.map KStr names)).
  { intros names Hnd. simpl. apply NoDup_fmap_2; [| exact Hnd].
    intros a b Hab. inversion Hab. reflexivity. }
  assert (Hlp : index_profiles 0 lps [] = Some lp)
    by (rewrite (index_profiles_named _ _ Hln) by auto; reflexivity).
  assert (Hrp : index_profiles 0 rps [] = Some rp)
    by (rewrite (index_profiles_named _ _ Hrn) by auto; reflexivity).
  pose proof (assoc_get_named _ _ Hln Hlnd) as Hlget. fold lp in Hlget.
  pose proof (assoc_get_named _ _ Hrn Hrnd) as Hrget. fold rp in Hrget.
  assert (Hlnone : forall n, ~ In n lnames -> assoc_get lp (KStr n) = None).
  { intros n Hn. destruct (assoc_get lp (KStr n)) as [q|] eqn:Hq; [| reflexivity].
    apply Hlget in Hq as (m & Hm & Hin & _). inversion Hm; subst. contradiction. }
  destruct (merge_profiles_members lp rp order) as (merged & Hmerge & Hlen & Hmem).
  { intros k Hk. apply Horder in Hk. apply in_app_or in Hk as [Hk | Hk];
      apply in_map_iff in Hk as (n & <- & Hn); unfold chosen_profile.
    - destruct (named_has _ _ _ Hln Hn) as (p & Hp & Hname).
      assert (Hget : assoc_get lp (KStr n) = Some p)
        by (apply Hlget; exists n; auto).
      rewrite Hget. eauto.
    - destruct (assoc_get lp (KStr n)); [eauto |].
      destruct (named_has _ _ _ Hrn Hn) as (p & Hp & Hname).
      assert (Hget : assoc_get rp (KStr n) = Some p)
        by (apply Hrget; exists n; auto).
      rewrite Hget. eauto. }
  exists merged. split.
  { unfold merge_configs. 
    assert (Htl : truthy (YDict dl) = true) by (destruct dl; [discriminate | reflexivity]).
    assert (Htr : truthy (YDict dr) = true) by (destruct dr; [discriminate | reflexivity]).
    rewrite Htl, Htr. simpl. unfold dict_has. rewrite Hdl, Hdr. simpl.
    rewrite Hlp, Hrp, Hmerge. reflexivity. }
  split; [exact Hlen |].
  split; [| split].
  - intros p Hp. apply Hmem.
    destruct (named_In _ _ _ Hln Hp) as (n & Hn & Hname).
    exists (KStr n). split.
    + apply Horder, in_or_app. left. apply in_map. exact Hn.
    + unfold chosen_profile.
      assert (Hget : assoc_get lp (KStr n) = Some p)
        by (apply Hlget; exists n; auto).
      rewrite Hget. reflexivity.
  - intros p n Hp Hname Hfresh. apply Hmem.
    assert (Hn : In n rnames).
    { destruct (named_In _ _ _ Hrn Hp) as (m & Hm & Hname'). congruence. }
    exists (KStr n). split.
    + apply Horder, in_or_app. right. apply in_map. exact Hn.
    + unfold chosen_profile. rewrite (Hlnone n Hfresh).
      apply Hrget. exists n. auto.
  - intros p Hp. apply Hmem in Hp as (k & Hk & Hchoice).
    unfold chosen_profile in Hchoice.
    destruct (assoc_get lp k) as [q|] eqn:Hq.
    + inversion Hchoice; subst. apply Hlget in Hq as (n & _ & _ & Hin & _).
      left. exact Hin.
    + apply Hrget in Hchoice as (n & -> & Hn & Hin & Hname).
      right. split; [exact Hin |]. exists n. split; [exact Hname |].
      intros Hl.
      destruct (named_has _ _ _ Hln Hl) as (p' & Hp' & Hname').
      assert (Hget : assoc_get lp (KStr n) = Some p')
        by (apply Hlget; exists n; auto).
      congruence.
Qed.

End MergeProfiles.

(** ** The directory fingerprint *)
Section DirectoryFingerprint.
Import Glob ZipSync.

Lemma chars_append (a b : string) :
  list_ascii_of_string (a +:+ b)
  = list_ascii_of_string a ++ list_ascii_of_string b.
Proof.
  induction a as [| c a IH]; simpl; [reflexivity | rewrite IH; reflexivity].
Qed.

Lemma chars_inj (a b : string) :
  list_ascii_of_string a = list_ascii_of_string b -> a = b.
Proof.
  intros H. rewrite <- (string_of_list_ascii_of_string a),
              <- (string_of_list_ascii_of_string b), H. reflexivity.
Qed.

Lemma append_cancel_l (a b c : string) : a +:+ b = a +:+ c -> b = c.
Proof.
  intros H. apply chars_inj.
  apply (f_equal list_ascii_of_string) in H. rewrite !chars_append in H.
  eapply List.app_inv_head. exact H.
Qed.

Lemma append_cancel_r (a b c : string) : a +:+ c = b +:+ c -> a = b.
Proof.
  intros H. apply chars_inj.
  apply (f_equal list_ascii_of_string) in H. rewrite !chars_append in H.
  eapply List.app_inv_tail. exact H.
Qed.

Lemma append_assoc (a b c : string) : (a +:+ b) +:+ c = a +:+ (b +:+ c).
Proof.
  apply chars_inj. rewrite !chars_append. symmetry. apply List.app_assoc.
Qed.

Lemma hashed_stream_app (a b : list (path * option string)) :
  hashed_stream (a ++ b) = hashed_stream a +:+ hashed_stream b.
Proof.
  induction a as [| [p data] a IH]; [reflexivity |].
  cbn [hashed_stream List.app].
  destruct (excluded (basename p)); [exact IH |].
  destruct data as [content|]; [| exact IH].
  rewrite IH, !append_assoc. reflexivity.
Qed.

(** Excluded and unreadable files feed nothing. *)
Lemma hashed_stream_hashed_files (files : list (path * option string)) :
  hashed_stream (hashed_files files) = hashed_stream files.
Proof.
  unfold hashed_files.
  induction files as [| [p data] files IH]; simpl; [reflexivity |].
  destruct (excluded (basename p)) eqn:Hex; simpl; [exact IH |].
  destruct data as [content|]; simpl; [| exact IH].
  rewrite Hex, IH. reflexivity.
Qed.

(** C9 (amended).  The directory fingerprint is the MD5 digest of the
    bytes fed in traversal order, so it is determined by the sequence,
    in that order, of the (relative path, content) pairs of the files
    that are not excluded and can be read; excluded files have no
    influence.  With the files around it traversed in the same order, a
    content edit, a rename, an addition or a deletion of one such file
    changes the bytes that are hashed. *)
Theorem dir_hash_of_traversal_sequence :
  (forall t1 t2 : node,
      hashed_files (walk [] t1) = hashed_files (walk [] t2) ->
      dir_hash (Some t1) = dir_hash (Some t2))
  /\ (forall (before after : list (path * option string)) (p : path)
             (c c' : string),
         excluded (basename p) = false -> c <> c' ->
         hashed_stream (before ++ (p, Some c) :: after)
         <> hashed_stream (before ++ (p, Some c') :: after))
  /\ (forall (before after : list (path * option string)) (p p' : path)
             (c : string),
         excluded (basename p) = false -> excluded (basename p') = false ->
         as_posix p <> as_posix p' ->
         hashed_stream (before ++ (p, Some c) :: after)
         <> hashed_stream (before ++ (p', Some c) :: after))
  /\ (forall (before after : list (path * option string)) (p : path)
             (c : string),
         excluded (basename p) = false -> as_posix p <> "" ->
         hashed_stream (before ++ (p, Some c) :: after)
         <> hashed_stream (before ++ after)).
Proof.
  split.
  { intros t1 t2 H. unfold dir_hash.
    rewrite <- (hashed_stream_hashed_files (walk [] t1)),
            <- (hashed_stream_hashed_files (walk [] t2)), H. reflexivity. }
  split.
  { intros before after p c c' Hp Hne Heq.
    rewrite !hashed_stream_app in Heq. cbn [hashed_stream] in Heq.
    rewrite Hp in Heq.
    do 2 apply append_cancel_l in Heq. apply append_cancel_r in Heq.
    contradiction. }
  split.
  { intros before after p p' c Hp Hp' Hne Heq.
    rewrite !hashed_stream_app in Heq. cbn [hashed_stream] in Heq.
    rewrite Hp, Hp' in Heq.
    apply append_cancel_l in Heq. apply append_cancel_r in Heq.
    contradiction. }
  intros before after p c Hp Hne Heq.
  rewrite !hashed_stream_app in Heq. cbn [hashed_stream] in Heq.
  rewrite Hp in Heq.
  apply append_cancel_l in Heq.
  rewrite <- append_assoc in Heq.
  change (hashed_stream after) with ("" +:+ hashed_stream after) in Heq at 2.
  apply append_cancel_r in Heq.
  destruct (as_posix p); [contradiction | discriminate Heq].
Qed.

End DirectoryFingerprint.

(** ** Packing and unpacking the configuration tree *)
Section RoundTrip.
Import Glob ZipSync.

(** Induction on trees, through the entries of a directory. *)
Lemma node_induction (P : node -> Prop) :
  (forall data, P (NFile data)) ->
  (forall es, Forall (fun e => P (snd e)) es -> P (NDir es)) ->
  forall t, P t.
Proof.
  intros Hfile Hdir. fix IH 1. intros [data | es]; [apply Hfile |].
  apply Hdir. induction es as [| e es IHes]; constructor; [apply IH | exact IHes].
Qed.

Lemma entry_In (es : list (string * node)) (name : string) (child : node) :
  entry es name = Some child -> In (name, child) es.
Proof.
  induction es as [| [n c] es IH]; simpl; [discriminate |].
  destruct (String.eqb n name) eqn:Hn.
  - apply String.eqb_eq in Hn. intros H. inversion H; subst. left. reflexivity.
  - intros H. right. apply IH. exact H.
Qed.

Lemma In_entry (es : list (string * node)) (name : string) (child : node) :
  NoDup (List.map fst es) -> In (name, child) es ->
  entry es name = Some child.
Proof.
  induction es as [| [n c] es IH]; simpl; [intros _ [] |].
  intros Hnodup Hin. apply NoDup_cons in Hnodup as [Hfresh Hnodup].
  destruct Hin as [Heq | Hin].
  - inversion Heq; subst. rewrite String.eqb_refl. reflexivity.
  - destruct (String.eqb n name) eqn:Hn.
    + apply String.eqb_eq in Hn. subst n. exfalso. apply Hfresh.
      apply list_elem_of_In. apply (in_map fst) in Hin. exact Hin.
    + apply IH; assumption.
Qed.

Lemma lookup_app (t : node) (a b : path) :
  lookup t (a ++ b)
  = match lookup t a with
    | Some n => lookup n b
    | None => None
    end.
Proof.
  revert t. induction a as [| name a IH]; intros t; simpl; [reflexivity |].
  destruct t as [data | es]; [reflexivity |].
  destruct (entry es name); [apply IH | reflexivity].
Qed.

Lemma lookup_file_below (data : option string) (k : path) :
  k <> [] -> lookup (NFile data) k = None.
Proof. destruct k; [congruence | reflexivity]. Qed.

(** Every file of a walk is a file of the tree, at the walked path. *)
Lemma walk_lookup (t : node) :
  unique_names t = true ->
  forall (root p : path) (data : option string),
    In (p, data) (walk root t) ->
    exists rel, rel <> [] /\ p = root ++ rel
                /\ lookup t rel = Some (NFile data).
Proof.
  induction t as [data0 | es IH] using node_induction; intros Hwf root p data Hin.
  { destruct Hin. }
  simpl in Hwf. apply andb_true_iff in Hwf as [Hnodup Hsub].
  apply bool_decide_eq_true in Hnodup. rewrite forallb_forall in Hsub.
  simpl in Hin. apply in_app_or in Hin as [Hin | Hin];
    apply in_flat_map in Hin as ([name child] & He & Hin); simpl in Hin.
  - destruct child as [d | sub]; [| destruct Hin].
    destruct Hin as [Heq | []]. inversion Heq; subst.
    exists [name]. split; [discriminate |]. split; [reflexivity |].
    simpl. rewrite (In_entry _ _ _ Hnodup He). reflexivity.
  - destruct child as [d | sub]; [destruct Hin |].
    rewrite List.Forall_forall in IH.
    destruct (IH _ He (Hsub _ He) _ _ _ Hin) as (rel & Hrel & -> & Hlook).
    exists (name :: rel). split; [discriminate |].
    split; [rewrite <- app_assoc; reflexivity |].
    simpl. rewrite (In_entry _ _ _ Hnodup He). exact Hlook.
Qed.

(** Every file of the tree is visited by the walk. *)
Lemma lookup_walk (rel : path) :
  forall (t : node) (root : path) (data : option string),
    rel <> [] ->
    lookup t rel = Some (NFile data) ->
    In (root ++ rel, data) (walk root t).
Proof.
  induction rel as [| name rel IH]; intros t root data Hne Hlook; [congruence |].
  simpl in Hlook. destruct t as [d | es]; [discriminate |].
  destruct (entry es name) as [child|] eqn:Hentry; [| discriminate].
  apply entry_In in Hentry. simpl. apply in_or_app.
  destruct rel as [| next rel'].
  - simpl in Hlook. inversion Hlook; subst. left.
    apply in_flat_map. exists (name, NFile data). split; [exact Hentry |].
    left. reflexivity.
  - destruct child as [d | sub]; [discriminate |]. right.
    apply in_flat_map. exists (name, NDir sub). split; [exact Hentry |].
    replace (root ++ name :: next :: rel')
      with ((root ++ [name]) ++ next :: rel')
      by (rewrite <- app_assoc; reflexivity).
    exact (IH (NDir sub) (root ++ [name]) data ltac:(discriminate) Hlook).
Qed.

Lemma unique_names_lookup (p : path) :
  forall t n, unique_names t = true -> lookup t p = Some n ->
              unique_names n = true.
Proof.
  induction p as [| name p IH]; intros t n Hwf Hlook; simpl in Hlook.
  - inversion Hlook; subst. exact Hwf.
  - destruct t as [d | es]; [discriminate |].
    destruct (entry es name) as [child|] eqn:Hentry; [| discriminate].
    simpl in Hwf. apply andb_true_iff in Hwf as [_ Hsub].
    rewrite forallb_forall in Hsub.
    apply (IH child n); [| exact Hlook].
    apply (Hsub (name, child)). apply entry_In. exact Hentry.
Qed.

(** The members that a walk contributes. *)
Lemma add_members_spec (files : list (path * option string)) :
  forall members,
    add_members files = Some members ->
    forall p c, In (p, c) members
                <-> In (p, Some c) files /\ excluded (basename p) = false.
Proof.
  induction files as [| [q data] files IH]; intros members H p c; simpl in H.
  - inversion H; subst. simpl. tauto.
  - destruct (excluded (basename q)) eqn:Hex.
    + rewrite (IH _ H). simpl. split; [intros [Hin Hp]; auto |].
      intros [[Heq | Hin] Hp]; [| auto]. inversion Heq; subst. congruence.
    + destruct data as [content|]; [| discriminate].
      destruct (add_members files) as [rest|]; [| discriminate].
      inversion H; subst. simpl. rewrite (IH _ eq_refl). split.
      * intros [Heq | [Hin Hp]]; [inversion Heq; subst; auto | auto].
      * intros [[Heq | Hin] Hp]; [left; inversion Heq; reflexivity | auto].
Qed.

(** The members of an archive of top-level items: the files below the
    items that exist, can be read and are not excluded. *)
Lemma zip_items_spec (config : node) (items : list string) :
  unique_names config = true ->
  forallb top_level_item items = true ->
  forall members,
    zip_items config items = Some members ->
    forall p c,
      In (p, c) members
      <-> (exists item rel,
              In item items /\ p = item_path item ++ rel
              /\ lookup config p = Some (NFile (Some c))
              /\ excluded (basename p) = false).
Proof.
  intros Hwf. induction items as [| item rest IH]; intros Htop members H p c.
  { inversion H; subst. simpl. split; [intros [] | intros (i & r & [] & _)]. }
  simpl in Htop. apply andb_true_iff in Htop as [Hitem Hrest].
  unfold top_level_item in Hitem.
  destruct (item_path item) as [| name [| more tail]] eqn:Hpath; try discriminate.
  apply andb_true_iff in Hitem as [Hex_item Hex_name].
  apply negb_true_iff in Hex_item, Hex_name.
  cbn [zip_items] in H. rewrite Hpath in H.
  assert (Hother : forall others,
             (forall q d, In (q, d) others
                          <-> (exists i r, In i rest /\ q = item_path i ++ r
                                           /\ lookup config q = Some (NFile (Some d))
                                           /\ excluded (basename q) = false)) ->
             forall here : Prop,
               (here <-> exists r, p = [name] ++ r
                                   /\ lookup config p = Some (NFile (Some c))
                                   /\ excluded (basename p) = false) ->
               (here \/ In (p, c) others)
               <-> (exists i r, In i (item :: rest) /\ p = item_path i ++ r
                                /\ lookup config p = Some (NFile (Some c))
                                /\ excluded (basename p) = false)).
  { intros others Hothers here Hhere. rewrite Hothers, Hhere. split.
    - intros [(r & Hp & Hl & He) | (i & r & Hi & Hp & Hl & He)].
      + exists item, r. rewrite Hpath. repeat split; auto. left. reflexivity.
      + exists i, r. repeat split; auto. right. exact Hi.
    - intros (i & r & [<- | Hi] & Hp & Hl & He).
      + left. exists r. rewrite Hpath in Hp. auto.
      + right. exists i, r. auto. }
  destruct (lookup config [name]) as [[data | es]|] eqn:Hlook.
  - rewrite Hex_item in H. destruct data as [content|]; [| discriminate].
    destruct (zip_items config rest) as [others|] eqn:Hzip; [| discriminate].
    inversion H; subst. cbn [In basename List.last].
    rewrite <- (Hother others (IH Hrest _ eq_refl)
                  (([name], content) = (p, c))); [tauto |].
    split.
    + intros Heq. inversion Heq; subst. exists []. simpl. auto.
    + intros (r & -> & Hl & _). rewrite lookup_app, Hlook in Hl.
      destruct r as [| x r]; [| discriminate]. simpl in Hl.
      inversion Hl; subst. reflexivity.
  - destruct (add_members (walk [name] (NDir es))) as [here|] eqn:Hadd;
      [| simpl in H; discriminate].
    destruct (zip_items config rest) as [others|] eqn:Hzip;
      [| simpl in H; discriminate].
    inversion H; subst. rewrite in_app_iff.
    apply (Hother others (IH Hrest _ eq_refl)).
    rewrite (add_members_spec _ _ Hadd). split.
    + intros [Hin Hex]. 
      destruct (walk_lookup (NDir es)
                  (unique_names_lookup _ _ _ Hwf Hlook) _ _ _ Hin)
        as (rel & _ & -> & Hl).
      exists rel. repeat split; auto. rewrite lookup_app, Hlook. exact Hl.
    + intros (r & -> & Hl & Hex). split; [| exact Hex].
      rewrite lookup_app, Hlook in Hl.
      apply lookup_walk; [| exact Hl].
      intros ->. simpl in Hl. discriminate.
  - rewrite <- (Hother members (IH Hrest _ H) False); [tauto |].
    split; [intros [] |].
    intros (r & -> & Hl & _). rewrite lookup_app, Hlook in Hl. discriminate.
Qed.

(** *** Extraction *)

Lemma entry_app (es es' : list (string * node)) (name : string) :
  entry (es ++ es') name
  = match entry es name with
    | Some child => Some child
    | None => entry es' name
    end.
Proof.
  induction es as [| [n c] es IH]; simpl; [reflexivity |].
  destruct (String.eqb n name); [reflexivity | exact IH].
Qed.

Lemma entry_set_entry (es : list (string * node)) (name n : string)
  (child : node) :
  entry (set_entry es name child) n
  = if String.eqb name n then Some child else entry es n.
Proof.
  induction es as [| [m c] es IH]; simpl.
  - destruct (String.eqb name n); reflexivity.
  - destruct (String.eqb m name) eqn:Hm; simpl.
    + apply String.eqb_eq in Hm. subst m.
      destruct (String.eqb name n); reflexivity.
    + destruct (String.eqb m n) eqn:Hmn; [| exact IH].
      apply String.eqb_eq in Hmn. subst m.
      rewrite String.eqb_sym, Hm. reflexivity.
Qed.

(** [p] is [q] or an ancestor of [q]. *)
Definition reaches (p q : path) : Prop := exists k, q = p ++ k.

Lemma reaches_cons (n : string) (p q : path) :
  reaches (n :: p) (n :: q) <-> reaches p q.
Proof.
  split; intros [k Hk]; exists k; simpl in *; congruence.
Qed.

Lemma lookup_fresh (p : path) (content : string) :
  forall q n, lookup (fresh p content) q = Some n -> reaches q p.
Proof.
  induction p as [| name p IH]; intros q n Hlook.
  - destruct q; [exists []; reflexivity | discriminate].
  - destruct q as [| m q]; [exists (name :: p); reflexivity |].
    simpl in Hlook. destruct (String.eqb name m) eqn:Hm; [| discriminate].
    apply String.eqb_eq in Hm. subst m. apply reaches_cons. eapply IH, Hlook.
Qed.

Lemma lookup_fresh_file (p : path) (content : string) :
  lookup (fresh p content) p = Some (NFile (Some content))
  /\ forall q d, lookup (fresh p content) q = Some (NFile d) ->
                 q = p /\ d = Some content.
Proof.
  induction p as [| name p [IHa IHb]]; split.
  - reflexivity.
  - intros [| m q] d H; [inversion H; auto | discriminate].
  - simpl. rewrite String.eqb_refl. exact IHa.
  - intros [| m q] d H; [discriminate |]. simpl in H.
    destruct (String.eqb name m) eqn:Hm; [| discriminate].
    apply String.eqb_eq in Hm. subst m.
    destruct (IHb _ _ H) as [-> ->]. auto.
Qed.

(** After a successful extraction the member is at its path. *)
Lemma write_at_lookup (p : path) (content : string) :
  forall t t', write_at p content t = Some t' ->
               lookup t' p = Some (NFile (Some content)).
Proof.
  induction p as [| name p IH]; intros t t' H; simpl in H.
  - destruct t; inversion H; reflexivity.
  - destruct t as [d | es]; [discriminate |].
    destruct (entry es name) as [child|] eqn:Hentry.
    + destruct (write_at p content child) as [child'|] eqn:Hw; [| discriminate].
      inversion H; subst. simpl. rewrite entry_set_entry, String.eqb_refl.
      eapply IH, Hw.
    + inversion H; subst. simpl. rewrite entry_app, Hentry. simpl.
      rewrite String.eqb_refl. apply lookup_fresh_file.
Qed.

(** The files after an extraction are the member and the files before. *)
Lemma write_at_files (p : path) (content : string) :
  forall t t', write_at p content t = Some t' ->
  forall q d, lookup t' q = Some (NFile d) ->
              (q = p /\ d = Some content) \/ lookup t q = Some (NFile d).
Proof.
  induction p as [| name p IH]; intros t t' H q d Hlook; simpl in H.
  - destruct t as [d0 | es]; inversion H; subst.
    destruct q; [inversion Hlook; auto | discriminate].
  - destruct t as [d0 | es]; [discriminate |].
    destruct q as [| n q]; [| simpl in Hlook |- *].
    { destruct (entry es name); [destruct (write_at p content n) |];
        inversion H; subst; discriminate. }
    destruct (entry es name) as [child|] eqn:Hentry.
    + destruct (write_at p content child) as [child'|] eqn:Hw; [| discriminate].
      inversion H; subst. rewrite entry_set_entry in Hlook.
      destruct (String.eqb name n) eqn:Hn; [| auto].
      apply String.eqb_eq in Hn. subst n. rewrite Hentry.
      destruct (IH _ _ Hw _ _ Hlook) as [[-> ->] | Hold]; auto.
    + inversion H; subst. rewrite entry_app in Hlook.
      destruct (entry es n) as [other|] eqn:Hother; [auto |].
      simpl in Hlook. destruct (String.eqb name n) eqn:Hn; [| discriminate].
      apply String.eqb_eq in Hn. subst n.
      destruct (proj2 (lookup_fresh_file p content) _ _ Hlook) as [-> ->]. auto.
Qed.

(** Paths that neither reach the member's path nor are reached by it
    are left alone. *)
Lemma write_at_elsewhere (p : path) (content : string) :
  forall t t', write_at p content t = Some t' ->
  forall q, ~ reaches p q -> ~ reaches q p -> lookup t' q = lookup t q.
Proof.
  induction p as [| name p IH]; intros t t' H q Hpq Hqp; simpl in H.
  - exfalso. apply Hpq. exists q. reflexivity.
  - destruct t as [d0 | es]; [discriminate |].
    destruct q as [| n q]; [exfalso; apply Hqp; exists (name :: p); reflexivity |].
    simpl. destruct (entry es name) as [child|] eqn:Hentry.
    + destruct (write_at p content child) as [child'|] eqn:Hw; [| discriminate].
      inversion H; subst. rewrite entry_set_entry.
      destruct (String.eqb name n) eqn:Hn; [| reflexivity].
      apply String.eqb_eq in Hn. subst n. rewrite Hentry.
      apply (IH _ _ Hw); rewrite <- (reaches_cons name); assumption.
    + inversion H; subst. rewrite entry_app.
      destruct (entry es n) as [other|] eqn:Hother; [reflexivity |].
      simpl. destruct (String.eqb name n) eqn:Hn; [| reflexivity].
      apply String.eqb_eq in Hn. subst n.
      destruct (lookup (fresh p content) q) as [found|] eqn:Hfound;
        [| reflexivity].
      exfalso. apply Hqp. apply reaches_cons. eapply lookup_fresh, Hfound.
Qed.

(** An extractable path can be written. *)
Lemma write_at_succeeds (p : path) (content : string) :
  forall t,
    (forall r data, above r p -> lookup t r <> Some (NFile data)) ->
    (forall es, lookup t p <> Some (NDir es)) ->
    exists t', write_at p content t = Some t'.
Proof.
  induction p as [| name p IH]; intros t Habove Hdir; simpl.
  - destruct t as [d | es]; [eauto |]. exfalso. apply (Hdir es). reflexivity.
  - destruct t as [d | es].
    { exfalso. apply (Habove [] d); [| reflexivity].
      exists (name :: p). split; [discriminate | reflexivity]. }
    destruct (entry es name) as [child|] eqn:Hentry; [| eauto].
    destruct (IH child) as [child' ->]; [| | eauto].
    + intros r data [k [Hk Hp]] Hlook. apply (Habove (name :: r) data).
      * exists k. split; [exact Hk | simpl; congruence].
      * simpl. rewrite Hentry. exact Hlook.
    + intros sub Hlook. apply (Hdir sub). simpl. rewrite Hentry. exact Hlook.
Qed.

(** Extracting members that are files of one tree, in any order. *)
Section Extracting.

Variable config : node.
Variable members : archive.
Hypothesis members_are_files :
  forall p c, In (p, c) members ->
              p <> [] /\ lookup config p = Some (NFile (Some c)).

Lemma members_functional (p : path) (c d : string) :
  In (p, c) members -> In (p, d) members -> c = d.
Proof.
  intros Hc Hd. apply members_are_files in Hc as [_ Hc].
  apply members_are_files in Hd as [_ Hd]. congruence.
Qed.

Lemma members_incomparable (p q : path) (c d : string) :
  In (p, c) members -> In (q, d) members -> reaches p q -> p = q.
Proof.
  intros Hp Hq [k ->]. apply members_are_files in Hp as [_ Hp].
  apply members_are_files in Hq as [_ Hq].
  rewrite lookup_app, Hp in Hq.
  destruct k; [rewrite app_nil_r; reflexivity | discriminate].
Qed.

(** Every member can still be extracted. *)
Definition ready (t : node) : Prop :=
  forall p c, In (p, c) members -> extractable t p.

Lemma not_above_self (p : path) : ~ above p p.
Proof.
  intros [k [Hk Hp]]. apply (f_equal (@length string)) in Hp.
  rewrite length_app in Hp. destruct k; [congruence | simpl in Hp; lia].
Qed.

Lemma above_reaches (r p : path) : above r p -> reaches r p.
Proof. intros [k [_ Hk]]. exists k. exact Hk. Qed.

Lemma extract_member_step (t : node) (p : path) (c : string) :
  In (p, c) members -> ready t ->
  ready (extract_member t (p, c))
  /\ lookup (extract_member t (p, c)) p = Some (NFile (Some c))
  /\ (forall q d, In (q, d) members ->
                  lookup t q = Some (NFile (Some d)) ->
                  lookup (extract_member t (p, c)) q = Some (NFile (Some d)))
  /\ (forall q d, lookup (extract_member t (p, c)) q = Some (NFile d) ->
                  lookup t q = Some (NFile d)
                  \/ exists c', In (q, c') members /\ d = Some c').
Proof.
  intros Hin Hready. destruct (Hready p c Hin) as (Hne & Habove & Hdir).
  destruct (write_at_succeeds p c t Habove Hdir) as [t1 Hw].
  unfold extract_member. simpl. rewrite Hw.
  pose proof (write_at_lookup _ _ _ _ Hw) as Hsame.
  pose proof (write_at_files _ _ _ _ Hw) as Hfiles.
  pose proof (write_at_elsewhere _ _ _ _ Hw) as Helse.
  assert (Hapart : forall q d, In (q, d) members -> q <> p ->
                               ~ reaches p q /\ ~ reaches q p).
  { intros q d Hq Hqp. split; intros Hr.
    - apply Hqp. symmetry. eapply members_incomparable; eauto.
    - apply Hqp. eapply members_incomparable; eauto. }
  split; [| split; [exact Hsame | split]].
  - intros q d Hq. destruct (Hready q d Hq) as (Hqne & Hqabove & Hqdir).
    split; [exact Hqne |]. split.
    + intros r data Hr Hlook.
      destruct (Hfiles _ _ Hlook) as [[-> _] | Hold].
      * destruct (decide (q = p)) as [-> | Hqp];
          [exact (not_above_self _ Hr) |].
        apply (proj1 (Hapart q d Hq Hqp)). apply above_reaches. exact Hr.
      * exact (Hqabove _ _ Hr Hold).
    + intros es Hlook. destruct (decide (q = p)) as [-> | Hqp]; [congruence |].
      destruct (Hapart q d Hq Hqp) as [Hpq Hqp'].
      rewrite (Helse q Hpq Hqp') in Hlook. exact (Hqdir _ Hlook).
  - intros q d Hq Hlook. destruct (decide (q = p)) as [-> | Hqp].
    + rewrite (members_functional p d c Hq Hin). exact Hsame.
    + destruct (Hapart q d Hq Hqp) as [Hpq Hqp'].
      rewrite (Helse q Hpq Hqp'). exact Hlook.
  - intros q d Hlook. destruct (Hfiles _ _ Hlook) as [[-> ->] | Hold]; eauto.
Qed.


End Extracting.

(** The backup directory is not one of the items. *)
Lemma sync_item_not_backup_dir (stamp item name : string) :
  In item SYNC_ITEMS -> item_path item = [name] -> name <> "backup-" +:+ stamp.
Proof.
  intros Hin Hpath Heq. subst name.
  change ("backup-" +:+ stamp) with (String "b" ("ackup-" +:+ stamp)) in Hpath.
  repeat (destruct Hin as [<- | Hin]; [vm_compute in Hpath; congruence |]).
  destruct Hin.
Qed.

Lemma sync_items_top_level (items : list string) :
  incl items SYNC_ITEMS -> forallb top_level_item items = true.
Proof.
  intros Hincl. apply forallb_forall. intros item Hin.
  assert (Hall : forallb top_level_item SYNC_ITEMS = true) by (vm_compute; reflexivity).
  rewrite forallb_forall in Hall. apply Hall, Hincl, Hin.
Qed.

Lemma lookup_beside_entry (es : list (string * node)) (name : string)
  (child : node) (n : string) (r : path) :
  n <> name ->
  lookup (NDir (set_entry es name child)) (n :: r) = lookup (NDir es) (n :: r).
Proof.
  intros Hne. simpl. rewrite entry_set_entry.
  destruct (String.eqb_spec name n) as [-> | _]; [congruence | reflexivity].
Qed.

Lemma extractable_beside_entry (es : list (string * node)) (name : string)
  (child : list (string * node)) (n : string) (r : path) :
  n <> name ->
  extractable (NDir es) (n :: r) ->
  extractable (NDir (set_entry es name (NDir child))) (n :: r).
Proof.
  intros Hne (Hnil & Habove & Hdir). split; [exact Hnil |]. split.
  - intros [| m r'] data [k [Hk Heq]]; [simpl; congruence |].
    simpl in Heq. inversion Heq; subst m.
    rewrite lookup_beside_entry by exact Hne.
    apply Habove. exists k. split; [exact Hk | simpl; congruence].
  - intros es'. rewrite lookup_beside_entry by exact Hne. apply Hdir.
Qed.


(** The items [create_zip_archive] packs: [items or SYNC_ITEMS]. *)
Definition packed_items (items : list string) : list string :=
  match items with [] => SYNC_ITEMS | _ => items end.


End RoundTrip.

(** ** The launcher's upload chain *)
Section UploadChain.
Import Glob Launcher.








(** Every dated fallback name matches the pattern [sync_to_cloud] lists. *)
Lemma star_matches_suffix (pat rest : list ascii) :
  glob_match (ascii_of_nat 42 :: pat) (rest ++ pat) = true ->
  forall c, glob_match (ascii_of_nat 42 :: pat) (c :: rest ++ pat) = true.
Proof.
  intros H c. simpl in *. rewrite H. apply orb_true_r.
Qed.

Lemma glob_match_refl_plain (pat : list ascii) :
  Forall (fun c => c <> ascii_of_nat 42) pat ->
  glob_match pat pat = true.
Proof.
  induction 1 as [| c pat Hc _ IH]; [reflexivity |].
  simpl. apply Ascii.eqb_neq in Hc. change "*"%char with (ascii_of_nat 42).
  rewrite Hc, Ascii.eqb_refl, orb_true_r, IH. reflexivity.
Qed.


(** The first file of [newest_first] is at least as recent as every file. *)
Lemma newest_first_max (fs : list file) :
  fs <> [] ->
  exists h t, newest_first fs = h :: t
              /\ forall f, In f fs -> f_mtime f <= f_mtime h.
Proof.
  unfold newest_first, sorted.
  induction fs as [| a fs IH]; [congruence |]. intros _.
  destruct fs as [| b fs'].
  { exists a, []. split; [reflexivity |].
    intros f [-> | []]. lia. }
  destruct IH as (h & t & Hsorted & Hmax); [discriminate |].
  simpl in *. rewrite Hsorted. simpl.
  destruct (f_mtime h <=? f_mtime a) eqn:Hle.
  - apply Z.leb_le in Hle. exists a, (h :: t). split; [reflexivity |].
    intros f [-> | Hin]; [lia |]. specialize (Hmax f Hin). lia.
  - apply Z.leb_gt in Hle. eexists h, _. split; [reflexivity |].
    intros f [-> | Hin]; [lia |]. exact (Hmax f Hin).
Qed.


End UploadChain.

(** ** The launcher's backups *)
Section LauncherBackups.
Import Glob Launcher.

Variable yaml_safe_load : string -> option yaml.

Local Abbreviation sync_from_cloud := (Launcher.sync_from_cloud yaml_safe_load).

Lemma insert_sorted_length {A : Type} (leb : A -> A -> bool) (x : A)
  (xs : list A) :
  length (insert_sorted leb x xs) = S (length xs).
Proof.
  induction xs as [| y ys IH]; simpl; [reflexivity |].
  destruct (leb x y); simpl; [reflexivity | rewrite IH; reflexivity].
Qed.

Lemma sorted_length {A : Type} (leb : A -> A -> bool) (xs : list A) :
  length (sorted leb xs) = length xs.
Proof.
  unfold sorted. induction xs as [| x xs IH]; simpl; [reflexivity |].
  rewrite insert_sorted_length, IH. reflexivity.
Qed.

Lemma glob_write_file_length (fs : list file) (name content pattern : string)
  (mtime : Z) :
  (length (glob (write_file fs name content mtime) pattern)
   <= S (length (glob fs pattern)))%nat.
Proof.
  unfold glob. induction fs as [| f fs IH]; simpl.
  - destruct (fnmatch name pattern); simpl; lia.
  - destruct (String.eqb (f_name f) name) eqn:Hname; simpl.
    + destruct (fnmatch name pattern), (fnmatch (f_name f) pattern); simpl; lia.
    + destruct (fnmatch (f_name f) pattern); simpl; lia.
Qed.

Lemma remove_files_nil (fs : list file) : remove_files fs [] = fs.
Proof.
  unfold remove_files. induction fs as [| f fs IH]; simpl; [reflexivity |].
  f_equal. exact IH.
Qed.

Lemma find_file_write_file (fs : list file) (name content : string) (mtime : Z) :
  find_file (write_file fs name content mtime) name
  = Some (File name content mtime).
Proof.
  unfold find_file. induction fs as [| f fs IH]; simpl.
  - rewrite String.eqb_refl. reflexivity.
  - destruct (String.eqb (f_name f) name) eqn:Hname; simpl.
    + rewrite String.eqb_refl. reflexivity.
    + rewrite Hname. exact IH.
Qed.

(** Within the retention limit [create_backup] prunes nothing: the copy
    it has made is in the directory. *)
Lemma create_backup_within_retention (e : lenv) (l : launcher) (src : file)
  (n : Z) :
  tabby_config l = Some src ->
  backup_write_ok e = true ->
  max_backups l = Some n ->
  Z.of_nat (length (glob (backups l) "config_backup_*.yaml")) < n ->
  exists l1,
    create_backup e l = (Some ("config_backup_" +:+ stamp e +:+ ".yaml"), l1)
    /\ tabby_config l1 = tabby_config l
    /\ tabby_config_path l1 = tabby_config_path l
    /\ find_file (backups l1) ("config_backup_" +:+ stamp e +:+ ".yaml")
       = Some (File ("config_backup_" +:+ stamp e +:+ ".yaml")
                    (f_content src) (f_mtime src)).
Proof.
  intros Hsrc Hok Hmax Hroom. unfold create_backup, cleanup_old_backups.
  rewrite Hsrc, Hok. simpl. rewrite Hmax.
  eexists. split; [reflexivity |]. simpl.
  split; [assumption |]. split; [reflexivity |].
  set (name := "config_backup_" +:+ stamp e +:+ ".yaml") in *.
  set (fs := write_file (backups l) name (f_content src) (f_mtime src)).
  assert (Hnone : slice_from n (newest_first (glob fs "config_backup_*.yaml")) = []).
  { unfold slice_from.
    pose proof (glob_write_file_length (backups l) name (f_content src)
                  "config_backup_*.yaml" (f_mtime src)) as Hlen.
    fold fs in Hlen.
    destruct (n <? 0) eqn:Hneg; [apply Z.ltb_lt in Hneg; lia |].
    apply skipn_all2. unfold newest_first. rewrite sorted_length. lia. }
  rewrite Hnone, remove_files_nil. apply find_file_write_file.
Qed.





End LauncherBackups.

(** ** The reconciliation cycle *)
Section SyncProperties.
Import ConfigSync Observe.

Variable yaml_safe_load : string -> option yaml.
Variable yaml_dump : yaml -> option string.

Local Abbreviation sync := (ConfigSync.sync yaml_safe_load yaml_dump).
Local Abbreviation merge_both := (ConfigSync.merge_both yaml_safe_load yaml_dump).


















(** With the record in the store and both requests going through, a
    cycle reaches the classification in the state it started in. *)
Lemma sync_both_changed (e : env) (w : world) (remote : string) :
  e_probe_ok e = true -> e_fetch_ok e = true ->
  remote_content w = Some remote ->
  local_fingerprint w <> last_local_hash (w_metadata w) ->
  Some (md5 remote) <> last_remote_hash (w_metadata w) ->
  sync false false e w = merge_both remote e w.
Proof.
  intros Hp Hf Hrem Hl Hr. unfold remote_content in Hrem.
  unfold local_fingerprint in Hl.
  unfold ConfigSync.sync, create_gist_if_not_exists, get_remote_config.
  rewrite Hp.
  destruct (w_gists w !! w_gist_id w) as [g|] eqn:Hg; [| discriminate].
  rewrite Hf, Hg, Hrem.
  rewrite !bool_decide_eq_false_2 by congruence.
  reflexivity.
Qed.


(** C5 (amended).  In the both-changed path, when the local or the
    remote document fails to parse, the merge is abandoned and [sync]
    returns failure without consulting any conflict strategy: nothing
    is written, backed up, uploaded or recorded, the whole state is as
    it was before the cycle. *)
Theorem unparsable_document_aborts_cycle (e : env) (w : world)
  (local remote : string) :
  e_probe_ok e = true -> e_fetch_ok e = true ->
  remote_content w = Some remote ->
  w_config_file w = Some local ->
  local_fingerprint w <> last_local_hash (w_metadata w) ->
  Some (md5 remote) <> last_remote_hash (w_metadata w) ->
  yaml_safe_load local = None \/ yaml_safe_load remote = None ->
  sync false false e w = (Returned false, w).
Proof.
  intros Hp Hf Hrem Hfile Hl Hr Hparse.
  rewrite (sync_both_changed e w remote) by assumption.
  unfold ConfigSync.merge_both. rewrite Hfile.
  destruct (yaml_safe_load local) as [ldoc|]; [| reflexivity].
  destruct Hparse as [Hparse | Hparse]; [discriminate |].
  rewrite Hparse. reflexivity.
Qed.











End SyncProperties.

(** ** The reconciliation cycle on the example machines *)
Section SyncExamples.
Import ConfigSync Observe Demo.

Local Abbreviation demo_sync := (ConfigSync.sync safe_load dump).

(** Closes a closed goal, or a closed inequality, by evaluation. *)
Ltac by_evaluation :=
  first [ vm_compute; reflexivity
        | let H := fresh in intros H; vm_compute in H; discriminate H ].




(** C5 refuted: with an unparsable remote document the cycle fails and
    no content survives on both sides; no strategy has been applied. *)
Lemma unparsable_remote_no_strategy_applied :
  demo_sync false false env_ok remote_broken = (Returned false, remote_broken)
  /\ ~ survivor_chosen remote_broken remote_broken.
Proof.
  split; [by_evaluation |].
  intros (survivor & _ & Hlocal & Hremote).
  vm_compute in Hlocal, Hremote. congruence.
Qed.

(** C5 (amended) at work on [remote_broken]. *)
Lemma unparsable_document_aborts_cycle_witness :
  demo_sync false false env_ok remote_broken = (Returned false, remote_broken).
Proof.
  apply (unparsable_document_aborts_cycle safe_load dump env_ok remote_broken
           text_work text_broken); try by_evaluation.
  right. by_evaluation.
Defined.





(** C4 at work: disjoint profile sets [[work]] and [[home]]; the merged
    list contains both, here with the set iterated as [home, work]. *)
Lemma merge_configs_profiles_by_name_witness :
  exists merged,
    merge_configs [KStr "home"; KStr "work"] doc_work doc_home
    = Returned (YDict [("profiles", YList merged)])
    /\ length merged = 2%nat
    /\ In (profile "work") merged
    /\ In (profile "home") merged.
Proof.
  destruct (merge_configs_profiles_by_name [KStr "home"; KStr "work"]
              [("profiles", YList [profile "work"])]
              [("profiles", YList [profile "home"])]
              [profile "work"] [profile "home"] ["work"] ["home"])
    as (merged & Hrun & Hlen & Hlocal & Hremote & _).
  - reflexivity.
  - reflexivity.
  - repeat constructor.
  - apply NoDup_singleton.
  - repeat constructor.
  - apply NoDup_singleton.
  - vm_compute. reflexivity.
  - exists merged. split; [exact Hrun |]. split; [exact Hlen |]. split.
    + apply Hlocal. left. reflexivity.
    + apply (Hremote (profile "home") "home").
      * left. reflexivity.
      * reflexivity.
      * intros [H | []]. discriminate H.
Defined.


End SyncExamples.

(** ** The archive and the directory fingerprint on example trees *)
Section TreeExamples.
Import ZipSync TreeDemo.


(** The same two files listed in two orders have different
    fingerprints, and a rename that moves the file in the listing
    leaves the fingerprint as it was. *)
Lemma dir_hash_depends_on_listing_order :
  Permutation (walk [] listed_ab) (walk [] listed_ba)
  /\ dir_hash (Some listed_ab) = "9f83e3ea72939e5553a4583a23a3560d"
  /\ dir_hash (Some listed_ba) = "b2d5720ec43fdec8f3290b0ddb8244b1"
  /\ dir_hash (Some listed_ab) <> dir_hash (Some listed_ba)
  /\ In (["xy"], Some "") (walk [] before_rename)
  /\ ~ In (["xy"], Some "") (walk [] after_rename)
  /\ In (["yx"], Some "") (walk [] after_rename)
  /\ dir_hash (Some before_rename) = dir_hash (Some after_rename).
Proof.
  split; [apply perm_swap |].
  split; [vm_compute; reflexivity |].
  split; [vm_compute; reflexivity |].
  split; [vm_compute; discriminate |].
  split; [left; reflexivity |].
  split; [intros [H | [H | []]]; discriminate H |].
  split; [right; left; reflexivity |].
  vm_compute. reflexivity.
Qed.

End TreeExamples.

(** ** Further properties of the reconciliation cycle *)
Section CycleEdges.
Import ConfigSync Observe.

Variable yaml_safe_load : string -> option yaml.
Variable yaml_dump : yaml -> option string.

Local Abbreviation sync := (ConfigSync.sync yaml_safe_load yaml_dump).
Local Abbreviation merge_both := (ConfigSync.merge_both yaml_safe_load yaml_dump).

(** The two stored fingerprints are the same value. *)
Definition fingerprints_paired (w : world) : Prop :=
  last_local_hash (w_metadata w) = last_remote_hash (w_metadata w).

Lemma default_metadata_paired (dev : string) (e : env) (w : world) :
  (forall m, w_metadata_file w <> MetaStored m) ->
  fingerprints_paired (load_metadata dev e w).
Proof.
  intros Hnone. unfold fingerprints_paired, load_metadata, save_metadata.
  destruct (w_metadata_file w) as [| | m]; [| reflexivity |].
  - destruct (e_save_ok e); reflexivity.
  - exfalso. exact (Hnone m eq_refl).
Qed.







(** X2.  A record of the store that has no [config.yaml] file stops
    every cycle, forced or not, before anything is compared: [sync]
    returns failure and the whole state is as it was, so a forced
    upload cannot put the file there. *)
Theorem record_without_config_blocks_cycle (fu fd : bool) (e : env)
  (w : world) (g : gist) :
  w_gists w !! w_gist_id w = Some g ->
  g_config g = None ->
  sync fu fd e w = (Returned false, w).
Proof.
  intros Hg Hnone.
  unfold ConfigSync.sync, create_gist_if_not_exists, get_remote_config.
  destruct (e_probe_ok e); [| reflexivity].
  rewrite Hg. destruct (e_fetch_ok e); [| reflexivity].
  rewrite Hg, Hnone. reflexivity.
Qed.

(** The cycle up to the classification, when the record is in the
    store and both requests go through. *)
Lemma sync_reaches_classification (fu fd : bool) (e : env) (w : world)
  (remote : string) :
  e_probe_ok e = true -> e_fetch_ok e = true ->
  remote_content w = Some remote ->
  exists stamp,
    create_gist_if_not_exists e w = (true, w)
    /\ get_remote_config e w = Some (remote, md5 remote, stamp).
Proof.
  intros Hp Hf Hrem. unfold remote_content in Hrem.
  unfold create_gist_if_not_exists, get_remote_config. rewrite Hp, Hf.
  destruct (w_gists w !! w_gist_id w) as [g |]; [| discriminate].
  rewrite Hrem. eexists. split; reflexivity.
Qed.

(** X3.  When config.yaml has been deleted after a synchronisation (a
    fingerprint is stored, the file is gone): the cycle leaves by an
    uncaught exception if the remote content is unchanged, returns
    failure if the remote content has changed too, and a forced upload
    returns failure; in each case nothing is written. *)
Theorem deleted_local_file_stops_cycle (fd : bool) (e : env) (w : world)
  (remote h : string) :
  e_probe_ok e = true -> e_fetch_ok e = true ->
  remote_content w = Some remote ->
  w_config_file w = None ->
  last_local_hash (w_metadata w) = Some h ->
  (last_remote_hash (w_metadata w) = Some (md5 remote) ->
   sync false false e w = (Raised, w))
  /\ (last_remote_hash (w_metadata w) <> Some (md5 remote) ->
      sync false false e w = (Returned false, w))
  /\ sync true fd e w = (Returned false, w).
Proof.
  intros Hp Hf Hrem Hfile Hlast.
  destruct (sync_reaches_classification false false e w remote Hp Hf Hrem)
    as (stamp & Hc & Hg).
  unfold ConfigSync.sync. rewrite Hc, Hg.
  unfold calculate_file_hash. rewrite Hfile, Hlast.
  rewrite (bool_decide_eq_false_2 (None = Some h)) by discriminate.
  split; [| split].
  - intros Hr. rewrite Hr, bool_decide_eq_true_2 by reflexivity. reflexivity.
  - intros Hr. rewrite bool_decide_eq_false_2 by congruence. simpl.
    unfold ConfigSync.merge_both. rewrite Hfile. reflexivity.
  - reflexivity.
Qed.

(** X4.  An empty remote document is never downloaded: with the remote
    content empty, a forced download returns failure, and so does the
    detected download of a cycle that finds the local file unchanged;
    neither writes anything, so the cycle fails again until the local
    file or the remote content changes. *)
Theorem empty_remote_is_never_downloaded (e : env) (w : world) :
  e_probe_ok e = true -> e_fetch_ok e = true ->
  remote_content w = Some "" ->
  sync false true e w = (Returned false, w)
  /\ (local_fingerprint w = last_local_hash (w_metadata w) ->
      last_remote_hash (w_metadata w) <> Some (md5 "") ->
      sync false false e w = (Returned false, w)).
Proof.
  intros Hp Hf Hrem.
  destruct (sync_reaches_classification false false e w "" Hp Hf Hrem)
    as (stamp & Hc & Hg).
  unfold ConfigSync.sync. rewrite Hc, Hg. split; [reflexivity |].
  intros Hl Hr. unfold local_fingerprint in Hl.
  rewrite bool_decide_eq_true_2 by exact Hl.
  rewrite bool_decide_eq_false_2 by congruence. reflexivity.
Qed.




End CycleEdges.

(** ** What the merge keeps *)
Section MergeSettings.
Import ConfigSync.

Lemma dict_get_dict_set_other (d : list (string * yaml)) (key k : string)
  (v : yaml) :
  k <> key -> dict_get (dict_set d key v) k = dict_get d k.
Proof.
  intros Hne. induction d as [| [k0 v0] d IH]; simpl.
  - apply String.eqb_neq in Hne. rewrite String.eqb_sym, Hne. reflexivity.
  - destruct (String.eqb k0 key) eqn:Hkey; simpl.
    + apply String.eqb_eq in Hkey. subst k0.
      apply String.eqb_neq in Hne. rewrite String.eqb_sym, Hne. reflexivity.
    + destruct (String.eqb k0 k); [reflexivity | exact IH].
Qed.

Lemma dict_set_keys (d : list (string * yaml)) (key : string) (v : yaml) :
  dict_has d key = true ->
  List.map fst (dict_set d key v) = List.map fst d.
Proof.
  unfold dict_has. induction d as [| [k0 v0] d IH]; simpl; [discriminate |].
  destruct (String.eqb k0 key) eqn:Hkey; simpl; [reflexivity |].
  intros H. rewrite IH by exact H. reflexivity.
Qed.

(** X8.  When both documents are non-empty mappings and [merge_configs]
    returns, the result has exactly the keys of the local document, in
    the local order, and under every key other than ['profiles'] the
    local value: a setting that only the remote document has is not in
    the result, and a remote value never replaces a local one. *)
Theorem merge_configs_keeps_local_settings (order : list pkey)
  (dl dr : list (string * yaml)) (merged : yaml) :
  dl <> [] -> dr <> [] ->
  merge_configs order (YDict dl) (YDict dr) = Returned merged ->
  exists dm,
    merged = YDict dm
    /\ List.map fst dm = List.map fst dl
    /\ (forall k, k <> "profiles" -> dict_get dm k = dict_get dl k).
Proof.
  intros Hl Hr H. unfold merge_configs in H.
  assert (Htl : truthy (YDict dl) = true) by (destruct dl; [congruence | reflexivity]).
  assert (Htr : truthy (YDict dr) = true) by (destruct dr; [congruence | reflexivity]).
  rewrite Htl, Htr in H. simpl negb in H. cbv iota in H.
  unfold py_copy, py_contains in H.
  assert (Hsame : exists dm, YDict dl = YDict dm
                    /\ List.map fst dm = List.map fst dl
                    /\ (forall k, k <> "profiles" -> dict_get dm k = dict_get dl k))
    by (exists dl; auto).
  destruct (dict_has dr "profiles"); [| inversion H; subst; exact Hsame].
  destruct (dict_has dl "profiles") eqn:Hhas;
    [| inversion H; subst; exact Hsame].
  destruct (profiles_by_name _); [| discriminate].
  destruct (profiles_by_name _); [| discriminate].
  destruct (merge_profiles _ _ _) as [ps |]; [| discriminate].
  exists (dict_set dl "profiles" (YList ps)).
  split; [congruence |]. split.
  - apply dict_set_keys. exact Hhas.
  - intros k Hk. apply dict_get_dict_set_other. exact Hk.
Qed.

End MergeSettings.

(** ** The further properties on the example machines *)
Section CycleExamples.
Import ConfigSync Observe Demo.

Local Abbreviation demo_sync := (ConfigSync.sync safe_load dump).

Ltac evaluate :=
  first [ vm_compute; reflexivity
        | let H := fresh in intros H; vm_compute in H; discriminate H ].

(** The machine of [in_sync] after config.yaml has been deleted. *)
Definition local_deleted : world := set_config_file None in_sync.

(** A machine whose record holds an empty config.yaml. *)
Definition remote_emptied : world :=
  machine (Some text_work) "" (synced text_work).

(** A machine whose record has no config.yaml file. *)
Definition record_without_config : world :=
  set_gists {[ "g1" := Gist None "2023-11-14T20:00:00Z" ]} in_sync.



(** X2 at work: a forced upload to a record without config.yaml. *)
Lemma record_without_config_blocks_cycle_witness :
  demo_sync true false env_ok record_without_config
  = (Returned false, record_without_config).
Proof.
  apply (record_without_config_blocks_cycle safe_load dump true false env_ok
           record_without_config (Gist None "2023-11-14T20:00:00Z")).
  - evaluate.
  - reflexivity.
Defined.

(** X3 at work on [local_deleted]: the remote content is the one of
    the last synchronisation, and the cycle raises. *)
Lemma deleted_local_file_stops_cycle_witness :
  demo_sync false false env_ok local_deleted = (Raised, local_deleted)
  /\ demo_sync true false env_ok local_deleted
     = (Returned false, local_deleted).
Proof.
  destruct (deleted_local_file_stops_cycle safe_load dump false env_ok
              local_deleted text_work (md5 text_work))
    as (Hraise & _ & Hforced); try evaluate.
  split; [apply Hraise; evaluate | exact Hforced].
Defined.

(** X4 at work on [remote_emptied]. *)
Lemma empty_remote_is_never_downloaded_witness :
  demo_sync false true env_ok remote_emptied = (Returned false, remote_emptied)
  /\ demo_sync false false env_ok remote_emptied
     = (Returned false, remote_emptied).
Proof.
  destruct (empty_remote_is_never_downloaded safe_load dump env_ok
              remote_emptied) as (Hforced & Hdetected); try evaluate.
  split; [exact Hforced | apply Hdetected; evaluate].
Defined.




(** X8 at work: the remote document has a [hotkeys] setting and another
    [theme]; neither reaches the result. *)
Lemma merge_configs_keeps_local_settings_witness :
  exists dm,
    merge_configs [KStr "work"; KStr "home"]
      (YDict [("theme", YStr "dark"); ("profiles", YList [profile "work"])])
      (YDict [("profiles", YList [profile "home"]); ("theme", YStr "light");
              ("hotkeys", YDict [])])
    = Returned (YDict dm)
    /\ List.map fst dm = ["theme"; "profiles"]
    /\ dict_get dm "theme" = Some (YStr "dark")
    /\ dict_get dm "hotkeys" = None.
Proof.
  destruct (merge_configs_keeps_local_settings [KStr "work"; KStr "home"]
              [("theme", YStr "dark"); ("profiles", YList [profile "work"])]
              [("profiles", YList [profile "home"]); ("theme", YStr "light");
               ("hotkeys", YDict [])]
              (YDict [("theme", YStr "dark");
                      ("profiles", YList [profile "work"; profile "home"])]))
    as (dm & Heq & Hkeys & Hget); [discriminate | discriminate | evaluate |].
  exists dm. split; [rewrite <- Heq; evaluate |].
  split; [exact Hkeys |].
  split; [rewrite Hget by discriminate; reflexivity |].
  rewrite Hget by discriminate. reflexivity.
Defined.

End CycleExamples.

(** ** Stable sorting *)
Section SortedFacts.
Import Glob.
Context {A : Type} (leb : A -> A -> bool).

Lemma insert_sorted_perm (x : A) (xs : list A) :
  Permutation (x :: xs) (insert_sorted leb x xs).
Proof.
  induction xs as [| y ys IH]; simpl; [reflexivity |].
  destruct (leb x y); [reflexivity |].
  eapply perm_trans; [apply perm_swap | apply perm_skip; exact IH].
Qed.

Lemma sorted_perm (xs : list A) : Permutation xs (sorted leb xs).
Proof.
  unfold sorted. induction xs as [| x xs IH]; simpl; [reflexivity |].
  eapply perm_trans; [apply perm_skip; exact IH | apply insert_sorted_perm].
Qed.

(** Every element is below, in the order [leb], all the later ones. *)
Fixpoint ordered (xs : list A) : Prop :=
  match xs with
  | [] => True
  | x :: xs' => (forall y, In y xs' -> leb x y = true) /\ ordered xs'
  end.

Hypothesis leb_total : forall a b, leb a b = true \/ leb b a = true.
Hypothesis leb_trans :
  forall a b c, leb a b = true -> leb b c = true -> leb a c = true.

Lemma insert_sorted_ordered (x : A) (xs : list A) :
  ordered xs -> ordered (insert_sorted leb x xs).
Proof.
  induction xs as [| y ys IH]; simpl; [intros _; split; [intros ? [] | exact I] |].
  intros [Hy Hys]. destruct (leb x y) eqn:Hxy; simpl.
  - split; [| split; assumption].
    intros z [<- | Hz]; [exact Hxy |]. eapply leb_trans; [exact Hxy | auto].
  - split; [| apply IH; exact Hys].
    intros z Hz.
    apply (Permutation_in _ (Permutation_sym (insert_sorted_perm x ys))) in Hz.
    destruct Hz as [<- | Hz]; [| auto].
    destruct (leb_total x y) as [H | H]; [congruence | exact H].
Qed.

Lemma sorted_ordered (xs : list A) : ordered (sorted leb xs).
Proof.
  unfold sorted. induction xs as [| x xs IH]; simpl; [exact I |].
  apply insert_sorted_ordered. exact IH.
Qed.

Lemma ordered_app (l1 l2 : list A) :
  ordered (l1 ++ l2) ->
  forall x y, In x l1 -> In y l2 -> leb x y = true.
Proof.
  induction l1 as [| a l1 IH]; simpl; [intros _ x y [] |].
  intros [Ha Hrest] x y [<- | Hx] Hy.
  - apply Ha. apply in_or_app. right. exact Hy.
  - exact (IH Hrest x y Hx Hy).
Qed.

End SortedFacts.

(** ** Retention of the launcher's backups *)
Section BackupRetention.
Import Glob Launcher.

Lemma newest_first_perm (fs : list file) : Permutation fs (newest_first fs).
Proof. apply sorted_perm. Qed.

Lemma newest_first_ordered (fs : list file) :
  ordered (fun a b => f_mtime b <=? f_mtime a) (newest_first fs).
Proof.
  apply sorted_ordered.
  - intros a b. destruct (Z.le_ge_cases (f_mtime b) (f_mtime a)) as [H | H];
      [left | right]; apply Z.leb_le; lia.
  - intros a b c Hab Hbc. apply Z.leb_le in Hab, Hbc. apply Z.leb_le. lia.
Qed.

(** In a directory a name is the name of one file. *)
Lemma same_name_same_file (fs : list file) (a b : file) :
  NoDup (List.map f_name fs) -> In a fs -> In b fs ->
  f_name a = f_name b -> a = b.
Proof.
  induction fs as [| f fs IH]; simpl; [intros _ [] |].
  intros Hnd Ha Hb Hname. apply NoDup_cons in Hnd as [Hnot Hnd].
  assert (Hin : forall c, In c fs -> f_name c <> f_name f).
  { intros c Hc Heq. apply Hnot. rewrite <- Heq.
    apply list_elem_of_In, in_map. exact Hc. }
  destruct Ha as [<- | Ha], Hb as [<- | Hb]; auto.
  - exfalso. apply (Hin b Hb). congruence.
  - exfalso. apply (Hin a Ha). congruence.
Qed.

Lemma remove_files_In (fs doomed : list file) (f : file) :
  In f (remove_files fs doomed)
  <-> In f fs /\ forall d, In d doomed -> f_name d <> f_name f.
Proof.
  unfold remove_files. rewrite filter_In, negb_true_iff.
  split; intros [Hin H]; (split; [exact Hin |]).
  - intros d Hd Heq.
    assert (existsb (fun d0 => String.eqb (f_name d0) (f_name f)) doomed = true).
    { apply existsb_exists. exists d. split; [exact Hd |].
      apply String.eqb_eq. exact Heq. }
    congruence.
  - destruct (existsb _ doomed) eqn:Hex; [| reflexivity].
    apply existsb_exists in Hex as (d & Hd & Heq).
    apply String.eqb_eq in Heq. exfalso. exact (H d Hd Heq).
Qed.

Lemma glob_remove_files (fs doomed : list file) (pattern : string) :
  glob (remove_files fs doomed) pattern = remove_files (glob fs pattern) doomed.
Proof.
  unfold glob, remove_files. induction fs as [| f fs IH]; simpl; [reflexivity |].
  destruct (negb _) eqn:Hkeep, (fnmatch (f_name f) pattern) eqn:Hmatch; simpl;
    rewrite ?Hkeep, ?Hmatch, IH; reflexivity.
Qed.

Lemma remove_files_length_perm (fs fs' doomed : list file) :
  Permutation fs fs' ->
  length (remove_files fs doomed) = length (remove_files fs' doomed).
Proof.
  unfold remove_files. induction 1; simpl;
    repeat match goal with
           | |- context [if ?b then _ else _] => destruct b
           end; simpl; congruence.
Qed.

Lemma remove_files_app (fs fs' doomed : list file) :
  remove_files (fs ++ fs') doomed
  = remove_files fs doomed ++ remove_files fs' doomed.
Proof. unfold remove_files. apply List.filter_app. Qed.

Lemma remove_files_all (doomed : list file) :
  remove_files doomed doomed = [].
Proof.
  destruct (remove_files doomed doomed) as [| f rest] eqn:H; [reflexivity |].
  assert (Hin : In f (remove_files doomed doomed)) by (rewrite H; left; reflexivity).
  apply remove_files_In in Hin as [Hin Hne]. exfalso. exact (Hne f Hin eq_refl).
Qed.

(** X9.  [cleanup_old_backups] with a retention limit [n >= 0] leaves at
    most [n] files named [config_backup_*.yaml]; it removes files of
    the directory only, and none with another name (the fallback files
    stay); and every file it removes is no newer, by modification time,
    than every configuration backup it keeps. *)
Theorem cleanup_old_backups_keeps_newest (l : launcher) (n : Z) :
  max_backups l = Some n ->
  0 <= n ->
  NoDup (List.map f_name (backups l)) ->
  (length (glob (backups (cleanup_old_backups l)) "config_backup_*.yaml")
   <= Z.to_nat n)%nat
  /\ (forall f, In f (backups (cleanup_old_backups l)) -> In f (backups l))
  /\ (forall f, In f (backups l) ->
                fnmatch (f_name f) "config_backup_*.yaml" = false ->
                In f (backups (cleanup_old_backups l)))
  /\ (forall f g,
         In f (backups l) -> ~ In f (backups (cleanup_old_backups l)) ->
         In g (glob (backups (cleanup_old_backups l)) "config_backup_*.yaml") ->
         f_mtime f <= f_mtime g).
Proof.
  intros Hmax Hn Hnodup. unfold cleanup_old_backups. rewrite Hmax. simpl.
  set (pat := "config_backup_*.yaml").
  set (G := glob (backups l) pat).
  set (S := newest_first G).
  assert (Hslice : slice_from n S = List.skipn (Z.to_nat n) S).
  { unfold slice_from. destruct (n <? 0) eqn:Hneg; [| reflexivity].
    apply Z.ltb_lt in Hneg. lia. }
  rewrite Hslice. set (k := Z.to_nat n). set (doomed := List.skipn k S).
  assert (Hsplit : S = List.firstn k S ++ doomed)
    by (symmetry; apply firstn_skipn).
  assert (HSG : forall f, In f S <-> In f G).
  { intros f. split; apply Permutation_in;
      [symmetry |]; apply newest_first_perm. }
  assert (Hdoomed : forall d, In d doomed ->
                              In d (backups l) /\ fnmatch (f_name d) pat = true).
  { intros d Hd. assert (HdS : In d S).
    { rewrite Hsplit. apply in_or_app. right. exact Hd. }
    apply HSG in HdS. unfold G, glob in HdS. apply filter_In in HdS. exact HdS. }
  split; [| split; [| split]].
  - rewrite glob_remove_files. fold G.
    rewrite (remove_files_length_perm G S doomed (newest_first_perm G)).
    rewrite Hsplit at 1. rewrite remove_files_app, remove_files_all, app_nil_r.
    unfold remove_files.
    pose proof (filter_length_le
                  (fun f => negb (existsb (fun d => String.eqb (f_name d) (f_name f))
                                          doomed)) (List.firstn k S)) as Hle.
    pose proof (firstn_le_length k S). lia.
  - intros f Hf. apply remove_files_In in Hf. tauto.
  - intros f Hf Hmatch. apply remove_files_In. split; [exact Hf |].
    intros d Hd Heq. destruct (Hdoomed d Hd) as [_ Hm]. congruence.
  - intros f g Hf Hgone Hg.
    assert (Hfd : In f doomed).
    { destruct (existsb (fun d => String.eqb (f_name d) (f_name f)) doomed)
        eqn:Hex.
      - apply existsb_exists in Hex as (d & Hd & Heq).
        apply String.eqb_eq in Heq.
        rewrite <- (same_name_same_file (backups l) d f Hnodup
                      (proj1 (Hdoomed d Hd)) Hf Heq).
        exact Hd.
      - exfalso. apply Hgone. unfold remove_files. apply filter_In.
        split; [exact Hf | rewrite Hex; reflexivity]. }
    rewrite glob_remove_files in Hg. fold G in Hg.
    apply remove_files_In in Hg as [HgG Hkeep].
    apply HSG in HgG. rewrite Hsplit in HgG. apply in_app_or in HgG.
    destruct HgG as [Hfirst | Hlast];
      [| exfalso; exact (Hkeep g Hlast eq_refl)].
    pose proof (newest_first_ordered G) as Hord. fold S in Hord.
    rewrite Hsplit in Hord.
    pose proof (ordered_app _ _ _ Hord g f Hfirst Hfd) as Hle.
    apply Z.leb_le in Hle. exact Hle.
Qed.

Lemma find_file_none (fs : list file) (name : string) :
  (forall f, In f fs -> f_name f <> name) -> find_file fs name = None.
Proof.
  intros H. unfold find_file.
  destruct (List.find _ fs) as [f |] eqn:Hfind; [| reflexivity].
  apply find_some in Hfind as [Hin Heq]. apply String.eqb_eq in Heq.
  exfalso. exact (H f Hin Heq).
Qed.

Lemma find_file_none_inv (fs : list file) (name : string) (f : file) :
  find_file fs name = None -> In f fs -> f_name f <> name.
Proof.
  unfold find_file. intros Hnone Hin Heq.
  pose proof (find_none _ _ Hnone f Hin) as H. simpl in H.
  apply String.eqb_neq in H. contradiction.
Qed.

Lemma write_file_fresh (fs : list file) (name content : string) (mtime : Z) :
  find_file fs name = None ->
  write_file fs name content mtime = fs ++ [File name content mtime].
Proof.
  unfold find_file. induction fs as [| f fs IH]; simpl; [reflexivity |].
  destruct (String.eqb (f_name f) name); [discriminate |].
  intros H. rewrite IH by exact H. reflexivity.
Qed.

Lemma fresh_name_keeps_names_distinct (fs : list file) (name content : string)
  (mtime : Z) :
  NoDup (List.map f_name fs) ->
  find_file fs name = None ->
  NoDup (List.map f_name (fs ++ [File name content mtime])).
Proof.
  intros Hnd Hnone. rewrite List.map_app. simpl.
  apply NoDup_app. split; [exact Hnd |]. split; [| apply NoDup_singleton].
  intros x Hx Hx'. apply list_elem_of_In in Hx, Hx'.
  destruct Hx' as [<- | []]. apply in_map_iff in Hx as (f & Hname & Hin).
  exact (find_file_none_inv fs name f Hnone Hin Hname).
Qed.

Lemma config_backup_name_matches (stamp : string) :
  fnmatch ("config_backup_" +:+ stamp +:+ ".yaml") "config_backup_*.yaml" = true.
Proof.
  unfold fnmatch.
  change (list_ascii_of_string "config_backup_*.yaml")
    with (list_ascii_of_string "config_backup_"
            ++ ascii_of_nat 42 :: list_ascii_of_string ".yaml").
  assert (Happ : forall a b, list_ascii_of_string (a +:+ b)
                             = list_ascii_of_string a ++ list_ascii_of_string b).
  { induction a as [| c a IH]; intros b; simpl; [reflexivity |].
    rewrite IH. reflexivity. }
  rewrite !Happ.
  assert (Hstar : forall rest,
             glob_match (ascii_of_nat 42 :: list_ascii_of_string ".yaml")
               (rest ++ list_ascii_of_string ".yaml") = true).
  { induction rest as [| c rest IH]; [vm_compute; reflexivity |].
    apply star_matches_suffix. exact IH. }
  generalize (Hstar (list_ascii_of_string stamp)).
  generalize (list_ascii_of_string stamp ++ list_ascii_of_string ".yaml").
  intros rest Hrest. simpl. exact Hrest.
Qed.

#[local] Instance file_eq_dec : EqDecision file.
Proof. solve_decision. Defined.

(** The clean-up removes a configuration backup that is strictly older
    than all the others when more than the limit are present. *)
Lemma cleanup_removes_strictly_oldest (l : launcher) (n : Z) (x : file) :
  max_backups l = Some n ->
  0 <= n ->
  NoDup (List.map f_name (backups l)) ->
  In x (glob (backups l) "config_backup_*.yaml") ->
  (Z.to_nat n < length (glob (backups l) "config_backup_*.yaml"))%nat ->
  (forall y, In y (glob (backups l) "config_backup_*.yaml") -> y <> x ->
             f_mtime x < f_mtime y) ->
  find_file (backups (cleanup_old_backups l)) (f_name x) = None.
Proof.
  intros Hmax Hn Hnodup Hx Hmore Holdest.
  unfold cleanup_old_backups. rewrite Hmax. simpl.
  set (pat := "config_backup_*.yaml") in *.
  set (G := glob (backups l) pat) in *.
  set (S := newest_first G).
  assert (Hslice : slice_from n S = List.skipn (Z.to_nat n) S).
  { unfold slice_from. destruct (n <? 0) eqn:Hneg; [| reflexivity].
    apply Z.ltb_lt in Hneg. lia. }
  rewrite Hslice. set (k := Z.to_nat n) in *. set (doomed := List.skipn k S).
  assert (Hsplit : S = List.firstn k S ++ doomed)
    by (symmetry; apply firstn_skipn).
  assert (HndS : NoDup S).
  { apply NoDup_ListNoDup.
    apply (Permutation_NoDup (newest_first_perm G)).
    unfold G, glob. apply List.NoDup_filter.
    apply (List.NoDup_map_inv f_name). apply NoDup_ListNoDup. exact Hnodup. }
  assert (HxS : In x S)
    by (apply (Permutation_in _ (newest_first_perm G)); exact Hx).
  assert (Hxd : In x doomed).
  { rewrite Hsplit in HxS. apply in_app_or in HxS.
    destruct HxS as [Hfirst | Hlast]; [| exact Hlast]. exfalso.
    assert (Hlen : (k < length S)%nat).
    { unfold S. rewrite <- (Permutation_length (newest_first_perm G)).
      exact Hmore. }
    destruct doomed as [| y rest] eqn:Hd.
    { apply (f_equal (@length file)) in Hd. unfold doomed in Hd.
      rewrite List.length_skipn in Hd. simpl in Hd. lia. }
    assert (Hy : In y doomed) by (rewrite Hd; left; reflexivity).
    rewrite <- Hd in Hsplit.
    pose proof (newest_first_ordered G) as Hord. fold S in Hord.
    rewrite Hsplit in Hord.
    pose proof (ordered_app _ _ _ Hord x y Hfirst Hy) as Hle.
    apply Z.leb_le in Hle.
    assert (HyG : In y G).
    { apply (Permutation_in _ (Permutation_sym (newest_first_perm G))).
      fold S. rewrite Hsplit. apply in_or_app. right. exact Hy. }
    destruct (decide (y = x)) as [-> | Hne].
    - rewrite Hsplit in HndS. apply NoDup_app in HndS as (_ & Hdisj & _).
      apply (Hdisj x); apply list_elem_of_In; assumption.
    - specialize (Holdest y HyG Hne). lia. }
  apply find_file_none. intros f Hf Heq.
  apply remove_files_In in Hf as [_ Hkeep]. exact (Hkeep x Hxd (eq_sym Heq)).
Qed.

End BackupRetention.

(** ** Backups that the clean-up takes away *)
Section BackupPruning.
Import Glob Launcher.

Variable yaml_safe_load : string -> option yaml.

Local Abbreviation sync_from_cloud := (Launcher.sync_from_cloud yaml_safe_load).

Lemma glob_snoc (fs : list file) (f : file) (pattern : string) :
  fnmatch (f_name f) pattern = true ->
  glob (fs ++ [f]) pattern = glob fs pattern ++ [f].
Proof.
  intros H. unfold glob. rewrite List.filter_app. simpl. rewrite H. reflexivity.
Qed.

Lemma cleanup_old_backups_frame (l : launcher) :
  tabby_config (cleanup_old_backups l) = tabby_config l
  /\ tabby_config_path (cleanup_old_backups l) = tabby_config_path l.
Proof.
  unfold cleanup_old_backups. destruct (max_backups l); simpl; auto.
Qed.

(** What [create_backup] does with a new name: the copy is added at the
    end of the directory, then the clean-up runs. *)
Lemma create_backup_fresh (e : lenv) (l : launcher) (src : file) :
  tabby_config l = Some src ->
  backup_write_ok e = true ->
  find_file (backups l) ("config_backup_" +:+ stamp e +:+ ".yaml") = None ->
  create_backup e l
  = (Some ("config_backup_" +:+ stamp e +:+ ".yaml"),
     cleanup_old_backups
       (with_backups
          (backups l ++ [File ("config_backup_" +:+ stamp e +:+ ".yaml")
                           (f_content src) (f_mtime src)]) l)).
Proof.
  intros Hsrc Hok Hfresh. unfold create_backup. rewrite Hsrc, Hok.
  rewrite write_file_fresh by exact Hfresh. reflexivity.
Qed.

(** X10.  [create_backup] copies the configuration with its
    modification time and the clean-up sorts by that time: when the
    directory already holds at least [max_backups] configuration
    backups that are all newer than the configuration file,
    [create_backup] returns the name of a backup that the clean-up has
    already removed.  A rollback offered by [sync_from_cloud] after an
    unparsable download then fails: the result is [ERROR] and the
    configuration keeps the downloaded content. *)
Theorem backup_of_older_config_is_pruned (e : lenv) (l : launcher)
  (src : file) (n : Z) (cloud : string) :
  tabby_config l = Some src ->
  backup_write_ok e = true ->
  max_backups l = Some n ->
  0 <= n ->
  NoDup (List.map f_name (backups l)) ->
  find_file (backups l) ("config_backup_" +:+ stamp e +:+ ".yaml") = None ->
  (Z.to_nat n <= length (glob (backups l) "config_backup_*.yaml"))%nat ->
  (forall y, In y (glob (backups l) "config_backup_*.yaml") ->
             f_mtime src < f_mtime y) ->
  exists l',
    create_backup e l = (Some ("config_backup_" +:+ stamp e +:+ ".yaml"), l')
    /\ find_file (backups l') ("config_backup_" +:+ stamp e +:+ ".yaml") = None
    /\ tabby_config l' = Some src
    /\ (tabby_config_path l = true ->
        download_from_gist e l = Some cloud ->
        cloud <> "" ->
        config_write_ok e = true ->
        yaml_safe_load cloud = None ->
        user_rolls_back e = true ->
        sync_from_cloud e l
        = ((ERROR, msg_sync_failed e),
           with_tabby_config
             (Some (File "config.yaml" cloud (clock_write e))) l')).
Proof.
  intros Hsrc Hok Hmax Hn Hnodup Hfresh Hfull Hnewer.
  set (name := "config_backup_" +:+ stamp e +:+ ".yaml") in *.
  set (copy := File name (f_content src) (f_mtime src)).
  set (l1 := with_backups (backups l ++ [copy]) l).
  pose proof (create_backup_fresh e l src Hsrc Hok Hfresh) as Hcreate.
  fold name copy l1 in Hcreate.
  assert (Hmatch : fnmatch (f_name copy) "config_backup_*.yaml" = true)
    by apply config_backup_name_matches.
  assert (Hglob : glob (backups l1) "config_backup_*.yaml"
                  = glob (backups l) "config_backup_*.yaml" ++ [copy])
    by (apply glob_snoc; exact Hmatch).
  assert (Hgone : find_file (backups (cleanup_old_backups l1)) name = None).
  { apply (cleanup_removes_strictly_oldest l1 n copy); try assumption.
    - apply fresh_name_keeps_names_distinct; assumption.
    - rewrite Hglob. apply in_or_app. right. left. reflexivity.
    - rewrite Hglob, length_app. simpl. lia.
    - rewrite Hglob. intros y Hy Hne. apply in_app_or in Hy.
      destruct Hy as [Hy | [Hy | []]]; [| congruence].
      simpl. exact (Hnewer y Hy). }
  destruct (cleanup_old_backups_frame l1) as [Hcfg Hpath].
  exists (cleanup_old_backups l1).
  split; [exact Hcreate |]. split; [exact Hgone |].
  split; [rewrite Hcfg; exact Hsrc |].
  intros Hp Hdl Hne Hwrite Hbad Hroll.
  unfold Launcher.sync_from_cloud. rewrite Hp, Hdl.
  apply String.eqb_neq in Hne. rewrite Hne, Hsrc, Hcreate, Hwrite.
  unfold validate_config. simpl. rewrite Hpath. simpl. rewrite Hp, Hbad, Hroll.
  rewrite Hgone. reflexivity.
Qed.

(** X11.  Restoring the oldest configuration backup when the directory
    is at its retention limit fails and loses that backup: the backup
    of the current configuration taken first brings the count over the
    limit, the clean-up removes the oldest file, which is the one to
    restore, and the copy over the configuration then finds no file.
    [restore_from_backup] returns [False] with the configuration
    unchanged. *)
Theorem restoring_oldest_backup_at_limit_fails (e : lenv) (l : launcher)
  (src chosen : file) (n : Z) :
  tabby_config_path l = true ->
  tabby_config l = Some src ->
  user_confirms e = true ->
  backup_write_ok e = true ->
  max_backups l = Some n ->
  0 <= n ->
  NoDup (List.map f_name (backups l)) ->
  find_file (backups l) ("config_backup_" +:+ stamp e +:+ ".yaml") = None ->
  In chosen (glob (backups l) "config_backup_*.yaml") ->
  (Z.to_nat n <= length (glob (backups l) "config_backup_*.yaml"))%nat ->
  (forall y, In y (glob (backups l) "config_backup_*.yaml") -> y <> chosen ->
             f_mtime chosen < f_mtime y) ->
  f_mtime chosen < f_mtime src ->
  exists l',
    restore_from_backup (f_name chosen) e l = (false, l')
    /\ tabby_config l' = Some src
    /\ find_file (backups l') (f_name chosen) = None.
Proof.
  intros Hp Hsrc Hconfirm Hok Hmax Hn Hnodup Hfresh Hchosen Hfull Holdest Hold.
  set (name := "config_backup_" +:+ stamp e +:+ ".yaml") in *.
  set (copy := File name (f_content src) (f_mtime src)).
  set (l1 := with_backups (backups l ++ [copy]) l).
  pose proof (create_backup_fresh e l src Hsrc Hok Hfresh) as Hcreate.
  fold name copy l1 in Hcreate.
  assert (Hmatch : fnmatch (f_name copy) "config_backup_*.yaml" = true)
    by apply config_backup_name_matches.
  assert (Hglob : glob (backups l1) "config_backup_*.yaml"
                  = glob (backups l) "config_backup_*.yaml" ++ [copy])
    by (apply glob_snoc; exact Hmatch).
  assert (Hgone : find_file (backups (cleanup_old_backups l1)) (f_name chosen)
                  = None).
  { apply (cleanup_removes_strictly_oldest l1 n chosen); try assumption.
    - apply fresh_name_keeps_names_distinct; assumption.
    - rewrite Hglob. apply in_or_app. left. exact Hchosen.
    - rewrite Hglob, length_app. simpl. lia.
    - rewrite Hglob. intros y Hy Hne. apply in_app_or in Hy.
      destruct Hy as [Hy | [<- | []]]; [exact (Holdest y Hy Hne) | exact Hold]. }
  destruct (cleanup_old_backups_frame l1) as [Hcfg _].
  exists (cleanup_old_backups l1).
  split; [| split; [rewrite Hcfg; exact Hsrc | exact Hgone]].
  unfold restore_from_backup.
  assert (Hthere : exists b, find_file (backups l) (f_name chosen) = Some b).
  { destruct (find_file (backups l) (f_name chosen)) as [b |] eqn:Hfind;
      [eauto |].
    unfold glob in Hchosen. apply filter_In in Hchosen as [Hin _].
    exfalso. exact (find_file_none_inv _ _ _ Hfind Hin eq_refl). }
  destruct Hthere as [b ->]. rewrite Hp, Hconfirm, Hcreate, Hgone. reflexivity.
Qed.

End BackupPruning.

(** ** A session of the launcher *)
Section LauncherSessions.
Import Glob Launcher.

Variable yaml_safe_load : string -> option yaml.

Local Abbreviation sync_from_cloud := (Launcher.sync_from_cloud yaml_safe_load).
Local Abbreviation monitor_pass := (Launcher.monitor_pass yaml_safe_load).

(** X12.  When a downloaded configuration does not parse,
    [sync_from_cloud] has already written it over the local one; if the
    user accepts the rollback, the content and the modification time
    of the previous configuration are put back from the backup; if
    not, the unparsable content stays and the result is the same
    [SUCCESS] as for a good download. *)
Theorem rollback_restores_previous_configuration (e : lenv) (l : launcher)
  (src : file) (cloud : string) (n : Z) :
  tabby_config_path l = true ->
  download_from_gist e l = Some cloud ->
  cloud <> "" ->
  yaml_safe_load cloud = None ->
  tabby_config l = Some src ->
  backup_write_ok e = true ->
  config_write_ok e = true ->
  max_backups l = Some n ->
  Z.of_nat (length (glob (backups l) "config_backup_*.yaml")) < n ->
  exists l',
    sync_from_cloud e l
    = ((SUCCESS, if user_rolls_back e then msg_rolled_back else msg_downloaded),
       l')
    /\ tabby_config l'
       = Some (if user_rolls_back e
               then File "config.yaml" (f_content src) (f_mtime src)
               else File "config.yaml" cloud (clock_write e)).
Proof.
  intros Hpath Hdl Hne Hbad Hsrc Hok Hwrite Hmax Hroom.
  destruct (create_backup_within_retention e l src n Hsrc Hok Hmax Hroom)
    as (l1 & Hcreate & _ & Hpath1 & Hfind).
  unfold Launcher.sync_from_cloud. rewrite Hpath, Hdl.
  apply String.eqb_neq in Hne. rewrite Hne, Hsrc, Hcreate, Hwrite.
  unfold validate_config. simpl. rewrite Hpath1, Hpath, Hbad.
  destruct (user_rolls_back e).
  - rewrite Hfind. eexists. split; reflexivity.
  - eexists. split; reflexivity.
Qed.

(** X13.  [sync_to_cloud] takes any fallback file less than ten seconds
    old as the sign that this call saved the configuration offline:
    without a token nothing is tried and nothing is written, and yet
    the result is [(SUCCESS, msg_offline_saved)] when such a file from
    an earlier call is in the directory. *)
Theorem stale_fallback_reports_offline_saved (e : lenv) (l : launcher)
  (src f : file) :
  tabby_config_path l = true ->
  tabby_config l = Some src ->
  github_token l = "" ->
  In f (backups l) ->
  fnmatch (f_name f) "fallback_backup_*.yaml" = true ->
  clock_check e - f_mtime f < 10 ->
  sync_to_cloud e l = ((SUCCESS, msg_offline_saved), l).
Proof.
  intros Hpath Hsrc Htoken Hin Hmatch Hage.
  unfold sync_to_cloud, upload_to_gist. rewrite Hpath, Hsrc, Htoken. simpl.
  assert (Hglob : In f (glob (backups l) "fallback_backup_*.yaml")).
  { unfold glob. apply filter_In. split; assumption. }
  destruct (newest_first_max (glob (backups l) "fallback_backup_*.yaml"))
    as (h & t & -> & Hmax).
  { intros Hnil. rewrite Hnil in Hglob. destruct Hglob. }
  specialize (Hmax f Hglob).
  assert (Hrecent : (clock_check e - f_mtime h <? 10) = true)
    by (apply Z.ltb_lt; lia).
  rewrite Hrecent. reflexivity.
Qed.

(** X14.  In the monitor loop, what the pass that sees Tabby start has
    downloaded is not uploaded by the pass that sees Tabby close, when
    the configuration file has not been touched in between: the
    closing pass changes nothing, whatever the download did. *)
Theorem download_at_start_is_not_uploaded_at_close (e1 e2 : lenv)
  (l : launcher) :
  monitor_pass false true e2 (monitor_pass true false e1 l)
  = monitor_pass true false e1 l.
Proof.
  unfold Launcher.monitor_pass at 1. simpl.
  set (l1 := Launcher.monitor_pass yaml_safe_load true false e1 l).
  assert (Hreset : exists l0, l1 = _reset_change_tracking l0).
  { unfold l1, Launcher.monitor_pass. simpl. eexists. reflexivity. }
  destruct Hreset as [l0 Hl1]. rewrite Hl1.
  unfold _check_config_changes, _reset_change_tracking.
  destruct (tabby_config_path l0) eqn:Hpath,
    (tabby_config l0) as [f |] eqn:Hfile; simpl;
    rewrite ?Hpath, ?Hfile; simpl; rewrite ?Z.eqb_refl; reflexivity.
Qed.

Lemma cleanup_old_backups_room (l : launcher) (n : Z) :
  max_backups l = Some n ->
  Z.of_nat (length (glob (backups l) "config_backup_*.yaml")) <= n ->
  cleanup_old_backups l = l.
Proof.
  intros Hmax Hroom. unfold cleanup_old_backups. rewrite Hmax.
  assert (Hnone : slice_from n (newest_first
                                  (glob (backups l) "config_backup_*.yaml")) = []).
  { unfold slice_from. destruct (n <? 0) eqn:Hneg; [apply Z.ltb_lt in Hneg; lia |].
    apply skipn_all2. unfold newest_first. rewrite sorted_length. lia. }
  rewrite Hnone, remove_files_nil. destruct l; reflexivity.
Qed.

Lemma find_file_app_fresh (fs rest : list file) (f : file) :
  find_file fs (f_name f) = None ->
  find_file (fs ++ f :: rest) (f_name f) = Some f.
Proof.
  unfold find_file. induction fs as [| g fs IH]; simpl.
  - rewrite String.eqb_refl. reflexivity.
  - destruct (String.eqb (f_name g) (f_name f)); [discriminate | exact IH].
Qed.

Lemma find_file_snoc_other (fs : list file) (f : file) (name : string) :
  f_name f <> name ->
  find_file (fs ++ [f]) name = find_file fs name.
Proof.
  intros Hne. unfold find_file. induction fs as [| g fs IH]; simpl.
  - apply String.eqb_neq in Hne. rewrite Hne. reflexivity.
  - destruct (String.eqb (f_name g) name); [reflexivity | exact IH].
Qed.

(** X15.  The command [restore-latest] undoes a download: after
    [sync_from_cloud] has replaced a configuration that was newer than
    every backup, the newest backup is the copy it took, and restoring
    it, at another second and with room for both backups, brings back
    the content and the modification time the configuration had before
    the download. *)
Theorem restore_latest_undoes_download (e1 e2 : lenv) (l : launcher)
  (src : file) (cloud : string) (doc : yaml) (n : Z) :
  tabby_config_path l = true ->
  tabby_config l = Some src ->
  download_from_gist e1 l = Some cloud ->
  cloud <> "" ->
  yaml_safe_load cloud = Some doc ->
  backup_write_ok e1 = true -> config_write_ok e1 = true ->
  backup_write_ok e2 = true -> config_write_ok e2 = true ->
  user_confirms e2 = true ->
  stamp e1 <> stamp e2 ->
  find_file (backups l) ("config_backup_" +:+ stamp e1 +:+ ".yaml") = None ->
  find_file (backups l) ("config_backup_" +:+ stamp e2 +:+ ".yaml") = None ->
  max_backups l = Some n ->
  Z.of_nat (length (glob (backups l) "config_backup_*.yaml")) + 2 <= n ->
  (forall y, In y (glob (backups l) "config_backup_*.yaml") ->
             f_mtime y < f_mtime src) ->
  exists l1 l2,
    sync_from_cloud e1 l = ((SUCCESS, msg_downloaded), l1)
    /\ tabby_config l1 = Some (File "config.yaml" cloud (clock_write e1))
    /\ restore_latest e2 l1 = (Some true, l2)
    /\ tabby_config l2
       = Some (File "config.yaml" (f_content src) (f_mtime src)).
Proof.
  intros Hpath Hsrc Hdl Hne Hgood Hb1 Hw1 Hb2 Hw2 Hconfirm Hstamp
    Hfresh1 Hfresh2 Hmax Hroom Hnewer.
  set (pat := "config_backup_*.yaml") in *.
  set (name1 := "config_backup_" +:+ stamp e1 +:+ ".yaml") in *.
  set (name2 := "config_backup_" +:+ stamp e2 +:+ ".yaml") in *.
  set (copy1 := File name1 (f_content src) (f_mtime src)).
  set (cfg1 := File "config.yaml" cloud (clock_write e1)).
  set (copy2 := File name2 cloud (clock_write e1)).
  assert (Hnames : name1 <> name2).
  { unfold name1, name2. intros Heq. apply append_cancel_l in Heq.
    apply append_cancel_r in Heq. contradiction. }
  set (la := with_backups (backups l ++ [copy1]) l).
  assert (Hglob1 : glob (backups la) pat = glob (backups l) pat ++ [copy1])
    by (apply glob_snoc; apply config_backup_name_matches).
  assert (Hcreate1 : create_backup e1 l = (Some name1, la)).
  { rewrite (create_backup_fresh e1 l src Hsrc Hb1 Hfresh1).
    fold name1 copy1 la. f_equal.
    apply (cleanup_old_backups_room la n Hmax).
    fold pat. rewrite Hglob1, length_app. simpl. lia. }
  set (l1 := with_tabby_config (Some cfg1) la).
  assert (Hrun1 : sync_from_cloud e1 l = ((SUCCESS, msg_downloaded), l1)).
  { unfold Launcher.sync_from_cloud. rewrite Hpath, Hdl.
    apply String.eqb_neq in Hne. rewrite Hne, Hsrc, Hcreate1, Hw1.
    unfold validate_config. simpl. rewrite Hpath, Hgood. reflexivity. }
  exists l1. 
  assert (Hlatest : exists t, list_backups l1 = copy1 :: t).
  { unfold list_backups. change (backups l1) with (backups la).
    fold pat. rewrite Hglob1.
    destruct (newest_first_max (glob (backups l) pat ++ [copy1]))
      as (h & t & Hsorted & Hmaxi); [destruct (glob (backups l) pat); discriminate |].
    exists t. rewrite Hsorted. f_equal.
    assert (Hh : In h (glob (backups l) pat ++ [copy1])).
    { apply (Permutation_in _ (Permutation_sym (newest_first_perm _))).
      rewrite Hsorted. left. reflexivity. }
    apply in_app_or in Hh. destruct Hh as [Hh | [<- | []]]; [| reflexivity].
    specialize (Hnewer h Hh).
    assert (Hc : In copy1 (glob (backups l) pat ++ [copy1]))
      by (apply in_or_app; right; left; reflexivity).
    specialize (Hmaxi copy1 Hc). simpl in Hmaxi. lia. }
  destruct Hlatest as [t Hlatest].
  set (lb := with_backups (backups l1 ++ [copy2]) l1).
  assert (Hfresh2' : find_file (backups l1) name2 = None).
  { change (backups l1) with (backups l ++ [copy1]).
    rewrite find_file_snoc_other by exact Hnames. exact Hfresh2. }
  assert (Hcreate2 : create_backup e2 l1 = (Some name2, lb)).
  { rewrite (create_backup_fresh e2 l1 cfg1 eq_refl Hb2 Hfresh2').
    fold name2. change (File name2 (f_content cfg1) (f_mtime cfg1)) with copy2.
    fold lb. f_equal.
    apply (cleanup_old_backups_room lb n Hmax).
    fold pat. change (backups lb) with ((backups l ++ [copy1]) ++ [copy2]).
    rewrite (glob_snoc _ copy2 pat (config_backup_name_matches (stamp e2))).
    change (glob (backups l ++ [copy1]) pat) with (glob (backups la) pat).
    rewrite Hglob1, !length_app. simpl. lia. }
  assert (Hfind : forall rest,
             find_file ((backups l ++ [copy1]) ++ rest) name1 = Some copy1).
  { intros rest. rewrite <- app_assoc. simpl.
    apply (find_file_app_fresh (backups l) rest copy1). exact Hfresh1. }
  eexists. split; [exact Hrun1 |]. split; [reflexivity |].
  unfold restore_latest. rewrite Hlatest. simpl f_name.
  unfold restore_from_backup.
  change (backups l1) with (backups l ++ [copy1]).
  rewrite <- (app_nil_r (backups l ++ [copy1])) at 1. rewrite Hfind.
  change (tabby_config_path l1) with (tabby_config_path l).
  rewrite Hpath, Hconfirm, Hcreate2.
  change (backups lb) with ((backups l ++ [copy1]) ++ [copy2]).
  rewrite Hfind, Hw2. split; reflexivity.
Qed.

End LauncherSessions.

(** ** The launcher's backups on example directories *)
Section LauncherExamples.
Import Launcher LauncherDemo.

Ltac evaluate :=
  first [ vm_compute; reflexivity
        | let H := fresh in intros H; vm_compute in H; discriminate H ].

Ltac distinct_names := apply (bool_decide_unpack _); vm_compute; exact I.

Definition backup_a : file :=
  File "config_backup_20231113_090000.yaml" "a" 1699866000.
Definition backup_b : file :=
  File "config_backup_20231114_090000.yaml" "b" 1699952400.
Definition backup_c : file :=
  File "config_backup_20231115_090000.yaml" "c" 1700038800.
Definition recent_fallback : file :=
  File "fallback_backup_20231114_221315.yaml" Demo.text_work 1699999995.

(** The launcher of [desk] with another token, limit and directory. *)
Definition desk_with (token : string) (limit : Z) (files : list file)
  : launcher :=
  {| github_token := token;
     gist_id := "g1";
     conflict_strategy := NEWEST;
     max_backups := Some limit;
     tabby_config_path := true;
     tabby_config := Some tabby_file;
     backups := files;
     last_config_mtime := Some 1699999000;
     config_changed_since_start := true;
     attempts := [] |}.

(** A directory with three configuration backups and a fallback file,
    and a limit of two. *)
Definition crowded : launcher :=
  desk_with "ghp_token" 2 [backup_b; recent_fallback; backup_a; backup_c].

(** A directory at its limit of one backup, which is newer than the
    configuration file. *)
Definition full_of_newer : launcher := desk_with "ghp_token" 1 [backup_c].

(** A directory at its limit of one backup, older than the
    configuration file. *)
Definition at_limit : launcher := desk_with "ghp_token" 1 [old_backup].

(** No token, and a fallback file written six seconds before the check. *)
Definition no_token : launcher :=
  desk_with "" 10 [old_backup; recent_fallback].

(** The cloud holds a document that does not parse; the user accepts
    the rollback. *)
Definition bad_cloud : lenv :=
  {| REQUESTS_AVAILABLE := true;
     reply_system_http := None;
     reply_requests := None;
     reply_urllib := None;
     stamp := "20231114_221320";
     clock_write := 1700000000;
     clock_check := 1700000001;
     backup_write_ok := true;
     config_write_ok := true;
     cloud_content := Some Demo.text_broken;
     error_text := "No such file or directory";
     user_confirms := true;
     user_rolls_back := true |}.

(** A later call, forty seconds on. *)
Definition later : lenv :=
  {| REQUESTS_AVAILABLE := true;
     reply_system_http := None;
     reply_requests := None;
     reply_urllib := None;
     stamp := "20231114_221400";
     clock_write := 1700000040;
     clock_check := 1700000041;
     backup_write_ok := true;
     config_write_ok := true;
     cloud_content := Some Demo.text_home;
     error_text := "";
     user_confirms := true;
     user_rolls_back := false |}.

(** X9 at work on [crowded]: the two newest configuration backups and
    the fallback file stay, the oldest backup goes. *)
Lemma cleanup_old_backups_keeps_newest_witness :
  (length (glob (backups (cleanup_old_backups crowded)) "config_backup_*.yaml")
   <= 2)%nat
  /\ In recent_fallback (backups (cleanup_old_backups crowded))
  /\ ~ In backup_a (backups (cleanup_old_backups crowded))
  /\ backups (cleanup_old_backups crowded)
     = [backup_b; recent_fallback; backup_c].
Proof.
  destruct (cleanup_old_backups_keeps_newest crowded 2)
    as (Hbound & _ & Hother & _);
    [reflexivity | lia | distinct_names |].
  split; [exact Hbound |].
  split; [apply Hother; [right; left; reflexivity | evaluate] |].
  split; [| evaluate].
  intros H. vm_compute in H. intuition discriminate.
Defined.

(** X10 at work on [full_of_newer]. *)
Lemma backup_of_older_config_is_pruned_witness :
  exists l',
    create_backup bad_cloud full_of_newer
    = (Some "config_backup_20231114_221320.yaml", l')
    /\ find_file (backups l') "config_backup_20231114_221320.yaml" = None
    /\ Launcher.sync_from_cloud Demo.safe_load bad_cloud full_of_newer
       = ((ERROR, msg_sync_failed bad_cloud),
          with_tabby_config
            (Some (File "config.yaml" Demo.text_broken 1700000000)) l').
Proof.
  destruct (backup_of_older_config_is_pruned Demo.safe_load bad_cloud
              full_of_newer tabby_file 1 Demo.text_broken)
    as (l' & Hcreate & Hgone & _ & Hsync);
    [reflexivity | reflexivity | reflexivity | lia | distinct_names
    | evaluate | vm_compute; lia | |].
  - intros y Hy. vm_compute in Hy. destruct Hy as [<- | []]. vm_compute.
    reflexivity.
  - exists l'. split; [exact Hcreate |]. split; [exact Hgone |].
    apply Hsync; evaluate.
Defined.

(** X11 at work on [at_limit]: the only backup is lost. *)
Lemma restoring_oldest_backup_at_limit_fails_witness :
  exists l',
    restore_from_backup "config_backup_20231114_200000.yaml" third_delivers
      at_limit = (false, l')
    /\ tabby_config l' = Some tabby_file
    /\ find_file (backups l') "config_backup_20231114_200000.yaml" = None.
Proof.
  apply (restoring_oldest_backup_at_limit_fails third_delivers at_limit
           tabby_file old_backup 1);
    try reflexivity; try lia; try distinct_names.
  - left. reflexivity.
  - intros y Hy Hne. vm_compute in Hy. destruct Hy as [<- | []].
    exfalso. apply Hne. reflexivity.
Defined.

(** X12 at work on [desk]. *)
Lemma rollback_restores_previous_configuration_witness :
  exists l',
    Launcher.sync_from_cloud Demo.safe_load bad_cloud desk
    = ((SUCCESS, msg_rolled_back), l')
    /\ tabby_config l' = Some tabby_file.
Proof.
  apply (rollback_restores_previous_configuration Demo.safe_load bad_cloud
           desk tabby_file Demo.text_broken 10);
    try reflexivity; try evaluate.
Defined.

(** X13 at work on [no_token]. *)
Lemma stale_fallback_reports_offline_saved_witness :
  sync_to_cloud offline no_token = ((SUCCESS, msg_offline_saved), no_token).
Proof.
  apply (stale_fallback_reports_offline_saved offline no_token tabby_file
           recent_fallback); try reflexivity.
  right. left. reflexivity.
Defined.

(** X15 at work on [desk]: a download, then [restore-latest]. *)
Lemma restore_latest_undoes_download_witness :
  exists l1 l2,
    Launcher.sync_from_cloud Demo.safe_load third_delivers desk
    = ((SUCCESS, msg_downloaded), l1)
    /\ tabby_config l1 = Some (File "config.yaml" Demo.text_home 1700000000)
    /\ restore_latest later l1 = (Some true, l2)
    /\ tabby_config l2 = Some tabby_file.
Proof.
  apply (restore_latest_undoes_download Demo.safe_load third_delivers later
           desk tabby_file Demo.text_home Demo.doc_home 10);
    try reflexivity.
  - discriminate.
  - discriminate.
  - intros H. vm_compute in H. discriminate H.
  - intros y Hy. vm_compute in Hy. destruct Hy as [<- | []]. reflexivity.
Defined.

End LauncherExamples.

(** ** Which names the exclusion patterns match *)
Section ExclusionPatterns.
Import Glob ZipSync.

(** A pattern character that stands for itself. *)
Definition plain (c : ascii) : Prop := c <> "*"%char /\ c <> "?"%char.

Lemma glob_match_plain_prefix (lit pat name : list ascii) :
  Forall plain lit ->
  glob_match (lit ++ pat) name = true ->
  exists rest, name = lit ++ rest /\ glob_match pat rest = true.
Proof.
  intros Hlit. revert name.
  induction Hlit as [| c lit [Hstar Hq] _ IH]; intros name H; simpl in *.
  { exists name. auto. }
  apply Ascii.eqb_neq in Hstar, Hq. rewrite Hstar in H.
  destruct name as [| d name]; [discriminate |].
  rewrite Hq in H. simpl in H. apply andb_true_iff in H as [Hcd H].
  apply Ascii.eqb_eq in Hcd. subst d.
  destruct (IH name H) as (rest & -> & Hrest). exists rest. auto.
Qed.

Lemma glob_match_plain_exact (lit name : list ascii) :
  Forall plain lit -> glob_match lit name = true -> name = lit.
Proof.
  intros Hlit H. rewrite <- (app_nil_r lit) in H.
  destruct (glob_match_plain_prefix lit [] name Hlit H) as (rest & -> & Hrest).
  destruct rest; [apply app_nil_r | discriminate].
Qed.

(** [*lit] matches exactly the names that end in [lit]. *)
Lemma star_suffix_matches (lit name : list ascii) :
  Forall plain lit ->
  glob_match ("*"%char :: lit) name = true
  <-> exists stem, name = stem ++ lit.
Proof.
  intros Hlit. split.
  - induction name as [| c name IH]; simpl; intros H.
    + apply orb_true_iff in H as [H | H]; [| discriminate].
      apply (glob_match_plain_exact lit [] Hlit) in H. exists []. exact H.
    + apply orb_true_iff in H as [H | H].
      * apply (glob_match_plain_exact lit _ Hlit) in H. exists []. exact H.
      * destruct (IH H) as [stem ->]. exists (c :: stem). reflexivity.
  - intros [stem ->]. induction stem as [| c stem IH].
    + simpl. destruct lit as [| d lit]; [reflexivity |].
      assert (Hrefl : glob_match (d :: lit) (d :: lit) = true).
      { apply glob_match_refl_plain.
        eapply Forall_impl; [exact Hlit |]. intros a [Ha _]. exact Ha. }
      rewrite Hrefl. reflexivity.
    + apply star_matches_suffix. exact IH.
Qed.

Lemma string_of_chars_append (a b : list ascii) :
  string_of_list_ascii (a ++ b)
  = string_of_list_ascii a +:+ string_of_list_ascii b.
Proof.
  induction a as [| c a IH]; [reflexivity |].
  change (string_of_list_ascii ((c :: a) ++ b))
    with (String c (string_of_list_ascii (a ++ b))).
  rewrite IH. reflexivity.
Qed.

Lemma fnmatch_star_suffix (name suffix : string) :
  Forall plain (list_ascii_of_string suffix) ->
  fnmatch name ("*" +:+ suffix) = true <-> exists stem, name = stem +:+ suffix.
Proof.
  intros Hlit. unfold fnmatch. rewrite chars_append.
  change (list_ascii_of_string "*" ++ list_ascii_of_string suffix)
    with ("*"%char :: list_ascii_of_string suffix).
  rewrite (star_suffix_matches _ _ Hlit). split.
  - intros [stem Hname]. exists (string_of_list_ascii stem).
    apply chars_inj. rewrite chars_append, list_ascii_of_string_of_list_ascii.
    exact Hname.
  - intros [stem ->]. exists (list_ascii_of_string stem). apply chars_append.
Qed.

(** X16.  A base name, which holds no [/], is excluded exactly when it
    ends in [.log], [.tmp], [.cache] or [.gitkeep]: the pattern
    [node_modules/*] matches no base name, so the files of a
    [node_modules] directory are hashed and packed like any other. *)
Theorem excluded_names_end_in_a_listed_suffix (name : string) :
  (forall c, In c (list_ascii_of_string name) -> c <> "/"%char) ->
  excluded name = true
  <-> exists stem suffix,
        In suffix [".log"; ".tmp"; ".cache"; ".gitkeep"]
        /\ name = stem +:+ suffix.
Proof.
  intros Hbase.
  assert (Hmodules : fnmatch name "node_modules/*" = false).
  { destruct (fnmatch name "node_modules/*") eqn:H; [| reflexivity]. exfalso.
    unfold fnmatch in H.
    change (list_ascii_of_string "node_modules/*")
      with (list_ascii_of_string "node_modules/" ++ ["*"%char]) in H.
    apply glob_match_plain_prefix in H as (rest & Hname & _).
    - apply (Hbase "/"%char); [| reflexivity]. rewrite Hname.
      apply in_or_app. left. simpl. do 12 right. left. reflexivity.
    - repeat constructor; discriminate. }
  assert (Hplain : forall s, In s [".log"; ".tmp"; ".cache"; ".gitkeep"] ->
                             Forall plain (list_ascii_of_string s)).
  { intros s Hs. simpl in Hs.
    destruct Hs as [<- | [<- | [<- | [<- | []]]]];
      repeat constructor; discriminate. }
  unfold excluded, EXCLUDE_PATTERNS. simpl existsb. rewrite Hmodules.
  cbn [orb]. rewrite !orb_false_r, !orb_true_iff.
  change "*.log" with ("*" +:+ ".log"). change "*.tmp" with ("*" +:+ ".tmp").
  change "*.cache" with ("*" +:+ ".cache").
  change "*.gitkeep" with ("*" +:+ ".gitkeep").
  rewrite !fnmatch_star_suffix by (apply Hplain; simpl; tauto).
  split.
  - intros [[stem H] | [[stem H] | [[stem H] | [stem H]]]];
      exists stem; eexists; (split; [| exact H]); simpl; tauto.
  - intros (stem & suffix & Hs & ->). simpl in Hs.
    destruct Hs as [<- | [<- | [<- | [<- | []]]]]; eauto 6.
Qed.

End ExclusionPatterns.

(** ** Packing: when it fails *)
Section PackingFailure.
Import Glob ZipSync.




End PackingFailure.

(** ** Unpacking: what stays and what is copied first *)
Section UnpackingFrame.
Import Glob ZipSync.

(** The steps of [extract_zip_archive] when it returns. *)
Lemma extract_zip_archive_steps (stamp : string) (schedule : archive)
  (dest dest' : node) :
  extract_zip_archive stamp schedule dest = Returned dest' ->
  exists es backup',
    dest = NDir es
    /\ backup_items dest SYNC_ITEMS
         (match entry es ("backup-" +:+ stamp) with
          | Some (NDir b) => b
          | _ => []
          end) = Some backup'
    /\ dest' = List.fold_left extract_member schedule
                 (NDir (set_entry es ("backup-" +:+ stamp) (NDir backup'))).
Proof.
  unfold extract_zip_archive. intros H.
  destruct dest as [data | es]; [discriminate |].
  exists es.
  destruct (entry es ("backup-" +:+ stamp)) as [[? | b] |];
    try discriminate;
    match type of H with
    | context [backup_items ?c ?i ?b] =>
        destruct (backup_items c i b) as [backup' |]; [| discriminate]
    end; exists backup'; inversion H; auto.
Qed.






End UnpackingFrame.

(** ** Unpacking: the files that are not in the archive *)
Section UnpackingKeeps.
Import Glob ZipSync.

Variable source : node.
Variable members : archive.
Hypothesis members_are_files :
  forall p c, In (p, c) members ->
              p <> [] /\ lookup source p = Some (NFile (Some c)).

Lemma extract_member_keeps (t : node) (p q : path) (c : string)
  (d : option string) :
  extractable t p ->
  lookup t q = Some (NFile d) ->
  q <> p ->
  lookup (extract_member t (p, c)) q = Some (NFile d).
Proof.
  intros (Hne & Habove & Hdir) Hq Hqp.
  destruct (write_at_succeeds p c t Habove Hdir) as [t1 Hw].
  unfold extract_member. simpl. rewrite Hw.
  rewrite (write_at_elsewhere p c t t1 Hw q); [exact Hq | |].
  - intros [k ->]. rewrite lookup_app in Hq.
    destruct (lookup t p) as [[data | es] |] eqn:Hp; [| | discriminate].
    + destruct k; [apply Hqp; apply app_nil_r | discriminate].
    + exact (Hdir es eq_refl).
  - intros [k ->]. apply (Habove q d); [| exact Hq].
    exists k. split; [| reflexivity]. intros ->. apply Hqp.
    symmetry. apply app_nil_r.
Qed.

Lemma extract_all_keeps (schedule : archive) :
  (forall m, In m schedule -> In m members) ->
  forall t, ready members t ->
    forall q d, lookup t q = Some (NFile d) ->
                (forall c, ~ In (q, c) members) ->
                lookup (List.fold_left extract_member schedule t) q
                = Some (NFile d).
Proof.
  induction schedule as [| [p c] schedule IH]; intros Hsub t Hready q d Hq Hnot;
    [exact Hq |].
  assert (Hin : In (p, c) members) by (apply Hsub; left; reflexivity).
  destruct (extract_member_step source members members_are_files t p c Hin Hready)
    as (Hready1 & _).
  simpl. apply IH; try assumption.
  - intros m Hm. apply Hsub. right. exact Hm.
  - apply extract_member_keeps; [exact (Hready p c Hin) | exact Hq |].
    intros ->. exact (Hnot c Hin).
Qed.

End UnpackingKeeps.

Section UnpackingStale.
Import Glob ZipSync.

(** X19.  Unpacking only adds and overwrites: a file of the destination
    that is not a member of the archive is still there, with the same
    bytes, after [extract_zip_archive].  A file deleted on the machine
    that packed is therefore not deleted on the machine that unpacks. *)
Theorem extraction_keeps_other_files (source dest dest' : node)
  (items : list string) (members schedule : archive) (stamp : string) :
  unique_names source = true ->
  incl items SYNC_ITEMS ->
  create_zip_archive source items = Returned members ->
  Permutation schedule members ->
  (forall p c, In (p, c) members -> extractable dest p) ->
  lookup dest ["backup-" +:+ stamp] = None ->
  extract_zip_archive stamp schedule dest = Returned dest' ->
  forall q d,
    lookup dest q = Some (NFile d) ->
    (forall c, ~ In (q, c) members) ->
    lookup dest' q = Some (NFile d).
Proof.
  intros Hwf Hincl Hzip Hperm Hdest Hnew Hextract q d Hq Hnot.
  assert (Hpacked : incl (packed_items items) SYNC_ITEMS).
  { destruct items; [apply incl_refl | exact Hincl]. }
  pose proof (sync_items_top_level _ Hpacked) as Htop.
  unfold create_zip_archive in Hzip. fold (packed_items items) in Hzip.
  destruct (zip_items source (packed_items items)) as [ms |] eqn:Hms;
    [| discriminate].
  inversion Hzip; subst ms. clear Hzip.
  pose proof (zip_items_spec source _ Hwf Htop _ Hms) as Hspec.
  assert (Hhead : forall p c, In (p, c) members ->
            exists n r, p = n :: r /\ n <> "backup-" +:+ stamp).
  { intros p c Hin. apply Hspec in Hin as (item & rel & Hitem & -> & _).
    rewrite forallb_forall in Htop. specialize (Htop _ Hitem).
    unfold top_level_item in Htop.
    destruct (item_path item) as [| n [| ? ?]] eqn:Hpath; try discriminate.
    exists n, rel. split; [reflexivity |].
    exact (sync_item_not_backup_dir stamp item n (Hpacked _ Hitem) Hpath). }
  assert (Hfiles : forall p c, In (p, c) members ->
            p <> [] /\ lookup source p = Some (NFile (Some c))).
  { intros p c Hin. destruct (Hhead _ _ Hin) as (n & r & -> & _).
    split; [discriminate |].
    apply Hspec in Hin as (item & rel & _ & _ & Hlook & _). exact Hlook. }
  destruct (extract_zip_archive_steps _ _ _ _ Hextract)
    as (es & backup' & -> & _ & ->).
  set (backup_dir := "backup-" +:+ stamp) in *.
  assert (Hentry : entry es backup_dir = None).
  { simpl in Hnew. destruct (entry es backup_dir); [discriminate | reflexivity]. }
  destruct q as [| n r]; [simpl in Hq; discriminate |].
  assert (Hn : n <> backup_dir).
  { intros ->. simpl in Hq. rewrite Hentry in Hq. discriminate. }
  apply (extract_all_keeps source members Hfiles).
  - intros m Hm. eapply Permutation_in; eassumption.
  - intros p c Hin. destruct (Hhead _ _ Hin) as (m & s & -> & Hne).
    apply extractable_beside_entry; [exact Hne | exact (Hdest _ _ Hin)].
  - rewrite lookup_beside_entry by exact Hn. exact Hq.
  - exact Hnot.
Qed.

End UnpackingStale.

(** ** The commands [push] and [pull] *)
Section PushPull.
Import Glob ZipSync.

Lemma assoc_get_set_same (d : list (string * string)) (k v : string) :
  ConfigSync.assoc_get (ConfigSync.assoc_set d k v) k = Some v.
Proof.
  induction d as [| [k0 v0] d IH]; simpl.
  - destruct (decide (k = k)); [reflexivity | congruence].
  - destruct (decide (k0 = k)) as [-> | Hne]; simpl.
    + destruct (decide (k = k)); [reflexivity | congruence].
    + destruct (decide (k0 = k)); [congruence | exact IH].
Qed.

Lemma assoc_get_set_other (d : list (string * string)) (k k' v : string) :
  k' <> k ->
  ConfigSync.assoc_get (ConfigSync.assoc_set d k v) k'
  = ConfigSync.assoc_get d k'.
Proof.
  intros Hne. induction d as [| [k0 v0] d IH]; simpl.
  - destruct (decide (k = k')); [congruence | reflexivity].
  - destruct (decide (k0 = k)) as [-> | Hk]; simpl.
    + destruct (decide (k = k')); [congruence | reflexivity].
    + destruct (decide (k0 = k')); [reflexivity | exact IH].
Qed.

(** The dict after the loop that records a hash for each of [items]. *)
Lemma recorded_hashes (f : string -> string) (items : list string) :
  forall (hashes : list (string * string)) (k : string),
    ConfigSync.assoc_get
      (List.fold_left (fun h item => ConfigSync.assoc_set h item (f item))
         items hashes) k
    = if List.in_dec String.string_dec k items then Some (f k)
      else ConfigSync.assoc_get hashes k.
Proof.
  induction items as [| item rest IH]; intros hashes k; [reflexivity |].
  cbn [List.fold_left]. rewrite IH.
  destruct (List.in_dec String.string_dec k rest) as [Hrest | Hrest];
    destruct (List.in_dec String.string_dec k (item :: rest)) as [Hin | Hin];
    try reflexivity.
  - exfalso. apply Hin. right. exact Hrest.
  - destruct Hin as [<- | Hin]; [apply assoc_get_set_same | contradiction].
  - apply assoc_get_set_other. intros ->. apply Hin. left. reflexivity.
Qed.

Lemma stored_hash_recorded (config : node) (items : list string)
  (c : gist_config) (item : string) :
  stored_hash (record_hashes config items c) item
  = if List.in_dec String.string_dec item items
    then get_item_hash (lookup config (item_path item))
    else stored_hash c item.
Proof.
  unfold stored_hash, record_hashes. simpl.
  rewrite (recorded_hashes
             (fun i => get_item_hash (lookup config (item_path i)))).
  destruct (List.in_dec String.string_dec item items); [reflexivity |].
  destruct (gc_hashes c); reflexivity.
Qed.

Lemma changed_items_none (config : node) (stored : string -> string) :
  (forall item, In item SYNC_ITEMS ->
                get_item_hash (lookup config (item_path item)) = stored item) ->
  changed_items config stored = [].
Proof.
  intros H. unfold changed_items.
  induction SYNC_ITEMS as [| item rest IH]; [reflexivity |].
  simpl. rewrite (H item (or_introl eq_refl)), String.eqb_refl. simpl.
  apply IH. intros i Hi. apply H. right. exact Hi.
Qed.

Lemma changed_items_In (config : node) (stored : string -> string)
  (item : string) :
  In item (changed_items config stored)
  <-> In item SYNC_ITEMS
      /\ get_item_hash (lookup config (item_path item)) <> stored item.
Proof.
  unfold changed_items. rewrite filter_In, negb_true_iff, String.eqb_neq.
  reflexivity.
Qed.

(** What [upload_config] has done when it returns the store's answer. *)
Lemma upload_config_uploaded (e : zenv) (d d1 : sync_dir) :
  upload_config e d = (Returned Uploaded, d1) ->
  exists gist_config members,
    load_gist_config (d_gist_file d) = Returned gist_config
    /\ changed_items (d_config d) (stored_hash gist_config) <> []
    /\ create_zip_archive (d_config d)
         (changed_items (d_config d) (stored_hash gist_config))
       = Returned members
    /\ d1 = SyncDir (d_config d)
              (GistStored
                 (record_hashes (d_config d)
                    (changed_items (d_config d) (stored_hash gist_config))
                    gist_config))
              (Some members) (d_left d).
Proof.
  unfold upload_config. intros H.
  destruct (load_gist_config (d_gist_file d)) as [gc |]; [| discriminate].
  destruct (changed_items (d_config d) (stored_hash gc)) as [| item more] eqn:Hc;
    [discriminate |].
  destruct (create_zip_archive (d_config d) (item :: more)) as [members |]
    eqn:Hzip; [| discriminate].
  destruct (z_patch e) as [status |]; [| discriminate].
  destruct (status =? 200); [| discriminate].
  destruct (z_save_ok e); [| discriminate].
  inversion H; subst. exists gc, members. rewrite Hc.
  repeat split; auto.
Qed.

(** X20.  A push that has uploaded records the hash of every changed
    item, so the push that follows it, with the configuration
    directory as it was, finds no change: it returns without packing
    or sending anything and leaves everything as it is. *)
Theorem second_push_is_skipped (e1 e2 : zenv) (d d1 : sync_dir) :
  upload_config e1 d = (Returned Uploaded, d1) ->
  upload_config e2 d1 = (Returned Skipped, d1).
Proof.
  intros H.
  destruct (upload_config_uploaded e1 d d1 H) as (gc & members & _ & _ & _ & ->).
  unfold upload_config. simpl.
  rewrite changed_items_none; [reflexivity |].
  intros item Hitem. rewrite stored_hash_recorded.
  destruct (List.in_dec String.string_dec item
              (changed_items (d_config d) (stored_hash gc))) as [_ | Hnot];
    [reflexivity |].
  destruct (String.eqb_spec (get_item_hash (lookup (d_config d) (item_path item)))
                            (stored_hash gc item)) as [Heq | Hne];
    [exact Heq |].
  exfalso. apply Hnot. apply changed_items_In. auto.
Qed.

(** X21.  A pull that returns has recorded the hash of every sync item
    as unpacked, so the push that follows it finds no change and sends
    nothing back. *)
Theorem push_after_pull_is_skipped (e1 e2 : zenv) (d d1 : sync_dir) :
  download_config e1 d = Returned d1 ->
  upload_config e2 d1 = (Returned Skipped, d1).
Proof.
  unfold download_config. intros H.
  destruct (z_fetched e1) as [content |]; [| discriminate].
  destruct (zip_magic content); [| discriminate].
  destruct (zip_members content); [| discriminate].
  destruct (extract_zip_archive _ _ _) as [config' |]; [| discriminate].
  destruct (load_gist_config (d_gist_file d)) as [gc |]; [| discriminate].
  destruct (z_save_ok e1); [| discriminate].
  inversion H; subst. unfold upload_config. simpl.
  rewrite changed_items_none; [reflexivity |].
  intros item Hitem. rewrite stored_hash_recorded.
  destruct (List.in_dec String.string_dec item SYNC_ITEMS);
    [reflexivity | contradiction].
Qed.

(** X22.  What a push leaves in the store is the archive of the items
    whose hash differs from the recorded one, and nothing else: a file
    is a member exactly when it lies below such an item, can be read
    and is not excluded.  The files of an unchanged item are not in the
    store after the push, whatever the archive before held. *)
Theorem push_uploads_changed_items_only (e : zenv) (d d1 : sync_dir)
  (gist_config : gist_config) :
  unique_names (d_config d) = true ->
  load_gist_config (d_gist_file d) = Returned gist_config ->
  upload_config e d = (Returned Uploaded, d1) ->
  d_config d1 = d_config d
  /\ exists members,
       d_store d1 = Some members
       /\ forall p c,
            In (p, c) members
            <-> exists item rel,
                  In item SYNC_ITEMS
                  /\ get_item_hash (lookup (d_config d) (item_path item))
                     <> stored_hash gist_config item
                  /\ p = item_path item ++ rel
                  /\ lookup (d_config d) p = Some (NFile (Some c))
                  /\ excluded (basename p) = false.
Proof.
  intros Hwf Hload H.
  destruct (upload_config_uploaded e d d1 H)
    as (gc & members & Hload' & Hsome & Hzip & ->).
  rewrite Hload in Hload'. inversion Hload'; subst gc. clear Hload'.
  split; [reflexivity |]. exists members. split; [reflexivity |].
  set (changed := changed_items (d_config d) (stored_hash gist_config)) in *.
  assert (Hsub : incl changed SYNC_ITEMS).
  { intros item Hitem. apply changed_items_In in Hitem. tauto. }
  unfold create_zip_archive in Hzip.
  destruct changed as [| item more] eqn:Hc; [congruence |].
  rewrite <- Hc in *.
  destruct (zip_items (d_config d) changed) as [ms |] eqn:Hms; [| discriminate].
  inversion Hzip; subst ms.
  intros p c.
  rewrite (zip_items_spec (d_config d) changed Hwf
             (sync_items_top_level _ Hsub) members Hms p c).
  split; intros (i & rel & Hi & Hrest); exists i, rel.
  - unfold changed in Hi. apply changed_items_In in Hi. tauto.
  - split; [unfold changed; apply changed_items_In |]; tauto.
Qed.

(** X23.  A push that raises records no hash and leaves the
    configuration directory as it is, so the next push detects the
    same items; and unless gist.json could not be read, the temporary
    archive of the failed push stays in the configuration directory. *)
Theorem failed_push_records_nothing (e : zenv) (d d1 : sync_dir) :
  upload_config e d = (Raised, d1) ->
  d_config d1 = d_config d
  /\ d_gist_file d1 = d_gist_file d
  /\ (d_gist_file d <> GistMalformed ->
      d_left d1 = d_left d ++ ["tabby-config-" +:+ z_stamp e +:+ ".zip"]).
Proof.
  unfold upload_config, leave_archive. intros H.
  destruct (d_gist_file d) as [| | c] eqn:Hfile; simpl in H.
  2: { inversion H; subst. rewrite Hfile. repeat split; auto. congruence. }
  all: match type of H with
       | context [changed_items ?c ?s] => destruct (changed_items c s)
       end; [discriminate |];
    match type of H with
    | context [create_zip_archive ?c ?i] => destruct (create_zip_archive c i)
    end;
    [destruct (z_patch e) as [status |];
     [destruct (status =? 200); [destruct (z_save_ok e); [discriminate |] |] |] |];
    inversion H; subst; simpl; rewrite ?Hfile; repeat split; auto.
Qed.

End PushPull.

(** ** The archive commands on example directories *)
Section ArchiveExamples.
Import Glob ZipSync TreeDemo.

(** A successful [zipf.extract] shows that the member could be
    extracted. *)
Lemma write_at_extractable (p : path) (content : string) :
  forall t t', p <> [] -> write_at p content t = Some t' -> extractable t p.
Proof.
  induction p as [| name p IH]; intros t t' Hne H; [congruence |].
  simpl in H. destruct t as [d | es]; [discriminate |].
  split; [exact Hne |].
  destruct (entry es name) as [child |] eqn:Hentry.
  - destruct (write_at p content child) as [child' |] eqn:Hw; [| discriminate].
    destruct p as [| next p'].
    + simpl in Hw. destruct child as [d | sub]; [| discriminate]. split.
      * intros [| m r] data [k [Hk Heq]]; [simpl; congruence |].
        simpl in Heq. inversion Heq as [[Hm Hnil]]. symmetry in Hnil.
        apply app_eq_nil in Hnil as [_ Hnil]. contradiction.
      * intros es'. simpl. rewrite Hentry. discriminate.
    + destruct (IH child child' ltac:(discriminate) Hw) as (_ & Habove & Hdir).
      split.
      * intros [| m r] data [k [Hk Heq]]; [simpl; congruence |].
        simpl in Heq. inversion Heq; subst m. simpl. rewrite Hentry.
        apply Habove. exists k. auto.
      * intros es'. simpl lookup at 1. rewrite Hentry. apply Hdir.
  - split.
    + intros [| m r] data [k [Hk Heq]]; [simpl; congruence |].
      simpl in Heq. inversion Heq; subst m. simpl. rewrite Hentry. discriminate.
    + intros es'. simpl. rewrite Hentry. discriminate.
Qed.

Definition stamp_noon : string := "20240101120000".


(** Another machine: an older config.yaml and a theme of its own. *)
Definition other_machine : node :=
  NDir [("config.yaml", NFile (Some Demo.text_home));
        ("themes", NDir [("light.css", NFile (Some "body {color: black}"))])].

(** The members of the archive of [config_dir]. *)
Definition config_members : archive :=
  [(["config.yaml"], Demo.text_work);
   (["plugins"; "ssh"; "index.js"], "module.exports = {}");
   (["themes"; "dark.css"], "body {}")].

(** X16 at work: a log file is excluded, a script in [node_modules] is
    not. *)
Lemma excluded_names_end_in_a_listed_suffix_witness :
  excluded "debug.log" = true
  /\ excluded "index.js" = false
  /\ excluded (basename ["plugins"; "node_modules"; "left-pad"; "index.js"])
     = false.
Proof.
  assert (Hlog : excluded "debug.log" = true).
  { apply (excluded_names_end_in_a_listed_suffix "debug.log").
    - intros c Hc. simpl in Hc. intuition (subst; discriminate).
    - exists "debug", ".log". split; [left; reflexivity | reflexivity]. }
  split; [exact Hlog |]. split; reflexivity.
Defined.



(** X19 at work: the archive of [config_dir] unpacked on
    [other_machine], whose own theme stays. *)
Lemma extraction_keeps_other_files_witness :
  exists dest',
    extract_zip_archive stamp_noon (rev config_members) other_machine
    = Returned dest'
    /\ lookup dest' ["themes"; "light.css"]
       = Some (NFile (Some "body {color: black}"))
    /\ lookup dest' ["themes"; "dark.css"] = Some (NFile (Some "body {}")).
Proof.
  destruct (extract_zip_archive stamp_noon (rev config_members) other_machine)
    as [dest' |] eqn:Hextract; [| vm_compute in Hextract; discriminate].
  exists dest'. split; [reflexivity |].
  split; [| vm_compute in Hextract; inversion Hextract; reflexivity].
  apply (extraction_keeps_other_files config_dir other_machine dest' []
           config_members (rev config_members) stamp_noon).
  - reflexivity.
  - intros item [].
  - reflexivity.
  - symmetry. apply Permutation_rev.
  - intros p c Hin. simpl in Hin.
    destruct Hin as [Heq | [Heq | [Heq | []]]]; inversion Heq; subst;
      (eapply (write_at_extractable _ "x");
       [discriminate | vm_compute; reflexivity]).
  - reflexivity.
  - exact Hextract.
  - reflexivity.
  - intros c Hin. simpl in Hin.
    destruct Hin as [Heq | [Heq | [Heq | []]]]; discriminate Heq.
Defined.

(** The store accepts the push. *)
Definition push_accepted : zenv :=
  {| z_stamp := stamp_noon;
     z_patch := Some 200;
     z_save_ok := true;
     z_fetched := None;
     z_schedule := [] |}.

(** The store answers 502. *)
Definition push_refused : zenv :=
  {| z_stamp := stamp_noon;
     z_patch := Some 502;
     z_save_ok := true;
     z_fetched := None;
     z_schedule := [] |}.

(** The store returns the archive of [config_dir]. *)
Definition pull_answered : zenv :=
  {| z_stamp := stamp_noon;
     z_patch := None;
     z_save_ok := true;
     z_fetched := Some (ZipContent true (Some config_members));
     z_schedule := rev config_members |}.

(** [config_dir] before its first push. *)
Definition never_pushed : sync_dir := SyncDir config_dir GistMissing None [].

(** [config_dir] with the hashes of its plugins and themes recorded. *)
Definition partly_recorded : sync_dir :=
  SyncDir config_dir
    (GistStored (record_hashes config_dir ["plugins/"; "themes/"]
                   (GistConfig None [])))
    None [].

(** [other_machine] before its first pull. *)
Definition never_pulled : sync_dir := SyncDir other_machine GistMissing None [].

(** X20 at work on [never_pushed]. *)
Lemma second_push_is_skipped_witness :
  fst (upload_config push_accepted never_pushed) = Returned Uploaded
  /\ upload_config push_refused (snd (upload_config push_accepted never_pushed))
     = (Returned Skipped, snd (upload_config push_accepted never_pushed)).
Proof.
  assert (H : upload_config push_accepted never_pushed
              = (Returned Uploaded,
                 snd (upload_config push_accepted never_pushed)))
    by (vm_compute; reflexivity).
  split; [rewrite H; reflexivity |].
  exact (second_push_is_skipped push_accepted push_refused never_pushed _ H).
Defined.

(** X21 at work on [never_pulled]. *)
Lemma push_after_pull_is_skipped_witness :
  exists d1,
    download_config pull_answered never_pulled = Returned d1
    /\ lookup (d_config d1) ["themes"; "dark.css"] = Some (NFile (Some "body {}"))
    /\ upload_config push_accepted d1 = (Returned Skipped, d1).
Proof.
  destruct (download_config pull_answered never_pulled) as [d1 |] eqn:H;
    [| vm_compute in H; discriminate].
  exists d1. split; [reflexivity |].
  split; [vm_compute in H; inversion H; reflexivity |].
  exact (push_after_pull_is_skipped pull_answered push_accepted never_pulled d1 H).
Defined.

(** X22 at work on [partly_recorded]: config.yaml is sent, the theme is
    not. *)
Lemma push_uploads_changed_items_only_witness :
  exists members,
    d_store (snd (upload_config push_accepted partly_recorded)) = Some members
    /\ In (["config.yaml"], Demo.text_work) members
    /\ ~ In (["themes"; "dark.css"], "body {}") members.
Proof.
  destruct (push_uploads_changed_items_only push_accepted partly_recorded
              (snd (upload_config push_accepted partly_recorded))
              (record_hashes config_dir ["plugins/"; "themes/"]
                 (GistConfig None [])))
    as (_ & members & Hstore & Hmembers);
    [reflexivity | reflexivity | vm_compute; reflexivity |].
  exists members. split; [exact Hstore |]. split.
  - apply Hmembers. exists "config.yaml", [].
    split; [simpl; tauto |]. split; [vm_compute; discriminate |].
    split; [reflexivity |]. split; reflexivity.
  - intros Hin. apply Hmembers in Hin as (item & rel & Hitem & Hne & Hp & _).
    simpl in Hitem.
    destruct Hitem as [<- | [<- | [<- | [<- | [<- | [<- | [<- | []]]]]]]];
      vm_compute in Hp; try discriminate Hp.
    apply Hne. vm_compute. reflexivity.
Defined.

(** X23 at work on [never_pushed]. *)
Lemma failed_push_records_nothing_witness :
  fst (upload_config push_refused never_pushed) = Raised
  /\ d_gist_file (snd (upload_config push_refused never_pushed)) = GistMissing
  /\ d_left (snd (upload_config push_refused never_pushed))
     = ["tabby-config-20240101120000.zip"].
Proof.
  assert (H : upload_config push_refused never_pushed
              = (Raised, snd (upload_config push_refused never_pushed)))
    by (vm_compute; reflexivity).
  destruct (failed_push_records_nothing push_refused never_pushed _ H)
    as (_ & Hfile & Hleft).
  split; [rewrite H; reflexivity |]. split; [exact Hfile |].
  rewrite Hleft by discriminate. reflexivity.
Defined.

End ArchiveExamples.

(** ** The clean-up that follows a fallback file *)
Section FallbackCleanup.
Import Glob Launcher.

Lemma string_leb_trans (a b c : string) :
  String.leb a b = true -> String.leb b c = true -> String.leb a c = true.
Proof.
  unfold String.leb. revert b c.
  induction a as [| x a IH]; intros [| y b] [| z c]; simpl; try congruence.
  unfold Ascii.compare.
  destruct (N.compare_spec (N_of_ascii x) (N_of_ascii y)) as [Hxy | Hxy | Hxy];
    destruct (N.compare_spec (N_of_ascii y) (N_of_ascii z)) as [Hyz | Hyz | Hyz];
    try congruence; intros Hab Hbc.
  - rewrite Hxy, Hyz, N.compare_refl. exact (IH b c Hab Hbc).
  - rewrite Hxy. rewrite (proj2 (N.compare_lt_iff _ _) Hyz). reflexivity.
  - rewrite <- Hyz. rewrite (proj2 (N.compare_lt_iff _ _) Hxy). reflexivity.
  - assert (Hxz : (N_of_ascii x < N_of_ascii z)%N) by lia.
    rewrite (proj2 (N.compare_lt_iff _ _) Hxz). reflexivity.
Qed.

Lemma sorted_by_name_perm (fs : list file) : Permutation fs (sorted_by_name fs).
Proof. apply sorted_perm. Qed.

Lemma sorted_by_name_ordered (fs : list file) :
  ordered (fun a b => String.leb (f_name a) (f_name b)) (sorted_by_name fs).
Proof.
  apply sorted_ordered.
  - intros a b. apply String.leb_total.
  - intros a b c. apply string_leb_trans.
Qed.

(** X24.  [_cleanup_old_backups_in_dir] with a limit [n >= 0] leaves at
    most [n] files named [*_backup_*.yaml] and removes in the order of
    the names, not of the ages: every file it removes has a name that
    sorts no later than the name of every such file it keeps.  As
    [config_backup_...] sorts before [fallback_backup_...], no
    fallback file is removed while a configuration backup is kept. *)
Theorem fallback_cleanup_removes_by_name (l : launcher) (n : Z) :
  max_backups l = Some n ->
  0 <= n ->
  NoDup (List.map f_name (backups l)) ->
  (length (glob (backups (_cleanup_old_backups_in_dir l)) "*_backup_*.yaml")
   <= Z.to_nat n)%nat
  /\ (forall f g,
         In f (backups l) ->
         ~ In f (backups (_cleanup_old_backups_in_dir l)) ->
         In g (glob (backups (_cleanup_old_backups_in_dir l)) "*_backup_*.yaml") ->
         String.leb (f_name f) (f_name g) = true)
  /\ (forall kept fallback s s',
         In kept (glob (backups (_cleanup_old_backups_in_dir l))
                    "*_backup_*.yaml") ->
         f_name kept = "config_backup_" +:+ s ->
         In fallback (backups l) ->
         f_name fallback = "fallback_backup_" +:+ s' ->
         In fallback (backups (_cleanup_old_backups_in_dir l))).
Proof.
  intros Hmax Hn Hnodup. unfold _cleanup_old_backups_in_dir. rewrite Hmax. simpl.
  set (pat := "*_backup_*.yaml").
  set (G := glob (backups l) pat).
  set (S := sorted_by_name G).
  set (k := Z.to_nat (Z.of_nat (length S) - n)).
  set (doomed := List.firstn k S).
  assert (Hsplit : S = doomed ++ List.skipn k S)
    by (symmetry; apply firstn_skipn).
  assert (HSG : forall f, In f S <-> In f G).
  { intros f. split; apply Permutation_in;
      [symmetry |]; apply sorted_by_name_perm. }
  assert (Hdoomed : forall d, In d doomed -> In d (backups l)).
  { intros d Hd. assert (HdS : In d S).
    { rewrite Hsplit. apply in_or_app. left. exact Hd. }
    apply HSG in HdS. unfold G, glob in HdS. apply filter_In in HdS. tauto. }
  assert (Hremoved : forall f g,
             In f (backups l) -> ~ In f (remove_files (backups l) doomed) ->
             In g (glob (remove_files (backups l) doomed) pat) ->
             String.leb (f_name f) (f_name g) = true).
  { intros f g Hf Hgone Hg.
    assert (Hfd : In f doomed).
    { destruct (existsb (fun d => String.eqb (f_name d) (f_name f)) doomed)
        eqn:Hex.
      - apply existsb_exists in Hex as (d & Hd & Heq).
        apply String.eqb_eq in Heq.
        rewrite <- (same_name_same_file (backups l) d f Hnodup
                      (Hdoomed d Hd) Hf Heq).
        exact Hd.
      - exfalso. apply Hgone. unfold remove_files. apply filter_In.
        split; [exact Hf | rewrite Hex; reflexivity]. }
    rewrite glob_remove_files in Hg. fold G in Hg.
    apply remove_files_In in Hg as [HgG Hkeep].
    apply HSG in HgG. rewrite Hsplit in HgG. apply in_app_or in HgG.
    destruct HgG as [Hfirst | Hlast];
      [exfalso; exact (Hkeep g Hfirst eq_refl) |].
    pose proof (sorted_by_name_ordered G) as Hord. fold S in Hord.
    rewrite Hsplit in Hord.
    exact (ordered_app _ _ _ Hord f g Hfd Hlast). }
  split; [| split].
  - rewrite glob_remove_files. fold G.
    rewrite (remove_files_length_perm G S doomed (sorted_by_name_perm G)).
    rewrite Hsplit at 1. rewrite remove_files_app, remove_files_all. simpl.
    unfold remove_files.
    pose proof (filter_length_le
                  (fun f => negb (existsb (fun d => String.eqb (f_name d) (f_name f))
                                          doomed)) (List.skipn k S)) as Hle.
    rewrite List.length_skipn in Hle. unfold k in *. lia.
  - exact Hremoved.
  - intros kept fallback s s' Hkept Hkname Hfallback Hfname.
    destruct (List.in_dec file_eq_dec fallback
                (remove_files (backups l) doomed)) as [Hin | Hgone];
      [exact Hin |].
    exfalso. pose proof (Hremoved fallback kept Hfallback Hgone Hkept) as Hle.
    rewrite Hkname, Hfname in Hle.
    change ("fallback_backup_" +:+ s') with (String "f" ("allback_backup_" +:+ s'))
      in Hle.
    change ("config_backup_" +:+ s) with (String "c" ("onfig_backup_" +:+ s))
      in Hle.
    discriminate Hle.
Qed.

End FallbackCleanup.

Section FallbackCleanupExample.
Import Launcher LauncherDemo.

Definition fallback_old : file :=
  File "fallback_backup_20231113_080000.yaml" "x" 1699862400.
Definition fallback_new : file :=
  File "fallback_backup_20231116_080000.yaml" "z" 1700121600.

(** A limit of two; the configuration backup is newer than one of the
    fallback files. *)
Definition mixed : launcher :=
  desk_with "ghp_token" 2 [fallback_old; backup_c; fallback_new].

(** X24 at work on [mixed]: the configuration backup is removed, both
    fallback files stay. *)
Lemma fallback_cleanup_removes_by_name_witness :
  (length (glob (backups (_cleanup_old_backups_in_dir mixed)) "*_backup_*.yaml")
   <= 2)%nat
  /\ backups (_cleanup_old_backups_in_dir mixed) = [fallback_old; fallback_new]
  /\ f_mtime fallback_old < f_mtime backup_c.
Proof.
  destruct (fallback_cleanup_removes_by_name mixed 2) as (Hbound & _);
    [reflexivity | lia | apply (bool_decide_unpack _); vm_compute; exact I |].
  split; [exact Hbound |]. split; reflexivity.
Defined.

End FallbackCleanupExample.
